(** * The Debezium demo data generator (app/main.py, app/logger.py)

    A shallow embedding of the generator: the Python functions of
    [app/main.py] become functions over an explicit [world], which holds
    everything the program talks to: the process environment, the Faker
    instance, the random source, the PostgreSQL server, the psycopg2
    session, the clock and the trace of observable events (log lines,
    connection attempts, statements, commits, sleeps).

    Conventions.
    - A Python call that can raise is a computation [M A]: it maps a
      world to an exception or a value, together with the world it leaves
      behind.  The world survives an exception, as the log and the server
      do.
    - Randomness is an oracle: [entropy w] is an arbitrary sequence of
      naturals and every draw of [random], of Faker or of the server's
      [RANDOM()] consumes its next element.
    - Failures of the outside world are scheduled by the world itself:
      [connect_script w] gives the outcome of the successive calls of
      [psycopg2.connect], [fault_script w] the outcome of the successive
      statements, commits and sleeps ([None]: the call goes through,
      [Some e]: it raises [e]; a constraint violation, a lost connection
      and Ctrl+C all come in this way).
    - Python floats are read as the rationals they stand for and their
      arithmetic is exact; [round(x, 2)] is rounding to the nearest
      hundredth, ties to even. *)

From Stdlib Require Import String List ZArith NArith QArith Bool Arith Lia Lqa.
From Stdlib Require Import DecimalString.
From Stdlib Require Import Permutation.
Import ListNotations.

Local Open Scope string_scope.
Local Open Scope list_scope.

(** ** Python values and exceptions *)

(** The exceptions the program meets.  [KeyboardInterrupt] is a
    [BaseException] and not an [Exception]; [OperationalError],
    [ProgrammingError], [IntegrityError] and [InterfaceError] are the
    psycopg2 errors; [Exception_] is any other [Exception], among them the
    one [get_db_connection] raises itself. *)
Inductive exn : Type :=
| KeyboardInterrupt
| OperationalError (msg : string)
| ProgrammingError (msg : string)
| IntegrityError (msg : string)
| InterfaceError (msg : string)
| Exception_ (msg : string).

(** [isinstance(e, Exception)] *)
Definition is_Exception (e : exn) : bool :=
  match e with
  | KeyboardInterrupt => false
  | _ => true
  end.

(** [isinstance(e, psycopg2.OperationalError)] *)
Definition is_OperationalError (e : exn) : bool :=
  match e with
  | OperationalError _ => true
  | _ => false
  end.

(** [str(e)] *)
Definition exn_str (e : exn) : string :=
  match e with
  | KeyboardInterrupt => EmptyString
  | OperationalError m | ProgrammingError m | IntegrityError m
  | InterfaceError m | Exception_ m => m
  end.

Definition show_nat (n : nat) : string := NilZero.string_of_uint (Nat.to_uint n).
Definition show_Z (z : Z) : string := NilZero.string_of_int (Z.to_int z).

(** [str] of a list of integers: [[1, 2, 3]]. *)
Definition show_list_Z (l : list Z) : string :=
  "[" ++ String.concat ", " (map show_Z l) ++ "]".

(** ** The store: a small relational engine

    The engine knows tables, columns, SERIAL sequences, timestamp defaults
    and replica identity, and it rejects a statement that names a table or
    a column it does not have.  Whatever else a server may reject (a value
    too long for its column, a lost connection) comes through the fault
    script of the world.  The sequence of a table is kept with the table,
    so a transaction that is never committed also gives back the values it
    took; the program cannot see the difference, since it closes the
    session after the first failure. *)

(** A field of a row, and a parameter of a statement.  Python's [None] and
    SQL's [NULL] are [VNull]. *)
Inductive value : Type :=
| VNull
| VInt (z : Z)
| VStr (s : string)
| VNum (q : Q)
| VTime (t : nat).

Inductive coltype : Type :=
| Serial
| Varchar (n : nat)
| Numeric (precision scale : nat)
| Integer
| Timestamp.

Record column : Type := {
  col_name : string;
  col_type : coltype;
  col_primary_key : bool;
  col_not_null : bool;
  col_default_now : bool  (* DEFAULT CURRENT_TIMESTAMP *)
}.

Definition row : Type := list (string * value).
Definition tuple : Type := list value.

Record table : Type := {
  tbl_name : string;
  tbl_columns : list column;
  tbl_replica_full : bool;   (* REPLICA IDENTITY FULL *)
  tbl_serial : Z;            (* last value of the SERIAL sequence *)
  tbl_rows : list row        (* in insertion order *)
}.

(** The catalog of the database, in creation order. *)
Definition store : Type := list table.

Definition empty_store : store := [].

(** The statements the program sends, one constructor per SQL text of
    [app/main.py]. *)
Inductive stmt : Type :=
| CreateTableIfNotExists (name : string) (cols : list column)
| AlterTableReplicaIdentityFull (name : string)
| InsertValuesReturningId (name : string) (cols : list string) (tuples : list tuple)
| SelectIdOrderByRandomLimit (name : string) (limit : nat).

Fixpoint find_table (name : string) (s : store) : option table :=
  match s with
  | [] => None
  | t :: s' => if String.eqb (tbl_name t) name then Some t else find_table name s'
  end.

(** Replaces the first table called [tbl_name t'] by [t']. *)
Fixpoint put_table (t' : table) (s : store) : store :=
  match s with
  | [] => []
  | t :: s' =>
      if String.eqb (tbl_name t) (tbl_name t') then t' :: s' else t :: put_table t' s'
  end.

Fixpoint field (c : string) (r : row) : value :=
  match r with
  | [] => VNull
  | (c', v) :: r' => if String.eqb c' c then v else field c r'
  end.

Fixpoint param (c : string) (cols : list string) (vals : tuple) : option value :=
  match cols, vals with
  | c' :: cols', v :: vals' => if String.eqb c' c then Some v else param c cols' vals'
  | _, _ => None
  end.

Definition has_column (cols : list column) (c : string) : bool :=
  existsb (fun k => String.eqb (col_name k) c) cols.

(** The row an INSERT builds from one parameter tuple: a named column takes
    its parameter, a SERIAL column the next value [id] of the sequence, a
    column with DEFAULT CURRENT_TIMESTAMP the time [t0] at which the
    transaction began, any other column NULL. *)
Definition new_row (columns : list column) (cols : list string) (vals : tuple)
    (id : Z) (t0 : nat) : row :=
  map (fun k =>
         (col_name k,
          match param (col_name k) cols vals with
          | Some v => v
          | None =>
              match col_type k with
              | Serial => VInt id
              | _ => if col_default_now k then VTime t0 else VNull
              end
          end)) columns.

Fixpoint new_rows (columns : list column) (cols : list string) (tuples : list tuple)
    (last : Z) (t0 : nat) : list row :=
  match tuples with
  | [] => []
  | vals :: tuples' =>
      new_row columns cols vals (last + 1) t0
      :: new_rows columns cols tuples' (last + 1) t0
  end.

Definition insert_rows (t : table) (cols : list string) (tuples : list tuple)
    (t0 : nat) : table :=
  {| tbl_name := tbl_name t;
     tbl_columns := tbl_columns t;
     tbl_replica_full := tbl_replica_full t;
     tbl_serial := tbl_serial t + Z.of_nat (length tuples);
     tbl_rows := tbl_rows t ++ new_rows (tbl_columns t) cols tuples (tbl_serial t) t0 |}.

Definition set_replica_full (t : table) : table :=
  {| tbl_name := tbl_name t;
     tbl_columns := tbl_columns t;
     tbl_replica_full := true;
     tbl_serial := tbl_serial t;
     tbl_rows := tbl_rows t |}.

Definition new_table (name : string) (cols : list column) : table :=
  {| tbl_name := name;
     tbl_columns := cols;
     tbl_replica_full := false;
     tbl_serial := 0;
     tbl_rows := [] |}.

Definition table_names (s : store) : list string := map tbl_name s.

(** The rows of the table called [name], none when there is no such table. *)
Definition rows_of (name : string) (s : store) : list row :=
  match find_table name s with
  | Some t => tbl_rows t
  | None => []
  end.

(** ** The world *)

(** [os.environ], as far as the program reads it. *)
Record environment : Type := {
  env_DB_HOST : option string;
  env_DB_PORT : option string;
  env_DB_NAME : option string;
  env_DB_USER : option string;
  env_DB_PASSWORD : option string
}.

(** [os.getenv(name, default)] *)
Definition getenv (var : option string) (default : string) : string :=
  match var with
  | Some v => v
  | None => default
  end.

(** The Faker providers the program calls, each a function of one draw. *)
Record Faker : Type := {
  fake_catch_phrase : N -> string;
  fake_name : N -> string;
  fake_email : N -> string
}.

Inductive level : Type := DEBUG | INFO | WARNING | ERROR | CRITICAL.

Definition levelno (l : level) : nat :=
  match l with
  | DEBUG => 10
  | INFO => 20
  | WARNING => 30
  | ERROR => 40
  | CRITICAL => 50
  end.

Inductive event : Type :=
| EvLog (lvl : level) (msg : string)
| EvConnect
| EvExecute (s : stmt)
| EvCommit
| EvClose
| EvSleep (secs : nat).

(** The psycopg2 session: not yet opened, open (idle, or inside a
    transaction that began at time [t0] and sees [view]), or closed. *)
Inductive session_state : Type :=
| NoSession
| InSession (txn : option (nat * store))
| SessionClosed.

Record world : Type := {
  environ : environment;
  faker : Faker;
  entropy : nat -> N;
  drawn : nat;
  connect_script : list (option exn);
  fault_script : list (option exn);
  now : nat;
  server : store;              (* the committed state *)
  session : session_state;
  trace : list event           (* newest first *)
}.

(** The events so far, oldest first. *)
Definition history (w : world) : list event := rev (trace w).

Definition set_drawn (n : nat) (w : world) : world :=
  {| environ := environ w; faker := faker w; entropy := entropy w; drawn := n;
     connect_script := connect_script w; fault_script := fault_script w;
     now := now w; server := server w; session := session w; trace := trace w |}.

Definition set_connect_script (cs : list (option exn)) (w : world) : world :=
  {| environ := environ w; faker := faker w; entropy := entropy w; drawn := drawn w;
     connect_script := cs; fault_script := fault_script w;
     now := now w; server := server w; session := session w; trace := trace w |}.

Definition set_fault_script (fs : list (option exn)) (w : world) : world :=
  {| environ := environ w; faker := faker w; entropy := entropy w; drawn := drawn w;
     connect_script := connect_script w; fault_script := fs;
     now := now w; server := server w; session := session w; trace := trace w |}.

Definition set_now (t : nat) (w : world) : world :=
  {| environ := environ w; faker := faker w; entropy := entropy w; drawn := drawn w;
     connect_script := connect_script w; fault_script := fault_script w;
     now := t; server := server w; session := session w; trace := trace w |}.

Definition set_server (s : store) (w : world) : world :=
  {| environ := environ w; faker := faker w; entropy := entropy w; drawn := drawn w;
     connect_script := connect_script w; fault_script := fault_script w;
     now := now w; server := s; session := session w; trace := trace w |}.

Definition set_session (c : session_state) (w : world) : world :=
  {| environ := environ w; faker := faker w; entropy := entropy w; drawn := drawn w;
     connect_script := connect_script w; fault_script := fault_script w;
     now := now w; server := server w; session := c; trace := trace w |}.

Definition set_trace (t : list event) (w : world) : world :=
  {| environ := environ w; faker := faker w; entropy := entropy w; drawn := drawn w;
     connect_script := connect_script w; fault_script := fault_script w;
     now := now w; server := server w; session := session w; trace := t |}.

(** ** Computations *)

(** A computation over a state [S]: it ends with an exception or a value,
    and with a state either way. *)
Definition St (S A : Type) : Type := S -> (exn + A) * S.

(** The computations of the functions of the program. *)
Definition M (A : Type) : Type := St world A.

Definition ret {S A} (a : A) : St S A := fun s => (inr a, s).

Definition raise {S A} (e : exn) : St S A := fun s => (inl e, s).

Definition bind {S A B} (c : St S A) (k : A -> St S B) : St S B :=
  fun s =>
    match c s with
    | (inr a, s') => k a s'
    | (inl e, s') => (inl e, s')
    end.

(** [try: body / except E as e: handler e], where [handles] tells the
    exceptions of class [E]. *)
Definition try_except {S A} (body : St S A) (handles : exn -> bool)
    (handler : exn -> St S A) : St S A :=
  fun s =>
    match body s with
    | (inl e, s') => if handles e then handler e s' else (inl e, s')
    | r => r
    end.

(** [try: body / finally: fin] *)
Definition try_finally {S A} (body : St S A) (fin : St S unit) : St S A :=
  fun s =>
    match body s with
    | (r, s') =>
        match fin s' with
        | (inr _, s'') => (r, s'')
        | (inl e, s'') => (inl e, s'')
        end
    end.

Declare Scope py_scope.
Delimit Scope py_scope with py.
Notation "x <- c ;; k" := (bind c (fun x => k))
  (at level 61, c at next level, right associativity) : py_scope.
Notation "c ;; k" := (bind c (fun _ => k))
  (at level 61, right associativity) : py_scope.
Local Open Scope py_scope.

(** [[f() for _ in range(count)]] *)
Fixpoint replicateM {S A} (count : nat) (c : St S A) : St S (list A) :=
  match count with
  | O => ret []
  | S n => x <- c ;; xs <- replicateM n c ;; ret (x :: xs)
  end.

(** The next element of the random oracle. *)
Definition draw : M N :=
  fun w => (inr (entropy w (drawn w)), set_drawn (S (drawn w)) w).

Definition record (ev : event) : M unit :=
  fun w => (inr tt, set_trace (ev :: trace w) w).

Definition tick : M unit :=
  fun w => (inr tt, set_now (S (now w)) w).

(** What the outside world does to the next statement, commit or sleep. *)
Definition fault : M unit :=
  fun w =>
    match fault_script w with
    | Some e :: fs => (inl e, set_fault_script fs w)
    | fs => (inr tt, set_fault_script (tl fs) w)
    end.

(** A call that leaves the process: it is recorded, takes time and may
    fail. *)
Definition external (ev : event) : M unit :=
  record ev ;; tick ;; fault.

(** ** The standard library: [logging], [time], [random] *)

(** [logger.setLevel(logging.INFO)] in [get_logger]: the logger and its
    only handler let through the records at INFO and above. *)
Definition logger_level : level := INFO.

Definition logger_log (lvl : level) (msg : string) : M unit :=
  if Nat.leb (levelno logger_level) (levelno lvl) then record (EvLog lvl msg) else ret tt.

Definition logger_debug := logger_log DEBUG.
Definition logger_info := logger_log INFO.
Definition logger_error := logger_log ERROR.
Definition logger_critical := logger_log CRITICAL.
(** [logger.exception] logs at ERROR (the traceback it adds is not kept). *)
Definition logger_exception := logger_log ERROR.

(** [time.sleep(secs)] *)
Definition time_sleep (secs : nat) : M unit := external (EvSleep secs).

(** [random._randbelow(n)]: a natural below [n]. *)
Definition randbelow (n : N) : M N :=
  d <- draw ;;
  ret (d mod n)%N.

(** [random.random()]: a multiple of 2^-53 in [0, 1). *)
Definition random_random : M Q :=
  k <- randbelow 9007199254740992 ;;
  ret (Z.of_N k # 9007199254740992).

(** [random.uniform(a, b)], which is [a + (b - a) * random()]. *)
Definition random_uniform (a b : Q) : M Q :=
  u <- random_random ;;
  ret (a + (b - a) * u)%Q.

(** [random.randint(a, b)], which is [a + randbelow(b - a + 1)]. *)
Definition random_randint (a b : Z) : M Z :=
  k <- randbelow (Z.to_N (b - a + 1)) ;;
  ret (a + Z.of_N k)%Z.

(** [random.choice(seq)] *)
Definition random_choice {A} (seq : list A) : M A :=
  match seq with
  | [] => raise (Exception_ "IndexError: Cannot choose from an empty sequence")
  | x :: _ =>
      i <- randbelow (N.of_nat (length seq)) ;;
      ret (nth (N.to_nat i) seq x)
  end.

(** Rounding of a rational to the nearest integer, ties to even. *)
Definition round_half_even (q : Q) : Z :=
  let n := Qnum q in
  let d := Zpos (Qden q) in
  let f := (n / d)%Z in
  let r := (n mod d)%Z in
  match (2 * r ?= d)%Z with
  | Lt => f
  | Gt => (f + 1)%Z
  | Eq => if Z.even f then f else (f + 1)%Z
  end.

(** [round(x, 2)] *)
Definition round2 (x : Q) : Q := round_half_even (x * 100) # 100.

(** ** psycopg2 *)

(** What [conn] can hold: [None] or a connection object.  There is one
    session in the world, so the object carries nothing. *)
Inductive pyconn : Type := PyNone | PyConn.

Definition closed_error : exn := InterfaceError "connection already closed".

(** [ORDER BY RANDOM() LIMIT k] over [l]: [k] times, one of the remaining
    elements is drawn and removed. *)
Fixpoint pick_random {A} (k : nat) (l : list A) : M (list A) :=
  match k with
  | O => ret []
  | S k' =>
      match l with
      | [] => ret []
      | x :: _ =>
          d <- randbelow (N.of_nat (length l)) ;;
          let i := N.to_nat d in
          xs <- pick_random k' (firstn i l ++ skipn (S i) l) ;;
          ret (nth i l x :: xs)
      end
  end.

Definition undefined_table (tname : string) : exn :=
  ProgrammingError ("relation " ++ tname ++ " does not exist").

(** One statement on the view of the running transaction, which began at
    [t0]: the new view and the result set the cursor holds afterwards
    ([None]: the statement returns no rows). *)
Definition run_stmt (s : stmt) (t0 : nat) (view : store)
    : M (store * option (list tuple)) :=
  match s with
  | CreateTableIfNotExists tname cols =>
      match find_table tname view with
      | Some _ => ret (view, None)
      | None => ret (view ++ [new_table tname cols], None)
      end
  | AlterTableReplicaIdentityFull tname =>
      match find_table tname view with
      | Some t => ret (put_table (set_replica_full t) view, None)
      | None => raise (undefined_table tname)
      end
  | InsertValuesReturningId tname cols tuples =>
      match find_table tname view with
      | Some t =>
          if forallb (has_column (tbl_columns t)) ("id" :: cols)
             && forallb (fun vals => Nat.eqb (length vals) (length cols)) tuples
          then
            let t' := insert_rows t cols tuples t0 in
            ret (put_table t' view,
                 Some (map (fun r => [field "id" r])
                           (new_rows (tbl_columns t) cols tuples (tbl_serial t) t0)))
          else raise (ProgrammingError "column does not exist")
      | None => raise (undefined_table tname)
      end
  | SelectIdOrderByRandomLimit tname limit =>
      match find_table tname view with
      | Some t =>
          rs <- pick_random limit (tbl_rows t) ;;
          ret (view, Some (map (fun r => [field "id" r]) rs))
      | None => raise (undefined_table tname)
      end
  end.

(** [psycopg2.connect(...)]: the next entry of the connect script decides. *)
Definition psycopg2_connect : M pyconn :=
  record EvConnect ;; tick ;;
  fun w =>
    match connect_script w with
    | Some e :: cs => (inl e, set_connect_script cs w)
    | cs => (inr PyConn, set_session (InSession None) (set_connect_script (tl cs) w))
    end.

(** [conn.cursor()] *)
Definition conn_cursor (conn : pyconn) : M unit :=
  match conn with
  | PyNone => raise (Exception_ "AttributeError: 'NoneType' object has no attribute 'cursor'")
  | PyConn =>
      fun w =>
        match session w with
        | InSession _ => (inr tt, w)
        | _ => (inl closed_error, w)
        end
  end.

(** [cur.execute(s)]: the first statement after a commit opens a
    transaction; a statement the server rejects leaves it open. *)
Definition cur_execute (s : stmt) : M (option (list tuple)) :=
  external (EvExecute s) ;;
  fun w =>
    match session w with
    | InSession txn =>
        let '(t0, view) := match txn with
                           | Some tv => tv
                           | None => (now w, server w)
                           end in
        match run_stmt s t0 view w with
        | (inr (view', res), w') => (inr res, set_session (InSession (Some (t0, view'))) w')
        | (inl e, w') => (inl e, set_session (InSession (Some (t0, view))) w')
        end
    | _ => (inl closed_error, w)
    end.

(** [cur.fetchall()] on a cursor holding [res]. *)
Definition cur_fetchall (res : option (list tuple)) : M (list tuple) :=
  match res with
  | Some rows => ret rows
  | None => raise (ProgrammingError "no results to fetch")
  end.

(** [conn.commit()] *)
Definition conn_commit : M unit :=
  external EvCommit ;;
  fun w =>
    match session w with
    | InSession (Some (_, view)) => (inr tt, set_session (InSession None) (set_server view w))
    | InSession None => (inr tt, w)
    | _ => (inl closed_error, w)
    end.

(** [conn.close()]: what the transaction had not committed is lost. *)
Definition conn_close (conn : pyconn) : M unit :=
  match conn with
  | PyNone => raise (Exception_ "AttributeError: 'NoneType' object has no attribute 'close'")
  | PyConn =>
      record EvClose ;;
      fun w => (inr tt, set_session SessionClosed w)
  end.

(** [_paginate(seq, page_size)] of [psycopg2.extras]: [cur] is the page
    being filled, in reverse, and [room] the places left in it. *)
Fixpoint paginate_from {A} (page_size : nat) (cur : list A) (room : nat) (l : list A)
    : list (list A) :=
  match l with
  | [] => match cur with [] => [] | _ => [rev cur] end
  | x :: l' =>
      match room with
      | O | 1%nat => rev (x :: cur) :: paginate_from page_size [] page_size l'
      | S room' => paginate_from page_size (x :: cur) room' l'
      end
  end.

Definition paginate {A} (l : list A) (page_size : nat) : list (list A) :=
  paginate_from page_size [] page_size l.

(** The loop of [execute_values]: one statement per page; the cursor keeps
    the result of the last one. *)
Fixpoint execute_pages (mk : list tuple -> stmt) (pages : list (list tuple))
    (res : option (list tuple)) : M (option (list tuple)) :=
  match pages with
  | [] => ret res
  | page :: pages' =>
      res' <- cur_execute (mk page) ;;
      execute_pages mk pages' res'
  end.

(** [execute_values(cur, sql, argslist)] with its default [page_size=100]
    and [fetch=False], on a fresh cursor. *)
Definition execute_values (mk : list tuple -> stmt) (argslist : list tuple)
    : M (option (list tuple)) :=
  execute_pages mk (paginate argslist 100) None.

(** ** app/main.py *)

(** *** Configuration (lines 18-31) *)

Definition DB_HOST (w : world) : string := getenv (env_DB_HOST (environ w)) "postgres-source".
Definition DB_PORT (w : world) : string := getenv (env_DB_PORT (environ w)) "5432".
Definition DB_NAME (w : world) : string := getenv (env_DB_NAME (environ w)) "sourcedb".
Definition DB_USER (w : world) : string := getenv (env_DB_USER (environ w)) "postgres".
Definition DB_PASSWORD (w : world) : string := getenv (env_DB_PASSWORD (environ w)) "postgres".

(** A computation that reads the world. *)
Definition reading {A B} (f : world -> A) (k : A -> M B) : M B := fun w => k (f w) w.

(** The statements of the module body that log the configuration. *)
Definition module_body : M unit :=
  logger_info "🔧 Configuration:" ;;
  reading DB_HOST (fun h => logger_info ("   DB_HOST: " ++ h)) ;;
  reading DB_PORT (fun p => logger_info ("   DB_PORT: " ++ p)) ;;
  reading DB_NAME (fun n => logger_info ("   DB_NAME: " ++ n)) ;;
  reading DB_USER (fun u => logger_info ("   DB_USER: " ++ u)).

(** *** get_db_connection *)

Definition max_retries : nat := 5.
Definition retry_delay : nat := 2.

Definition connected_msg (w : world) : string :=
  "✅ Connected to PostgreSQL at " ++ DB_HOST w ++ ":" ++ DB_PORT w ++ "/" ++ DB_NAME w.

Definition attempt_msg (attempt : nat) : string :=
  "   Attempt " ++ show_nat (attempt + 1) ++ "/" ++ show_nat max_retries ++ "...".

Definition failed_msg (e : exn) : string := "❌ Connection failed: " ++ exn_str e.

Definition retrying_msg : string := "⏳ Retrying in " ++ show_nat retry_delay ++ "s...".

Definition gave_up_msg : string :=
  "💥 Failed to connect after " ++ show_nat max_retries ++ " attempts".

Definition gave_up_exn (e : exn) : exn :=
  Exception_ ("Failed to connect after " ++ show_nat max_retries ++ " attempts: " ++ exn_str e).

(** The [for attempt in range(max_retries)] loop, over the attempts still
    to make.  A loop that runs out returns [None], as a Python function
    without [return] does. *)
Fixpoint connection_attempts (attempts : list nat) : M pyconn :=
  match attempts with
  | [] => ret PyNone
  | attempt :: rest =>
      try_except
        (logger_info (attempt_msg attempt) ;;
         conn <- psycopg2_connect ;;
         reading connected_msg logger_info ;;
         ret conn)
        is_OperationalError
        (fun e =>
           logger_error (failed_msg e) ;;
           if Nat.ltb attempt (max_retries - 1) then
             logger_info retrying_msg ;;
             time_sleep retry_delay ;;
             connection_attempts rest
           else
             logger_critical gave_up_msg ;;
             raise (gave_up_exn e))
  end.

Definition get_db_connection : M pyconn :=
  logger_info "🔌 Attempting to connect to PostgreSQL..." ;;
  connection_attempts (seq 0 max_retries).

(** *** create_tables *)

Definition mk_column (cname : string) (ty : coltype) (pk nn dflt : bool) : column :=
  {| col_name := cname; col_type := ty; col_primary_key := pk;
     col_not_null := nn; col_default_now := dflt |}.

Definition products_columns : list column :=
  [ mk_column "id" Serial true true false;
    mk_column "name" (Varchar 255) false true false;
    mk_column "category" (Varchar 100) false false false;
    mk_column "price" (Numeric 10 2) false false false;
    mk_column "stock_quantity" Integer false false false;
    mk_column "created_at" Timestamp false false true ].

Definition sales_columns : list column :=
  [ mk_column "id" Serial true true false;
    mk_column "product_id" Integer false false false;
    mk_column "customer_name" (Varchar 255) false false false;
    mk_column "customer_email" (Varchar 255) false false false;
    mk_column "quantity" Integer false false false;
    mk_column "total_amount" (Numeric 10 2) false false false;
    mk_column "sale_date" Timestamp false false true ].

Definition create_tables (conn : pyconn) : M unit :=
  logger_info "📋 Creating/verifying tables..." ;;
  conn_cursor conn ;;
  cur_execute (CreateTableIfNotExists "products" products_columns) ;;
  logger_info "   ✓ products table ready" ;;
  cur_execute (CreateTableIfNotExists "sales" sales_columns) ;;
  logger_info "   ✓ sales table ready" ;;
  cur_execute (AlterTableReplicaIdentityFull "products") ;;
  logger_info "   ✓ products replica identity set to FULL" ;;
  cur_execute (AlterTableReplicaIdentityFull "sales") ;;
  logger_info "   ✓ sales replica identity set to FULL" ;;
  conn_commit ;;
  logger_info "✅ Tables created/verified successfully".

(** *** generate_product, generate_sale *)

Record product : Type := {
  name : string;
  category : string;
  price : Q;
  stock_quantity : Z
}.

Record sale : Type := {
  product_id : option Z;
  customer_name : string;
  customer_email : string;
  quantity : Z;
  total_amount : Q
}.

Definition categories : list string :=
  ["Electronics"; "Clothing"; "Food"; "Books"; "Home"; "Sports"; "Toys"].

Definition fake_call (provider : Faker -> N -> string) : M string :=
  d <- draw ;;
  reading faker (fun f => ret (provider f d)).

Definition generate_product : M product :=
  n <- fake_call fake_catch_phrase ;;
  c <- random_choice categories ;;
  u <- random_uniform (599 # 100) (99999 # 100) ;;
  s <- random_randint 0 500 ;;
  ret {| name := n; category := c; price := round2 u; stock_quantity := s |}.

Definition generate_sale (product_ids : list Z) : M sale :=
  quantity <- random_randint 1 10 ;;
  u <- random_uniform (599 # 100) (99999 # 100) ;;
  let price := round2 u in
  pid <- match product_ids with
         | [] => ret None
         | _ => i <- random_choice product_ids ;; ret (Some i)
         end ;;
  cn <- fake_call fake_name ;;
  ce <- fake_call fake_email ;;
  ret {| product_id := pid; customer_name := cn; customer_email := ce;
         quantity := quantity;
         total_amount := round2 (price * inject_Z quantity) |}.

(** *** insert_products, insert_sales, get_random_product_ids *)

Definition product_tuple (p : product) : tuple :=
  [VStr (name p); VStr (category p); VNum (price p); VInt (stock_quantity p)].

Definition value_of_id (i : option Z) : value :=
  match i with
  | Some z => VInt z
  | None => VNull
  end.

Definition sale_tuple (s : sale) : tuple :=
  [value_of_id (product_id s); VStr (customer_name s); VStr (customer_email s);
   VInt (quantity s); VNum (total_amount s)].

(** [row[0]] for a row of [RETURNING id] or [SELECT id], whose only field
    is an integer. *)
Definition row0 (r : tuple) : Z :=
  match r with
  | VInt z :: _ => z
  | _ => 0%Z
  end.

(** The column lists of the two INSERT statements. *)
Definition products_params : list string := ["name"; "category"; "price"; "stock_quantity"].

Definition sales_params : list string :=
  ["product_id"; "customer_name"; "customer_email"; "quantity"; "total_amount"].

Definition insert_products_sql : list tuple -> stmt :=
  InsertValuesReturningId "products" products_params.

Definition insert_sales_sql : list tuple -> stmt :=
  InsertValuesReturningId "sales" sales_params.

Definition insert_products (conn : pyconn) (count : nat) : M (list Z) :=
  products <- replicateM count generate_product ;;
  conn_cursor conn ;;
  res <- execute_values insert_products_sql (map product_tuple products) ;;
  rows <- cur_fetchall res ;;
  let inserted_ids := map row0 rows in
  conn_commit ;;
  logger_debug ("📦 Inserted " ++ show_nat count ++ " products (IDs: "
                ++ show_list_Z inserted_ids ++ ")") ;;
  ret inserted_ids.

(** [insert_sales] ends without a [return]: the call evaluates to [None],
    whatever identifiers it fetched. *)
Definition insert_sales (conn : pyconn) (product_ids : list Z) (count : nat)
    : M (option (list Z)) :=
  sales <- replicateM count (generate_sale product_ids) ;;
  conn_cursor conn ;;
  res <- execute_values insert_sales_sql (map sale_tuple sales) ;;
  rows <- cur_fetchall res ;;
  let inserted_ids := map row0 rows in
  conn_commit ;;
  logger_debug ("💰 Inserted " ++ show_nat count ++ " sales (IDs: "
                ++ show_list_Z inserted_ids ++ ")") ;;
  ret None.

Definition get_random_product_ids (conn : pyconn) (limit : nat) : M (list Z) :=
  conn_cursor conn ;;
  res <- cur_execute (SelectIdOrderByRandomLimit "products" limit) ;;
  rows <- cur_fetchall res ;;
  ret (map row0 rows).

(** *** main *)

(** The local variables of [main] that the loop updates. *)
Record locals : Type := {
  product_ids : list Z;
  iteration : Z;
  total_products : Z;
  total_sales : Z
}.

(** The computations of the body of [main]: they run on its local
    variables and on the world, and both survive an exception. *)
Definition F (A : Type) : Type := St (locals * world) A.

Definition lift {A} (c : M A) : F A :=
  fun s =>
    match c (snd s) with
    | (r, w') => (r, (fst s, w'))
    end.

Definition local {A} (f : locals -> A) : F A := fun s => (inr (f (fst s)), s).

Definition assign (f : locals -> locals) : F unit := fun s => (inr tt, (f (fst s), snd s)).

Definition set_product_ids (ids : list Z) (l : locals) : locals :=
  {| product_ids := ids; iteration := iteration l;
     total_products := total_products l; total_sales := total_sales l |}.

Definition set_iteration (i : Z) (l : locals) : locals :=
  {| product_ids := product_ids l; iteration := i;
     total_products := total_products l; total_sales := total_sales l |}.

Definition set_total_products (n : Z) (l : locals) : locals :=
  {| product_ids := product_ids l; iteration := iteration l;
     total_products := n; total_sales := total_sales l |}.

Definition set_total_sales (n : Z) (l : locals) : locals :=
  {| product_ids := product_ids l; iteration := iteration l;
     total_products := total_products l; total_sales := n |}.

(** Lines 180-198: everything before the [try]. *)
Definition main_prologue : M (pyconn * locals) :=
  logger_info "🚀 Starting Debezium data generator..." ;;
  conn <- get_db_connection ;;
  create_tables conn ;;
  logger_info "🌱 Seeding initial products..." ;;
  product_ids <- insert_products conn 20 ;;
  logger_info ("✅ Seeded " ++ show_nat (length product_ids) ++ " initial products") ;;
  logger_info "📊 Starting continuous data generation (1-2 records/sec per table)..." ;;
  logger_info "💡 Press Ctrl+C to stop" ;;
  ret (conn, {| product_ids := product_ids;
                iteration := 0;
                total_products := Z.of_nat (length product_ids);
                total_sales := 0 |}).

(** Lines 204-208: insert 1-2 products. *)
Definition insert_step (conn : pyconn) : F unit :=
  product_count <- lift (random_randint 1 2) ;;
  new_product_ids <- lift (insert_products conn (Z.to_nat product_count)) ;;
  assign (fun l => set_product_ids (product_ids l ++ new_product_ids) l) ;;
  assign (fun l => set_total_products (total_products l + product_count) l).

(** Lines 210-212: the refresh check. *)
Definition refresh_check (conn : pyconn) : F unit :=
  ids <- local product_ids ;;
  if Nat.ltb 100 (length ids) then
    fresh <- lift (get_random_product_ids conn 100) ;;
    assign (set_product_ids fresh)
  else ret tt.

(** Lines 214-217: insert 1-2 sales. *)
Definition sales_step (conn : pyconn) : F unit :=
  sale_count <- lift (random_randint 1 2) ;;
  ids <- local product_ids ;;
  lift (insert_sales conn ids (Z.to_nat sale_count)) ;;
  assign (fun l => set_total_sales (total_sales l + sale_count) l).

Definition progress_msg (l : locals) : string :=
  "📈 Progress: " ++ show_Z (total_products l) ++ " products, "
  ++ show_Z (total_sales l) ++ " sales (iteration " ++ show_Z (iteration l) ++ ")".

(** Lines 219-223: the report of every tenth iteration, and the pause. *)
Definition report_step : F unit :=
  l <- local id ;;
  (if Z.eqb (iteration l mod 10) 0 then lift (logger_info (progress_msg l)) else ret tt) ;;
  lift (time_sleep 1).

(** A turn of the loop up to and with the refresh check (lines 202-212). *)
Definition upto_refresh_check (conn : pyconn) : F unit :=
  assign (fun l => set_iteration (iteration l + 1) l) ;;
  insert_step conn ;;
  refresh_check conn.

(** One turn of the [while True] loop. *)
Definition loop_body (conn : pyconn) : F unit :=
  upto_refresh_check conn ;;
  sales_step conn ;;
  report_step.

(** The first [fuel] turns of the loop.  The loop has no exit of its own:
    a value means that it is still running after [fuel] turns. *)
Fixpoint while_true (fuel : nat) (body : F unit) : F unit :=
  match fuel with
  | O => ret tt
  | S n => body ;; while_true n body
  end.

Definition final_stats_msg (l : locals) : string :=
  "📊 Final stats: " ++ show_Z (total_products l) ++ " products, "
  ++ show_Z (total_sales l) ++ " sales".

(** The [finally] block (lines 230-233). *)
Definition main_finally (conn : pyconn) : F unit :=
  lift (conn_close conn) ;;
  lift (logger_info "✅ Database connection closed") ;;
  l <- local id ;;
  lift (logger_info (final_stats_msg l)).

(** The handlers of lines 225-229, for an exception [e] of the loop. *)
Definition main_handlers (e : exn) : F unit :=
  match e with
  | KeyboardInterrupt => lift (logger_info "⏹ Stopping data generator...")
  | _ =>
      lift (logger_exception ("💥 Error occurred: " ++ exn_str e)) ;;
      raise e
  end.

(** How a run of [main] stands: still in its loop, returned, or left by
    an exception nobody caught. *)
Inductive outcome : Type :=
| Running (l : locals)
| Returned
| Uncaught (e : exn).

(** [main()], watched for the first [fuel] turns of its loop. *)
Definition main (fuel : nat) (w : world) : outcome * world :=
  match main_prologue w with
  | (inl e, w1) => (Uncaught e, w1)
  | (inr (conn, l), w1) =>
      match while_true fuel (loop_body conn) (l, w1) with
      | (inr _, (l', w2)) => (Running l', w2)
      | (inl e, s2) =>
          match try_finally (main_handlers e) (main_finally conn) s2 with
          | (inr _, (_, w3)) => (Returned, w3)
          | (inl e', (_, w3)) => (Uncaught e', w3)
          end
      end
  end.

(** The exit status of the interpreter: 0 when the script runs to its end,
    1 after a traceback, 130 when Ctrl+C is not caught. *)
Definition exit_status (o : outcome) : option Z :=
  match o with
  | Running _ => None
  | Returned => Some 0%Z
  | Uncaught KeyboardInterrupt => Some 130%Z
  | Uncaught _ => Some 1%Z
  end.

(** The whole script: the module body, then [main()]. *)
Definition script (fuel : nat) (w : world) : outcome * world :=
  match module_body w with
  | (inl e, w0) => (Uncaught e, w0)
  | (inr _, w0) => main fuel w0
  end.

(** ** app/logger.py

    The part of the [logging] module that [get_logger] works on: the
    loggers that exist, by name, each with its level and its handlers; the
    root logger; and the two standard streams.  Levels are the numbers of
    [logging] ([NOTSET] is 0, [INFO] 20, [WARNING] 30). *)

Inductive stream : Type := Stdout | Stderr.

Record Formatter : Type := {
  fmt : string;
  datefmt : string
}.

Record Handler : Type := {
  hdlr_stream : stream;
  hdlr_level : nat;
  hdlr_formatter : option Formatter
}.

Record Logger : Type := {
  lg_level : nat;
  lg_handlers : list Handler
}.

(** A text stream: whether it has a [reconfigure] method, and whether it
    is line-buffered. *)
Record TextIO : Type := {
  has_reconfigure : bool;
  line_buffering : bool
}.

Record logging_state : Type := {
  root : Logger;
  loggerDict : list (string * Logger);
  sys_stdout : TextIO;
  sys_stderr : TextIO
}.

Definition NOTSET : nat := 0.

(** A logger object is known by what [logging.getLogger] was asked. *)
Inductive logger_ref : Type :=
| RootLogger
| NamedLogger (name : string).

Fixpoint find_logger (name : string) (d : list (string * Logger)) : option Logger :=
  match d with
  | [] => None
  | (n, lg) :: d' => if String.eqb n name then Some lg else find_logger name d'
  end.

Fixpoint put_logger (name : string) (lg : Logger) (d : list (string * Logger))
    : list (string * Logger) :=
  match d with
  | [] => [(name, lg)]
  | (n, lg') :: d' =>
      if String.eqb n name then (n, lg) :: d' else (n, lg') :: put_logger name lg d'
  end.

Definition set_loggerDict (d : list (string * Logger)) (st : logging_state)
    : logging_state :=
  {| root := root st; loggerDict := d;
     sys_stdout := sys_stdout st; sys_stderr := sys_stderr st |}.

(** [logging.getLogger(name)]: the root logger for no name or the name
    [root], else the logger of that name, created with level [NOTSET] and
    no handler if there is none yet. *)
Definition getLogger (name : string) (st : logging_state) : logger_ref * logging_state :=
  if String.eqb name EmptyString || String.eqb name "root" then (RootLogger, st)
  else
    match find_logger name (loggerDict st) with
    | Some _ => (NamedLogger name, st)
    | None =>
        (NamedLogger name,
         set_loggerDict
           (put_logger name {| lg_level := NOTSET; lg_handlers := [] |} (loggerDict st)) st)
    end.

(** The logger behind a reference, and an update of it. *)
Definition the_logger (r : logger_ref) (st : logging_state) : Logger :=
  match r with
  | RootLogger => root st
  | NamedLogger name =>
      match find_logger name (loggerDict st) with
      | Some lg => lg
      | None => {| lg_level := NOTSET; lg_handlers := [] |}
      end
  end.

Definition update_logger (r : logger_ref) (f : Logger -> Logger) (st : logging_state)
    : logging_state :=
  match r with
  | RootLogger =>
      {| root := f (root st); loggerDict := loggerDict st;
         sys_stdout := sys_stdout st; sys_stderr := sys_stderr st |}
  | NamedLogger name =>
      set_loggerDict (put_logger name (f (the_logger r st)) (loggerDict st)) st
  end.

(** [logger.setLevel(level)] and [logger.addHandler(hdlr)]; the handler
    that [get_logger] adds is a new object, so it is not among the
    handlers yet and is appended. *)
Definition setLevel (lvl : nat) (lg : Logger) : Logger :=
  {| lg_level := lvl; lg_handlers := lg_handlers lg |}.

Definition addHandler (h : Handler) (lg : Logger) : Logger :=
  {| lg_level := lg_level lg; lg_handlers := lg_handlers lg ++ [h] |}.

(** [logging.StreamHandler(stream)], [handler.setLevel], [handler.setFormatter] *)
Definition StreamHandler (s : stream) : Handler :=
  {| hdlr_stream := s; hdlr_level := NOTSET; hdlr_formatter := None |}.

Definition hdlr_setLevel (lvl : nat) (h : Handler) : Handler :=
  {| hdlr_stream := hdlr_stream h; hdlr_level := lvl; hdlr_formatter := hdlr_formatter h |}.

Definition setFormatter (f : Formatter) (h : Handler) : Handler :=
  {| hdlr_stream := hdlr_stream h; hdlr_level := hdlr_level h; hdlr_formatter := Some f |}.

(** [stream.reconfigure(line_buffering=True)], if the stream has the
    method. *)
Definition reconfigure_if_possible (s : TextIO) : TextIO :=
  if has_reconfigure s then {| has_reconfigure := true; line_buffering := true |} else s.

Definition reconfigure_streams (st : logging_state) : logging_state :=
  {| root := root st; loggerDict := loggerDict st;
     sys_stdout := reconfigure_if_possible (sys_stdout st);
     sys_stderr := reconfigure_if_possible (sys_stderr st) |}.

Definition log_format : Formatter :=
  {| fmt := "[%(asctime)s] %(levelname)s - %(message)s";
     datefmt := "%Y-%m-%dT%H:%M:%S" |}.

(** [get_logger(name)] *)
Definition get_logger (name : string) (st : logging_state) : logger_ref * logging_state :=
  let (logger, st1) := getLogger name st in
  match lg_handlers (the_logger logger st1) with
  | [] =>
      let st2 := update_logger logger (setLevel (levelno INFO)) st1 in
      let handler := hdlr_setLevel (levelno INFO) (StreamHandler Stdout) in
      let st3 := reconfigure_streams st2 in
      let handler := setFormatter log_format handler in
      (logger, update_logger logger (addHandler handler) st3)
  | _ :: _ => (logger, st1)
  end.

(** The state of [logging] when the interpreter starts. *)
Definition initial_logging (out err : TextIO) : logging_state :=
  {| root := {| lg_level := levelno WARNING; lg_handlers := [] |};
     loggerDict := [];
     sys_stdout := out; sys_stderr := err |}.

(** The handler that [get_logger] installs. *)
Definition console_handler : Handler :=
  {| hdlr_stream := Stdout; hdlr_level := levelno INFO;
     hdlr_formatter := Some log_format |}.

(** ** Vocabulary of the properties *)

(** The value of [random.random()] for the draw [d]. *)
Definition unit_float (d : N) : Q := Z.of_N (d mod 9007199254740992) # 9007199254740992.

(** The value of [round(random.uniform(5.99, 999.99), 2)] for the draw [d]. *)
Definition drawn_price (d : N) : Q :=
  round2 ((599 # 100) + ((99999 # 100) - (599 # 100)) * unit_float d).

Local Close Scope Q_scope.

(** No statement, commit or sleep to come is hit by a fault. *)
Definition quiet (w : world) : Prop := Forall (fun f => f = None) (fault_script w).

(** The next [n] statements, commits and sleeps go through. *)
Definition calm (n : nat) (w : world) : Prop :=
  Forall (fun f => f = None) (firstn n (fault_script w)).

(** The next [k] statements, commits and sleeps go through and the one
    that follows them raises [e]. *)
Definition struck (k : nat) (e : exn) (w : world) : Prop :=
  calm k w /\ nth_error (fault_script w) k = Some (Some e).

(** The store refuses a connection attempt, with message [m]. *)
Definition refuse (m : string) : option exn := Some (OperationalError m).

(** What a refused attempt that is not the last leaves in the history. *)
Definition refusal_events (attempt : nat) (m : string) : list event :=
  [EvLog INFO (attempt_msg attempt); EvConnect;
   EvLog ERROR (failed_msg (OperationalError m));
   EvLog INFO retrying_msg; EvSleep retry_delay].

Fixpoint refusals_events (attempt : nat) (ms : list string) : list event :=
  match ms with
  | [] => []
  | m :: ms' => refusal_events attempt m ++ refusals_events (S attempt) ms'
  end.

(** Counting the events of one kind. *)
Definition is_connect (ev : event) : bool :=
  match ev with EvConnect => true | _ => false end.

Definition is_sleep (ev : event) : bool :=
  match ev with EvSleep _ => true | _ => false end.

Definition logged_at (lvl : level) (ev : event) : bool :=
  match ev with
  | EvLog l _ => Nat.eqb (levelno l) (levelno lvl)
  | _ => false
  end.

Definition occurrences (f : event -> bool) (evs : list event) : nat := length (filter f evs).

(** The world after a call that left the process and went through. *)
Definition after_external (ev : event) (w : world) : world :=
  set_fault_script (tl (fault_script w))
    (set_now (S (now w)) (set_trace (ev :: trace w) w)).

(** The transaction a statement runs in, when it is sent at time [t]. *)
Definition begin_txn (txn : option (nat * store)) (t : nat) (srv : store) : nat * store :=
  match txn with
  | Some tv => tv
  | None => (t, srv)
  end.

(** The effect of the statements of [create_tables] on a catalog. *)
Definition create_if_absent (tname : string) (cols : list column) (s : store) : store :=
  match find_table tname s with
  | Some _ => s
  | None => s ++ [new_table tname cols]
  end.

Definition alter_replica_full (tname : string) (s : store) : store :=
  match find_table tname s with
  | Some t => put_table (set_replica_full t) s
  | None => s
  end.

(** The catalog [create_tables] leaves. *)
Definition provisioned (s : store) : store :=
  alter_replica_full "sales"
    (alter_replica_full "products"
       (create_if_absent "sales" sales_columns
          (create_if_absent "products" products_columns s))).

(** What a run of [create_tables] leaves in the history. *)
Definition create_tables_events : list event :=
  [EvLog INFO "📋 Creating/verifying tables...";
   EvExecute (CreateTableIfNotExists "products" products_columns);
   EvLog INFO "   ✓ products table ready";
   EvExecute (CreateTableIfNotExists "sales" sales_columns);
   EvLog INFO "   ✓ sales table ready";
   EvExecute (AlterTableReplicaIdentityFull "products");
   EvLog INFO "   ✓ products replica identity set to FULL";
   EvExecute (AlterTableReplicaIdentityFull "sales");
   EvLog INFO "   ✓ sales replica identity set to FULL";
   EvCommit;
   EvLog INFO "✅ Tables created/verified successfully"].

(** The identifiers a sequence at [last] hands out to [n] rows. *)
Fixpoint next_ids (last : Z) (n : nat) : list Z :=
  match n with
  | O => []
  | S n' => (last + 1)%Z :: next_ids (last + 1) n'
  end.

(** A sale refers to an identifier of the pool, or to nothing. *)
Definition refers_to (ids : list Z) (s : sale) : Prop :=
  match product_id s with
  | Some i => In i ids
  | None => ids = []
  end.

(** A catalog row has an identifier and was created before [t0]. *)
Definition product_row_ok (t0 : nat) (p : row) : Prop :=
  exists i t, field "id" p = VInt i /\ field "created_at" p = VTime t /\ (t < t0)%nat.

(** The product a sale row refers to, if any, is a catalog row created no
    later than the sale. *)
Definition sale_row_ok (products : list row) (s : row) : Prop :=
  forall i, field "product_id" s = VInt i ->
    exists p created sold,
      In p products /\ field "id" p = VInt i
      /\ field "created_at" p = VTime created /\ field "sale_date" s = VTime sold
      /\ (created <= sold)%nat.

(** Every identifier of the pool is the identifier of a catalog row. *)
Definition pool_ok (products : list row) (ids : list Z) : Prop :=
  forall i, In i ids -> exists p, In p products /\ field "id" p = VInt i.

(** The state of [main] inside its loop: the session is open and, if a
    transaction is running, it began at [t0] and has changed nothing;
    both tables are there, with [np] and [ns] rows, which the counters
    tell; the pool and the sales refer to catalog rows. *)
Definition inv (txn : option (nat * store)) (t0 np ns : nat) (l : locals) (w : world)
    : Prop :=
  session w = InSession txn
  /\ begin_txn txn (S (now w)) (server w) = (t0, server w) /\ (t0 <= S (now w))%nat
  /\ exists tp ts,
       find_table "products" (server w) = Some tp /\ tbl_columns tp = products_columns
       /\ find_table "sales" (server w) = Some ts /\ tbl_columns ts = sales_columns
       /\ length (tbl_rows tp) = np /\ length (tbl_rows ts) = ns
       /\ total_products l = Z.of_nat np /\ total_sales l = Z.of_nat ns
       /\ Forall (product_row_ok t0) (tbl_rows tp)
       /\ pool_ok (tbl_rows tp) (product_ids l)
       /\ Forall (sale_row_ok (tbl_rows tp)) (tbl_rows ts).

(** The state between two turns of the loop. *)
Definition steady (np ns : nat) (l : locals) (w : world) : Prop :=
  inv None (S (now w)) np ns l w.


(** The seconds a list of events spends sleeping. *)
Definition seconds_slept (evs : list event) : nat :=
  list_sum (map (fun ev => match ev with EvSleep secs => secs | _ => 0%nat end) evs).

Definition is_execute (ev : event) : bool :=
  match ev with EvExecute _ => true | _ => false end.

Definition is_close (ev : event) : bool :=
  match ev with EvClose => true | _ => false end.

(** The row of [products] that holds the record [p] under the identifier
    [id], created at [t], and the row of [sales] that holds [s]. *)
Definition product_row (t : nat) (p : product) (id : Z) : row :=
  [("id", VInt id); ("name", VStr (name p)); ("category", VStr (category p));
   ("price", VNum (price p)); ("stock_quantity", VInt (stock_quantity p));
   ("created_at", VTime t)].


(** [zip_with f l l']: [f] over the pairs of [zip(l, l')]. *)
Definition zip_with {A B C} (f : A -> B -> C) (l : list A) (l' : list B) : list C :=
  map (fun ab => f (fst ab) (snd ab)) (combine l l').

(** The identifier a [SELECT id] returns for a row. *)
Definition id_of (r : row) : Z := row0 [field "id" r].

(** Statements and commits, among the events. *)
Definition is_statement (ev : event) : bool :=
  match ev with EvExecute _ | EvCommit => true | _ => false end.

(** The events of a world that are not statements or commits: log lines,
    connection attempts, sleeps, the closing of the connection. *)
Definition other_events (w : world) : list event :=
  filter (fun ev => negb (is_statement ev)) (trace w).

Definition is_open (s : session_state) : bool :=
  match s with InSession _ => true | _ => false end.

(** From [w] to [w'], nothing was left in the history but statements and
    commits, and the session was neither opened nor closed. *)
Definition only_statements (w w' : world) : Prop :=
  other_events w' = other_events w /\ is_open (session w') = is_open (session w).

(** A computation that does so from every world, whatever it returns or
    raises. *)
Definition sends_only_statements {A} (c : M A) : Prop :=
  forall w, only_statements w (snd (c w)).

Definition is_log (ev : event) : bool :=
  match ev with EvLog _ _ => true | _ => false end.

(** From the frame [s] of [main] to [s']: the turn counter is the same and
    nothing was left in the history but statements and commits. *)
Definition same_turn (s s' : locals * world) : Prop :=
  only_statements (snd s) (snd s') /\ iteration (fst s') = iteration (fst s).

Definition keeps_turn {A} (c : F A) : Prop := forall s, same_turn s (snd (c s)).

(** A row of [sales] refers to a product. *)
Definition has_product (r : row) : Prop := exists i, field "product_id" r = VInt i.





(** ** Sample worlds *)

Definition demo_faker : Faker :=
  {| fake_catch_phrase := fun d => ("Phrase " ++ show_nat (N.to_nat (d mod 1000)))%string;
     fake_name := fun d => ("Customer " ++ show_nat (N.to_nat (d mod 1000)))%string;
     fake_email :=
       fun d => ("user" ++ show_nat (N.to_nat (d mod 1000)) ++ "@example.org")%string |}.

Definition demo_environ : environment :=
  {| env_DB_HOST := None; env_DB_PORT := None; env_DB_NAME := None;
     env_DB_USER := None; env_DB_PASSWORD := None |}.

(** A world with an empty database, for the given scripts. *)
Definition demo_world (cs fs : list (option exn)) : world :=
  {| environ := demo_environ;
     faker := demo_faker;
     entropy := fun n => (N.of_nat (S n) * 6364136223846793005 + 1442695040888963407)%N;
     drawn := 0;
     connect_script := cs;
     fault_script := fs;
     now := 0;
     server := empty_store;
     session := NoSession;
     trace := [] |}.

(** A world whose session is open on a provisioned, empty database. *)
Definition provisioned_world : world :=
  set_session (InSession None) (set_server (provisioned empty_store) (demo_world [] [])).

(** The world [main] reaches, from an empty database, when its loop starts. *)
Definition seeded_world : world := snd (main_prologue (demo_world [] [])).

(** Locals of [main] with a pool of 150 identifiers. *)
Definition crowded_locals : locals :=
  {| product_ids := map Z.of_nat (seq 1 150);
     iteration := 0; total_products := 20; total_sales := 0 |}.

(** Ctrl+C during the first pause of the loop: the twelfth call that a
    fault can hit. *)
Definition interrupted_world : world :=
  demo_world [] (repeat None 11 ++ [Some KeyboardInterrupt]).

(** A constraint violation in the first [INSERT INTO sales]. *)
Definition failing_world : world :=
  demo_world [] (repeat None 9 ++ [Some (IntegrityError "violates check constraint")]).

(** * Properties *)

(** ** Rounding and ranges *)

Local Open Scope Q_scope.

Section Rounding.
Local Open Scope Z_scope.

(** Rounding does not cross an integer. *)
Lemma round_half_even_lower (k : Z) (q : Q) :
  (inject_Z k <= q)%Q -> k <= round_half_even q.
Proof.
  destruct q as [n d]. unfold Qle, round_half_even. cbn [Qnum Qden inject_Z]. intros H.
  assert (Hd : 0 < Zpos d) by lia.
  assert (Hf : k <= n / Zpos d) by (apply Z.div_le_lower_bound; nia).
  destruct (2 * (n mod Zpos d) ?= Zpos d); [destruct (Z.even _)|..]; lia.
Qed.

Lemma round_half_even_upper (k : Z) (q : Q) :
  (q <= inject_Z k)%Q -> round_half_even q <= k.
Proof.
  destruct q as [n d]. unfold Qle, round_half_even. cbn [Qnum Qden inject_Z]. intros H.
  assert (Hd : 0 < Zpos d) by lia.
  pose proof (Z.div_mod n (Zpos d) ltac:(lia)) as E.
  pose proof (Z.mod_pos_bound n (Zpos d) Hd) as B.
  assert (Hf : n / Zpos d <= k) by (apply Z.div_le_upper_bound; nia).
  destruct (Z.compare_spec (2 * (n mod Zpos d)) (Zpos d)) as [C|C|C].
  - destruct (Z.even _); nia.
  - lia.
  - nia.
Qed.

Lemma round_half_even_inject (k : Z) : round_half_even (inject_Z k) = k.
Proof.
  apply Z.le_antisymm.
  - apply round_half_even_upper. apply Qle_refl.
  - apply round_half_even_lower. apply Qle_refl.
Qed.






End Rounding.



Lemma below_length (d : N) (n : nat) :
  n <> 0%nat -> (N.to_nat (d mod N.of_nat n) < n)%nat.
Proof.
  intros H. pose proof (N.mod_upper_bound d (N.of_nat n) ltac:(lia)) as B.
  remember (d mod N.of_nat n)%N as x eqn:E. clear E. lia.
Qed.

(** ** The record factory *)

(** The record factory in closed form: which draw makes which field. *)
Lemma generate_product_eq (w : world) :
  generate_product w =
  (inr {| name := fake_catch_phrase (faker w) (entropy w (drawn w));
          category := nth (N.to_nat (entropy w (1 + drawn w) mod 7)) categories "Electronics";
          price := drawn_price (entropy w (2 + drawn w));
          stock_quantity := (0 + Z.of_N (entropy w (3 + drawn w) mod 501))%Z |},
   set_drawn (4 + drawn w) w).
Proof. reflexivity. Qed.

Lemma generate_sale_eq (ids : list Z) (w : world) :
  generate_sale ids w =
  let q := (1 + Z.of_N (entropy w (drawn w) mod 10))%Z in
  let p := drawn_price (entropy w (1 + drawn w)) in
  match ids with
  | [] =>
      (inr {| product_id := None;
              customer_name := fake_name (faker w) (entropy w (2 + drawn w));
              customer_email := fake_email (faker w) (entropy w (3 + drawn w));
              quantity := q;
              total_amount := round2 (p * inject_Z q) |},
       set_drawn (4 + drawn w) w)
  | i :: _ =>
      (inr {| product_id :=
                Some (nth (N.to_nat (entropy w (2 + drawn w) mod N.of_nat (length ids)))
                        ids i);
              customer_name := fake_name (faker w) (entropy w (3 + drawn w));
              customer_email := fake_email (faker w) (entropy w (4 + drawn w));
              quantity := q;
              total_amount := round2 (p * inject_Z q) |},
       set_drawn (5 + drawn w) w)
  end.
Proof. destruct ids; reflexivity. Qed.




Local Close Scope Q_scope.

(** ** Running a computation *)

(** Scripts of faults. *)
Lemma tl_skipn1 {A} (l : list A) : tl l = skipn 1 l.
Proof. destruct l; reflexivity. Qed.

Lemma Forall_firstn_skipn {A} (P : A -> Prop) (i m n : nat) (l : list A) :
  Forall P (firstn n l) -> (i + m <= n)%nat -> Forall P (firstn m (skipn i l)).
Proof.
  intros H Hle. rewrite Forall_forall in *. intros x Hx. apply H.
  rewrite <- (firstn_skipn i l) at 1.
  destruct (Nat.le_gt_cases (length l) i) as [Hlen|Hlen].
  - rewrite skipn_all2 in Hx by exact Hlen. rewrite firstn_nil in Hx. destruct Hx.
  - rewrite firstn_app, length_firstn, Nat.min_l by lia.
    apply in_or_app. right.
    rewrite <- (firstn_skipn m (firstn (n - i) (skipn i l))).
    apply in_or_app. left. rewrite firstn_firstn, Nat.min_l by lia. exact Hx.
Qed.

Lemma quiet_calm (n : nat) (w : world) : quiet w -> calm n w.
Proof.
  unfold quiet, calm. intros H. rewrite Forall_forall in *. intros x Hx.
  apply H. rewrite <- (firstn_skipn n (fault_script w)). apply in_or_app. left. exact Hx.
Qed.

Lemma quiet_skipn (n : nat) (w w' : world) :
  fault_script w' = skipn n (fault_script w) -> quiet w -> quiet w'.
Proof.
  unfold quiet. intros -> H. rewrite Forall_forall in *. intros x Hx.
  apply H. rewrite <- (firstn_skipn n (fault_script w)). apply in_or_app. right. exact Hx.
Qed.

Lemma calm_le (m n : nat) (w : world) : (m <= n)%nat -> calm n w -> calm m w.
Proof.
  unfold calm. intros Hle H. apply (Forall_firstn_skipn _ 0 m n); [exact H | lia].
Qed.

Lemma calm_skipn (m n : nat) (w w' : world) :
  fault_script w' = skipn n (fault_script w) -> calm (n + m) w -> calm m w'.
Proof.
  unfold calm. intros -> H. apply (Forall_firstn_skipn _ n m (n + m)); [exact H | lia].
Qed.

Lemma struck_calm (n k : nat) (e : exn) (w : world) :
  struck k e w -> (n <= k)%nat -> calm n w.
Proof. intros [H _] Hle. exact (calm_le n k w Hle H). Qed.

Lemma struck_skipn (n k : nat) (e : exn) (w w' : world) :
  fault_script w' = skipn n (fault_script w) -> (n <= k)%nat ->
  struck k e w -> struck (k - n) e w'.
Proof.
  intros Hfs Hle [Hc Hn]. split.
  - apply (calm_skipn _ n w w' Hfs). replace (n + (k - n))%nat with k by lia. exact Hc.
  - rewrite Hfs, nth_error_skipn. replace (n + (k - n))%nat with k by lia. exact Hn.
Qed.

(** A fault that is due is the first entry of the script. *)
Lemma struck_now (e : exn) (w : world) :
  struck 0 e w -> exists fs, fault_script w = Some e :: fs.
Proof.
  intros [_ H]. destruct (fault_script w) as [|f fs]; [discriminate|].
  injection H as ->. exists fs. reflexivity.
Qed.

(** The calls that leave the process go through when the script is calm,
    and raise the fault that is due. *)
Lemma fault_calm (w : world) :
  calm 1 w -> fault w = (inr tt, set_fault_script (tl (fault_script w)) w).
Proof.
  unfold calm, fault. intros H.
  destruct (fault_script w) as [|[e|] fs]; try reflexivity.
  inversion H; discriminate.
Qed.

Lemma external_calm (ev : event) (w : world) :
  calm 1 w -> external ev w = (inr tt, after_external ev w).
Proof.
  intros H. unfold external, bind, record, tick.
  rewrite fault_calm; [reflexivity | exact H].
Qed.

Lemma external_struck (ev : event) (e : exn) (w : world) :
  struck 0 e w -> external ev w = (inl e, after_external ev w).
Proof.
  intros H. destruct (struck_now e w H) as [fs Hfs].
  unfold external, bind, record, tick, fault, after_external.
  cbn [fault_script set_now set_trace]. rewrite Hfs. reflexivity.
Qed.

(** Sequencing, when the first computation is known. *)
Lemma bind_inr {S A B} (c : St S A) (k : A -> St S B) (s s' : S) (a : A) :
  c s = (inr a, s') -> bind c k s = k a s'.
Proof. unfold bind. intros ->. reflexivity. Qed.

Lemma bind_inl {S A B} (c : St S A) (k : A -> St S B) (s s' : S) (e : exn) :
  c s = (inl e, s') -> bind c k s = (inl e, s').
Proof. unfold bind. intros ->. reflexivity. Qed.

(** Sequencing, when the result is known to be a value. *)
Lemma bind_inr_inv {S A B} (c : St S A) (k : A -> St S B) (s s' : S) (b : B) :
  bind c k s = (inr b, s') -> exists a s1, c s = (inr a, s1) /\ k a s1 = (inr b, s').
Proof.
  unfold bind. destruct (c s) as [[e|a] s1]; [discriminate|].
  intros H. exists a, s1. split; [reflexivity | exact H].
Qed.

(** Computes the fields of a world built by setters. *)
Ltac wnorm :=
  cbn [environ faker entropy drawn connect_script fault_script now server session trace
       set_drawn set_connect_script set_fault_script set_now set_server set_session
       set_trace after_external fst snd begin_txn].

Ltac wnorm_in H :=
  cbn [environ faker entropy drawn connect_script fault_script now server session trace
       set_drawn set_connect_script set_fault_script set_now set_server set_session
       set_trace after_external fst snd begin_txn] in H.

(** Proves that the next calls go through, from a hypothesis on the script
    of an earlier world. *)
Ltac calm_tac :=
  unfold calm in *; wnorm; rewrite ?tl_skipn1, ?skipn_skipn;
  lazymatch goal with
  | |- Forall _ (firstn _ (skipn _ _)) =>
      eapply Forall_firstn_skipn; [eassumption | cbn; lia]
  | |- Forall _ (firstn _ _) =>
      eapply (Forall_firstn_skipn _ 0); [eassumption | cbn; lia]
  end.

(** Proves how far a world is in the script of an earlier world. *)
Ltac script_tac :=
  wnorm; rewrite ?tl_skipn1, ?skipn_skipn; reflexivity.

(** Runs the first call of a sequence with the equation that [lem] proves
    for that call. *)
Tactic Notation "step" tactic3(lem) := erewrite bind_inr by lem; wnorm.

(** The logger: INFO and above are recorded, DEBUG is dropped. *)
Lemma logger_info_eq (msg : string) (w : world) :
  logger_info msg w = (inr tt, set_trace (EvLog INFO msg :: trace w) w).
Proof. reflexivity. Qed.

Lemma logger_error_eq (msg : string) (w : world) :
  logger_error msg w = (inr tt, set_trace (EvLog ERROR msg :: trace w) w).
Proof. reflexivity. Qed.

Lemma logger_critical_eq (msg : string) (w : world) :
  logger_critical msg w = (inr tt, set_trace (EvLog CRITICAL msg :: trace w) w).
Proof. reflexivity. Qed.

Lemma logger_debug_eq (msg : string) (w : world) : logger_debug msg w = (inr tt, w).
Proof. reflexivity. Qed.

Lemma time_sleep_calm (secs : nat) (w : world) :
  calm 1 w -> time_sleep secs w = (inr tt, after_external (EvSleep secs) w).
Proof. apply external_calm. Qed.

Lemma time_sleep_struck (secs : nat) (e : exn) (w : world) :
  struck 0 e w -> time_sleep secs w = (inl e, after_external (EvSleep secs) w).
Proof. apply external_struck. Qed.

Lemma history_app (w w' : world) (evs : list event) :
  trace w' = rev evs ++ trace w -> history w' = history w ++ evs.
Proof.
  unfold history. intros ->. rewrite rev_app_distr, rev_involutive. reflexivity.
Qed.

Lemma lift_inr {A} (c : M A) (l : locals) (w w' : world) (a : A) :
  c w = (inr a, w') -> lift c (l, w) = (inr a, (l, w')).
Proof. unfold lift. cbn [fst snd]. intros ->. reflexivity. Qed.

Lemma lift_inr_inv {A} (c : M A) (l l' : locals) (w w' : world) (a : A) :
  lift c (l, w) = (inr a, (l', w')) -> c w = (inr a, w') /\ l' = l.
Proof.
  unfold lift. cbn [fst snd]. destruct (c w) as [r w1]. intros [= -> -> ->].
  split; reflexivity.
Qed.


(** ** The connection manager *)

Lemma connect_refused (e : exn) (cs : list (option exn)) (w : world) :
  connect_script w = Some e :: cs ->
  psycopg2_connect w =
  (inl e, set_connect_script cs (set_now (S (now w)) (set_trace (EvConnect :: trace w) w))).
Proof.
  intros H. unfold psycopg2_connect, bind, record, tick. wnorm. rewrite H. reflexivity.
Qed.

Lemma connect_accepted (cs : list (option exn)) (w : world) :
  connect_script w = None :: cs ->
  psycopg2_connect w =
  (inr PyConn,
   set_session (InSession None)
     (set_connect_script cs (set_now (S (now w)) (set_trace (EvConnect :: trace w) w)))).
Proof.
  intros H. unfold psycopg2_connect, bind, record, tick. wnorm. rewrite H. reflexivity.
Qed.

(** One refused attempt that is not the last: log, sleep, next attempt. *)
Lemma attempt_refused (attempt : nat) (m : string) (cs : list (option exn))
    (rest : list nat) (w : world) :
  connect_script w = refuse m :: cs -> calm 1 w -> (attempt < max_retries - 1)%nat ->
  exists w',
    connection_attempts (attempt :: rest) w = connection_attempts rest w'
    /\ connect_script w' = cs
    /\ trace w' = rev (refusal_events attempt m) ++ trace w
    /\ fault_script w' = skipn 1 (fault_script w)
    /\ session w' = session w /\ environ w' = environ w /\ server w' = server w.
Proof.
  intros Hcs Hq Hlt.
  cbn [connection_attempts]. unfold try_except.
  erewrite bind_inr by apply logger_info_eq.
  erewrite bind_inl by (apply connect_refused; wnorm; exact Hcs).
  cbn [refuse is_OperationalError].
  erewrite bind_inr by apply logger_error_eq.
  apply Nat.ltb_lt in Hlt. rewrite Hlt.
  erewrite bind_inr by apply logger_info_eq.
  erewrite bind_inr by (apply time_sleep_calm; calm_tac).
  eexists. split; [reflexivity|].
  wnorm. repeat split; reflexivity.
Qed.

(** A run of refused attempts, none of them the last. *)
Lemma attempts_refused (ms : list string) :
  forall (attempt n : nat) (cs : list (option exn)) (w : world),
    connect_script w = map refuse ms ++ cs -> calm (length ms) w ->
    (attempt + length ms <= max_retries - 1)%nat ->
    exists w',
      connection_attempts (seq attempt (length ms + n)) w
      = connection_attempts (seq (attempt + length ms) n) w'
      /\ connect_script w' = cs
      /\ trace w' = rev (refusals_events attempt ms) ++ trace w
      /\ fault_script w' = skipn (length ms) (fault_script w)
      /\ session w' = session w /\ environ w' = environ w /\ server w' = server w.
Proof.
  induction ms as [|m ms IH]; intros attempt n cs w Hcs Hq Hle.
  - exists w. cbn [length Nat.add]. rewrite Nat.add_0_r. repeat split; auto.
  - cbn [length] in *. cbn [Nat.add seq].
    destruct (attempt_refused attempt m (map refuse ms ++ cs)
                (seq (S attempt) (length ms + n)) w Hcs
                (calm_le 1 (S (length ms)) w ltac:(lia) Hq) ltac:(lia))
      as (w1 & E1 & Hcs1 & Ht1 & Hf1 & Hs1 & He1 & Hv1).
    destruct (IH (S attempt) n cs w1 Hcs1 (calm_skipn _ 1 w w1 Hf1 Hq) ltac:(lia))
      as (w2 & E2 & Hcs2 & Ht2 & Hf2 & Hs2 & He2 & Hv2).
    exists w2. rewrite E1, E2.
    replace (attempt + S (length ms))%nat with (S attempt + length ms)%nat by lia.
    split; [reflexivity|]. split; [assumption|].
    split.
    { rewrite Ht2, Ht1. cbn [refusals_events]. rewrite rev_app_distr, app_assoc.
      reflexivity. }
    split.
    { rewrite Hf2, Hf1, skipn_skipn. f_equal. lia. }
    repeat split; congruence.
Qed.

Lemma connected_msg_environ (w w' : world) :
  environ w' = environ w -> connected_msg w' = connected_msg w.
Proof.
  intros H. unfold connected_msg, DB_HOST, DB_PORT, DB_NAME. rewrite H. reflexivity.
Qed.

(** How an attempt ends: accepted, broken by another exception, or
    refused for the last time. *)
Lemma attempt_accepted (attempt : nat) (cs : list (option exn)) (rest : list nat)
    (w : world) :
  connect_script w = None :: cs ->
  exists w',
    connection_attempts (attempt :: rest) w = (inr PyConn, w')
    /\ connect_script w' = cs /\ session w' = InSession None
    /\ trace w' = EvLog INFO (connected_msg w) :: EvConnect
                  :: EvLog INFO (attempt_msg attempt) :: trace w
    /\ fault_script w' = fault_script w /\ server w' = server w.
Proof.
  intros Hcs. cbn [connection_attempts]. unfold try_except.
  erewrite bind_inr by apply logger_info_eq.
  erewrite bind_inr by (apply connect_accepted; wnorm; exact Hcs).
  unfold reading.
  erewrite bind_inr by apply logger_info_eq.
  unfold ret. eexists. split; [reflexivity|]. wnorm.
  repeat split; try reflexivity.
Qed.

Lemma attempt_raises (attempt : nat) (e : exn) (cs : list (option exn))
    (rest : list nat) (w : world) :
  connect_script w = Some e :: cs -> is_OperationalError e = false ->
  exists w',
    connection_attempts (attempt :: rest) w = (inl e, w')
    /\ connect_script w' = cs /\ session w' = session w
    /\ trace w' = EvConnect :: EvLog INFO (attempt_msg attempt) :: trace w
    /\ fault_script w' = fault_script w /\ server w' = server w.
Proof.
  intros Hcs He. cbn [connection_attempts]. unfold try_except.
  erewrite bind_inr by apply logger_info_eq.
  erewrite bind_inl by (apply connect_refused; wnorm; exact Hcs).
  rewrite He. eexists. split; [reflexivity|]. wnorm.
  repeat split; try reflexivity.
Qed.

Lemma last_attempt_refused (m : string) (cs : list (option exn)) (rest : list nat)
    (w : world) :
  connect_script w = refuse m :: cs ->
  exists w',
    connection_attempts (max_retries - 1 :: rest)%nat w
    = (inl (gave_up_exn (OperationalError m)), w')
    /\ connect_script w' = cs /\ session w' = session w
    /\ trace w' = EvLog CRITICAL gave_up_msg
                  :: EvLog ERROR (failed_msg (OperationalError m))
                  :: EvConnect :: EvLog INFO (attempt_msg (max_retries - 1)) :: trace w
    /\ fault_script w' = fault_script w /\ server w' = server w.
Proof.
  intros Hcs. cbn [connection_attempts]. unfold try_except.
  erewrite bind_inr by apply logger_info_eq.
  erewrite bind_inl by (apply connect_refused; wnorm; exact Hcs).
  cbn [refuse is_OperationalError].
  erewrite bind_inr by apply logger_error_eq.
  rewrite Nat.ltb_irrefl.
  erewrite bind_inr by apply logger_critical_eq.
  unfold raise. eexists. split; [reflexivity|]. wnorm.
  repeat split; try reflexivity.
Qed.

(** C2.  When no sleep is interrupted: if the store refuses the first four
    connection attempts and accepts the fifth, [get_db_connection] returns
    the session at attempt 5, having logged exactly four failures, with a
    sleep of 2 after each of them; if the store refuses five attempts,
    [get_db_connection] makes exactly five attempts, sleeps 2 between two
    consecutive attempts and not after the last, logs the fatal message and
    raises, and no session is opened. *)
Theorem get_db_connection_retry_bound (w : world) (m1 m2 m3 m4 m5 : string)
    (rest : list (option exn)) :
  quiet w ->
  (connect_script w = refuse m1 :: refuse m2 :: refuse m3 :: refuse m4 :: None :: rest ->
   exists w' evs,
     get_db_connection w = (inr PyConn, w')
     /\ session w' = InSession None
     /\ connect_script w' = rest
     /\ history w' = history w ++ evs
     /\ evs = [EvLog INFO "🔌 Attempting to connect to PostgreSQL...";
               EvLog INFO "   Attempt 1/5..."; EvConnect;
               EvLog ERROR ("❌ Connection failed: " ++ m1);
               EvLog INFO "⏳ Retrying in 2s..."; EvSleep 2;
               EvLog INFO "   Attempt 2/5..."; EvConnect;
               EvLog ERROR ("❌ Connection failed: " ++ m2);
               EvLog INFO "⏳ Retrying in 2s..."; EvSleep 2;
               EvLog INFO "   Attempt 3/5..."; EvConnect;
               EvLog ERROR ("❌ Connection failed: " ++ m3);
               EvLog INFO "⏳ Retrying in 2s..."; EvSleep 2;
               EvLog INFO "   Attempt 4/5..."; EvConnect;
               EvLog ERROR ("❌ Connection failed: " ++ m4);
               EvLog INFO "⏳ Retrying in 2s..."; EvSleep 2;
               EvLog INFO "   Attempt 5/5..."; EvConnect;
               EvLog INFO (connected_msg w)]
     /\ occurrences is_connect evs = 5%nat
     /\ occurrences (logged_at ERROR) evs = 4%nat
     /\ occurrences (logged_at CRITICAL) evs = 0%nat)
  /\
  (connect_script w
   = refuse m1 :: refuse m2 :: refuse m3 :: refuse m4 :: refuse m5 :: rest ->
   exists w' evs,
     get_db_connection w
     = (inl (Exception_ ("Failed to connect after 5 attempts: " ++ m5)), w')
     /\ session w' = session w
     /\ connect_script w' = rest
     /\ history w' = history w ++ evs
     /\ evs = [EvLog INFO "🔌 Attempting to connect to PostgreSQL...";
               EvLog INFO "   Attempt 1/5..."; EvConnect;
               EvLog ERROR ("❌ Connection failed: " ++ m1);
               EvLog INFO "⏳ Retrying in 2s..."; EvSleep 2;
               EvLog INFO "   Attempt 2/5..."; EvConnect;
               EvLog ERROR ("❌ Connection failed: " ++ m2);
               EvLog INFO "⏳ Retrying in 2s..."; EvSleep 2;
               EvLog INFO "   Attempt 3/5..."; EvConnect;
               EvLog ERROR ("❌ Connection failed: " ++ m3);
               EvLog INFO "⏳ Retrying in 2s..."; EvSleep 2;
               EvLog INFO "   Attempt 4/5..."; EvConnect;
               EvLog ERROR ("❌ Connection failed: " ++ m4);
               EvLog INFO "⏳ Retrying in 2s..."; EvSleep 2;
               EvLog INFO "   Attempt 5/5..."; EvConnect;
               EvLog ERROR ("❌ Connection failed: " ++ m5);
               EvLog CRITICAL "💥 Failed to connect after 5 attempts"]
     /\ occurrences is_connect evs = 5%nat
     /\ occurrences is_sleep evs = 4%nat
     /\ occurrences (logged_at CRITICAL) evs = 1%nat).
Proof.
  intros Hq. split; intros Hcs.
  - unfold get_db_connection.
    erewrite bind_inr by apply logger_info_eq.
    destruct (attempts_refused [m1; m2; m3; m4] 0 1 (None :: rest)
                (set_trace (EvLog INFO "🔌 Attempting to connect to PostgreSQL..."
                            :: trace w) w))
      as (w1 & E1 & Hcs1 & Ht1 & Hf1 & Hs1 & He1 & Hv1);
      [exact Hcs | exact (quiet_calm _ w Hq) | cbn; lia |].
    destruct (attempt_accepted 4 rest [] w1 Hcs1)
      as (w2 & E2 & Hcs2 & Hs2 & Ht2 & Hf2 & Hv2).
    cbn [length Nat.add seq max_retries] in E1 |- *. rewrite E1, E2.
    exists w2. eexists. split; [reflexivity|].
    split; [assumption|]. split; [assumption|].
    split; [|split; [reflexivity|repeat split]].
    apply history_app. rewrite Ht2, Ht1.
    rewrite (connected_msg_environ w w1) by (rewrite He1; reflexivity).
    reflexivity.
  - unfold get_db_connection.
    erewrite bind_inr by apply logger_info_eq.
    destruct (attempts_refused [m1; m2; m3; m4] 0 1 (refuse m5 :: rest)
                (set_trace (EvLog INFO "🔌 Attempting to connect to PostgreSQL..."
                            :: trace w) w))
      as (w1 & E1 & Hcs1 & Ht1 & Hf1 & Hs1 & He1 & Hv1);
      [exact Hcs | exact (quiet_calm _ w Hq) | cbn; lia |].
    destruct (last_attempt_refused m5 rest [] w1 Hcs1)
      as (w2 & E2 & Hcs2 & Hs2 & Ht2 & Hf2 & Hv2).
    cbn [length Nat.add seq max_retries Nat.sub] in E1, E2 |- *. rewrite E1, E2.
    exists w2. eexists. split; [reflexivity|].
    split; [rewrite Hs2, Hs1; reflexivity|]. split; [assumption|].
    split; [|split; [reflexivity|repeat split]].
    apply history_app. rewrite Ht2, Ht1. reflexivity.
Qed.

Lemma get_db_connection_retry_bound_witness :
  (exists w',
     get_db_connection
       (demo_world [refuse "a"; refuse "b"; refuse "c"; refuse "d"; None] [])
     = (inr PyConn, w'))
  /\ (exists w',
        get_db_connection
          (demo_world [refuse "a"; refuse "b"; refuse "c"; refuse "d"; refuse "e"] [])
        = (inl (Exception_ "Failed to connect after 5 attempts: e"), w')).
Proof.
  split.
  - destruct (proj1 (get_db_connection_retry_bound
                       (demo_world [refuse "a"; refuse "b"; refuse "c"; refuse "d"; None] [])
                       "a" "b" "c" "d" "e" [] (Forall_nil _)) eq_refl)
      as (w' & evs & H & _).
    exists w'. exact H.
  - destruct (proj2 (get_db_connection_retry_bound
                       (demo_world [refuse "a"; refuse "b"; refuse "c"; refuse "d";
                                    refuse "e"] [])
                       "a" "b" "c" "d" "e" [] (Forall_nil _)) eq_refl)
      as (w' & evs & H & _).
    exists w'. exact H.
Defined.

Lemma occurrences_app (f : event -> bool) (l l' : list event) :
  occurrences f (l ++ l') = (occurrences f l + occurrences f l')%nat.
Proof. unfold occurrences. rewrite filter_app, length_app. reflexivity. Qed.

Lemma occurrences_refusals (ms : list string) :
  forall attempt,
    occurrences is_connect (refusals_events attempt ms) = length ms
    /\ occurrences is_sleep (refusals_events attempt ms) = length ms
    /\ occurrences (logged_at CRITICAL) (refusals_events attempt ms) = 0%nat.
Proof.
  induction ms as [|m ms IH]; intros attempt; [repeat split|].
  destruct (IH (S attempt)) as (Hc & Hs & Hk).
  cbn [refusals_events]. rewrite !occurrences_app, Hc, Hs, Hk. repeat split.
Qed.

(** C10.  Only [psycopg2.OperationalError] is retried.  When, after fewer
    than five refusals, a connection attempt raises any other exception
    [e], [get_db_connection] raises [e] itself at once: the raising attempt
    is the last event, there is no sleep and no log line after it, no
    CRITICAL line at all, and the rest of the connect script is left
    untouched. *)
Theorem get_db_connection_other_exception (w : world) (ms : list string) (e : exn)
    (rest : list (option exn)) :
  quiet w ->
  (length ms < max_retries)%nat ->
  is_OperationalError e = false ->
  connect_script w = map refuse ms ++ Some e :: rest ->
  exists w' evs,
    get_db_connection w = (inl e, w')
    /\ connect_script w' = rest
    /\ session w' = session w
    /\ history w' = history w ++ evs
    /\ evs = [EvLog INFO "🔌 Attempting to connect to PostgreSQL..."]
             ++ refusals_events 0 ms
             ++ [EvLog INFO (attempt_msg (length ms)); EvConnect]
    /\ occurrences is_connect evs = S (length ms)
    /\ occurrences is_sleep evs = length ms
    /\ occurrences (logged_at CRITICAL) evs = 0%nat
    /\ fault_script w' = skipn (length ms) (fault_script w).
Proof.
  intros Hq Hlen He Hcs. unfold get_db_connection.
  erewrite bind_inr by apply logger_info_eq.
  replace max_retries with (length ms + (max_retries - length ms))%nat by lia.
  destruct (attempts_refused ms 0 (max_retries - length ms) (Some e :: rest)
              (set_trace (EvLog INFO "🔌 Attempting to connect to PostgreSQL..."
                          :: trace w) w))
    as (w1 & E1 & Hcs1 & Ht1 & Hf1 & Hs1 & He1 & Hv1);
    [exact Hcs | exact (quiet_calm _ w Hq) | unfold max_retries in *; cbn; lia |].
  rewrite E1.
  destruct (max_retries - length ms)%nat as [|k] eqn:Ek; [lia|].
  cbn [seq Nat.add].
  destruct (attempt_raises (length ms) e rest (seq (S (length ms)) k) w1 Hcs1 He)
    as (w2 & E2 & Hcs2 & Hs2 & Ht2 & Hf2 & Hv2).
  rewrite E2. exists w2. eexists.
  split; [reflexivity|]. split; [assumption|].
  split; [rewrite Hs2, Hs1; reflexivity|].
  split; [|split; [reflexivity|]].
  - apply history_app. rewrite Ht2, Ht1. wnorm.
    rewrite !rev_app_distr. cbn [rev app]. rewrite <- !app_assoc. reflexivity.
  - destruct (occurrences_refusals ms 0) as (Hc & Hsl & Hk).
    rewrite !occurrences_app, Hc, Hsl, Hk. cbn [length].
    split; [|split; [|split]].
    + cbn. lia.
    + cbn. lia.
    + reflexivity.
    + rewrite Hf2, Hf1. reflexivity.
Qed.

Lemma get_db_connection_other_exception_witness :
  exists w',
    get_db_connection (demo_world [refuse "down"; Some (ProgrammingError "bad dsn"); None] [])
    = (inl (ProgrammingError "bad dsn"), w')
    /\ connect_script w' = [None].
Proof.
  destruct (get_db_connection_other_exception
              (demo_world [refuse "down"; Some (ProgrammingError "bad dsn"); None] [])
              ["down"] (ProgrammingError "bad dsn") [None]
              (Forall_nil _) ltac:(unfold max_retries; cbn; lia) eq_refl eq_refl)
    as (w' & evs & H & Hcs & _).
  exists w'. split; [exact H | exact Hcs].
Defined.

Lemma connect_accepted_hd (w : world) :
  hd None (connect_script w) = None ->
  psycopg2_connect w =
  (inr PyConn,
   set_session (InSession None)
     (set_connect_script (tl (connect_script w))
        (set_now (S (now w)) (set_trace (EvConnect :: trace w) w)))).
Proof.
  intros H. unfold psycopg2_connect, bind, record, tick. wnorm.
  destruct (connect_script w) as [|[e|] cs]; [reflexivity | discriminate | reflexivity].
Qed.

(** A connection accepted within the five attempts. *)
Lemma get_db_connection_accepted (w : world) (ms : list string) (cs : list (option exn)) :
  calm (length ms) w ->
  connect_script w = map refuse ms ++ cs -> (length ms < max_retries)%nat ->
  hd None cs = None ->
  exists w',
    get_db_connection w = (inr PyConn, w')
    /\ session w' = InSession None
    /\ fault_script w' = skipn (length ms) (fault_script w)
    /\ server w' = server w.
Proof.
  intros Hq Hcs Hlen Hhd. unfold get_db_connection.
  erewrite bind_inr by apply logger_info_eq.
  replace max_retries with (length ms + (max_retries - length ms))%nat by lia.
  destruct (attempts_refused ms 0 (max_retries - length ms) cs
              (set_trace (EvLog INFO "🔌 Attempting to connect to PostgreSQL..."
                          :: trace w) w))
    as (w1 & E1 & Hcs1 & Ht1 & Hf1 & Hs1 & He1 & Hv1);
    [exact Hcs | exact Hq | unfold max_retries in *; cbn; lia |].
  rewrite E1.
  destruct (max_retries - length ms)%nat as [|k] eqn:Ek; [lia|].
  cbn [seq Nat.add connection_attempts]. unfold try_except.
  erewrite bind_inr by apply logger_info_eq.
  erewrite bind_inr by (apply connect_accepted_hd; wnorm; rewrite Hcs1; exact Hhd).
  unfold reading. erewrite bind_inr by apply logger_info_eq. unfold ret.
  eexists. split; [reflexivity|]. wnorm.
  split; [reflexivity|]. split; [exact Hf1 | exact Hv1].
Qed.

(** ** The store *)

(** Looking up and replacing tables in a catalog. *)
Lemma find_table_name (n : string) (s : store) (t : table) :
  find_table n s = Some t -> tbl_name t = n.
Proof.
  induction s as [|t' s IH]; cbn [find_table]; [discriminate|].
  destruct (String.eqb_spec (tbl_name t') n) as [E|E]; [|exact IH].
  intros [= <-]. exact E.
Qed.

Lemma find_table_app (n : string) (s s' : store) :
  find_table n (s ++ s') =
  match find_table n s with
  | Some t => Some t
  | None => find_table n s'
  end.
Proof.
  induction s as [|t s IH]; cbn [find_table app]; [reflexivity|].
  destruct (String.eqb (tbl_name t) n); [reflexivity | exact IH].
Qed.

Lemma find_table_put (n : string) (t' : table) (s : store) :
  find_table n (put_table t' s) =
  if String.eqb (tbl_name t') n
  then match find_table n s with Some _ => Some t' | None => None end
  else find_table n s.
Proof.
  induction s as [|t s IH]; cbn [find_table put_table].
  - destruct (String.eqb (tbl_name t') n); reflexivity.
  - destruct (String.eqb_spec (tbl_name t) (tbl_name t')) as [E|E]; cbn [find_table].
    + rewrite E. destruct (String.eqb (tbl_name t') n); reflexivity.
    + destruct (String.eqb_spec (tbl_name t) n) as [E'|E'].
      * destruct (String.eqb_spec (tbl_name t') n) as [E''|E'']; [congruence|reflexivity].
      * exact IH.
Qed.

Lemma put_table_same (t : table) (s : store) :
  find_table (tbl_name t) s = Some t -> put_table t s = s.
Proof.
  induction s as [|t' s IH]; cbn [find_table put_table]; [reflexivity|].
  destruct (String.eqb (tbl_name t') (tbl_name t)).
  - intros [= ->]. reflexivity.
  - intros H. rewrite IH by exact H. reflexivity.
Qed.

Lemma table_names_put (t' : table) (s : store) :
  table_names (put_table t' s) = table_names s.
Proof.
  unfold table_names. induction s as [|t s IH]; cbn [put_table map]; [reflexivity|].
  destruct (String.eqb_spec (tbl_name t) (tbl_name t')) as [E|E]; cbn [map].
  - rewrite E. reflexivity.
  - rewrite IH. reflexivity.
Qed.

Lemma find_table_None (n : string) (s : store) :
  find_table n s = None -> ~ In n (table_names s).
Proof.
  unfold table_names. induction s as [|t s IH]; cbn [find_table map In]; [tauto|].
  destruct (String.eqb_spec (tbl_name t) n) as [E|E]; [discriminate|].
  intros H [H'|H']; [congruence | exact (IH H H')].
Qed.

Lemma set_replica_full_name (t : table) : tbl_name (set_replica_full t) = tbl_name t.
Proof. reflexivity. Qed.

Lemma set_replica_full_full (t : table) :
  tbl_replica_full t = true -> set_replica_full t = t.
Proof. destruct t; cbn. intros ->. reflexivity. Qed.

Lemma NoDup_snoc {A} (l : list A) (x : A) : NoDup l -> ~ In x l -> NoDup (l ++ [x]).
Proof.
  induction l as [|y l IH]; cbn [app]; intros Hn Hx.
  - constructor; [intros [] | constructor].
  - inversion Hn as [|y' l' Hy Hl]; subst. constructor.
    + rewrite in_app_iff. cbn [In]. intros [H|[H|[]]]; [tauto|].
      apply Hx. left. symmetry. exact H.
    + apply IH; [exact Hl|]. intros H. apply Hx. right. exact H.
Qed.

Lemma create_if_absent_names (n : string) (cols : list column) (s : store) :
  NoDup (table_names s) -> NoDup (table_names (create_if_absent n cols s)).
Proof.
  intros H. unfold create_if_absent. destruct (find_table n s) eqn:E; [exact H|].
  unfold table_names. rewrite map_app. cbn [map new_table tbl_name].
  apply NoDup_snoc; [exact H | apply find_table_None, E].
Qed.

Lemma alter_replica_full_names (n : string) (s : store) :
  table_names (alter_replica_full n s) = table_names s.
Proof.
  unfold alter_replica_full. destruct (find_table n s); [apply table_names_put | reflexivity].
Qed.

Lemma find_create_if_absent (n n' : string) (cols : list column) (s : store) :
  find_table n (create_if_absent n' cols s) =
  match find_table n s with
  | Some t => Some t
  | None => if String.eqb n' n then Some (new_table n' cols) else None
  end.
Proof.
  unfold create_if_absent. destruct (find_table n' s) eqn:E.
  - destruct (find_table n s) eqn:E'; [reflexivity|].
    destruct (String.eqb_spec n' n) as [->|]; congruence.
  - rewrite find_table_app. cbn [find_table new_table tbl_name]. reflexivity.
Qed.

Lemma find_alter_replica_full (n n' : string) (s : store) :
  find_table n (alter_replica_full n' s) =
  if String.eqb n' n then option_map set_replica_full (find_table n s)
  else find_table n s.
Proof.
  unfold alter_replica_full. destruct (find_table n' s) as [t|] eqn:E.
  - rewrite find_table_put, set_replica_full_name, (find_table_name _ _ _ E).
    destruct (String.eqb_spec n' n) as [->|]; [|reflexivity].
    rewrite E. reflexivity.
  - destruct (String.eqb_spec n' n) as [->|]; [|reflexivity].
    rewrite E. reflexivity.
Qed.

Lemma alter_replica_full_done (n : string) (s : store) (t : table) :
  find_table n s = Some t -> tbl_replica_full t = true -> alter_replica_full n s = s.
Proof.
  intros E Hf. unfold alter_replica_full. rewrite E, (set_replica_full_full t Hf).
  apply put_table_same. rewrite (find_table_name _ _ _ E). exact E.
Qed.

Lemma create_if_absent_done (n : string) (cols : list column) (s : store) (t : table) :
  find_table n s = Some t -> create_if_absent n cols s = s.
Proof. intros E. unfold create_if_absent. rewrite E. reflexivity. Qed.

(** What [provisioned] guarantees about the two tables. *)
Lemma provisioned_tables (s : store) :
  exists tp ts,
    find_table "products" (provisioned s) = Some tp /\ tbl_replica_full tp = true
    /\ find_table "sales" (provisioned s) = Some ts /\ tbl_replica_full ts = true.
Proof.
  unfold provisioned.
  rewrite !find_alter_replica_full, !find_create_if_absent. cbn [String.eqb Ascii.eqb Bool.eqb].
  destruct (find_table "products" s) as [tp|], (find_table "sales" s) as [ts|];
    cbn [option_map]; eexists; eexists; repeat split; reflexivity.
Qed.

(** Provisioning a provisioned catalog changes nothing. *)
Lemma provisioned_idempotent (s : store) : provisioned (provisioned s) = provisioned s.
Proof.
  destruct (provisioned_tables s) as (tp & ts & Hp & Hpf & Hs & Hsf).
  unfold provisioned at 1.
  rewrite (create_if_absent_done _ _ _ _ Hp), (create_if_absent_done _ _ _ _ Hs).
  rewrite (alter_replica_full_done _ _ _ Hp Hpf), (alter_replica_full_done _ _ _ Hs Hsf).
  reflexivity.
Qed.

Lemma provisioned_names (s : store) :
  NoDup (table_names s) -> NoDup (table_names (provisioned s)).
Proof.
  intros H. unfold provisioned. rewrite !alter_replica_full_names.
  apply create_if_absent_names, create_if_absent_names, H.
Qed.

Lemma provisioned_empty : table_names (provisioned empty_store) = ["products"; "sales"].
Proof. reflexivity. Qed.

Lemma find_put_same (n : string) (s : store) (t t' : table) :
  find_table n s = Some t -> tbl_name t' = n -> find_table n (put_table t' s) = Some t'.
Proof. intros Hf Hn. rewrite find_table_put, Hn, String.eqb_refl, Hf. reflexivity. Qed.

Lemma find_put_other (n : string) (s : store) (t' : table) :
  tbl_name t' <> n -> find_table n (put_table t' s) = find_table n s.
Proof.
  intros Hn. rewrite find_table_put. destruct (String.eqb_spec (tbl_name t') n); [tauto|reflexivity].
Qed.

Lemma rows_of_put (n : string) (t t' : table) (s : store) :
  find_table n s = Some t -> tbl_name t' = n -> rows_of n (put_table t' s) = tbl_rows t'.
Proof.
  intros Hf Hn. unfold rows_of. rewrite find_table_put, Hn, String.eqb_refl, Hf. reflexivity.
Qed.

(** ** Statements *)

(** A statement that goes through, on an open session. *)
Lemma cur_execute_eq (s : stmt) (w : world) (txn : option (nat * store)) :
  calm 1 w -> session w = InSession txn ->
  cur_execute s w =
  let w1 := after_external (EvExecute s) w in
  let tv := begin_txn txn (S (now w)) (server w) in
  match run_stmt s (fst tv) (snd tv) w1 with
  | (inr (view', res), w') => (inr res, set_session (InSession (Some (fst tv, view'))) w')
  | (inl e, w') => (inl e, set_session (InSession (Some tv)) w')
  end.
Proof.
  intros Hq Hs. unfold cur_execute.
  erewrite bind_inr by (apply external_calm; exact Hq).
  fold (after_external (EvExecute s) w). unfold after_external at 1. wnorm. rewrite Hs.
  cbv zeta. destruct txn as [[t0 view]|]; reflexivity.
Qed.

Lemma cur_execute_create (n : string) (cols : list column) (w : world)
    (txn : option (nat * store)) :
  calm 1 w -> session w = InSession txn ->
  cur_execute (CreateTableIfNotExists n cols) w =
  (inr None,
   set_session
     (InSession (Some (fst (begin_txn txn (S (now w)) (server w)),
                       create_if_absent n cols (snd (begin_txn txn (S (now w)) (server w))))))
     (after_external (EvExecute (CreateTableIfNotExists n cols)) w)).
Proof.
  intros Hq Hs. rewrite (cur_execute_eq _ _ txn Hq Hs). cbv zeta.
  unfold run_stmt, create_if_absent.
  destruct (find_table n (snd (begin_txn txn (S (now w)) (server w)))); reflexivity.
Qed.

Lemma cur_execute_alter (n : string) (w : world) (txn : option (nat * store)) (t : table) :
  calm 1 w -> session w = InSession txn ->
  find_table n (snd (begin_txn txn (S (now w)) (server w))) = Some t ->
  cur_execute (AlterTableReplicaIdentityFull n) w =
  (inr None,
   set_session
     (InSession (Some (fst (begin_txn txn (S (now w)) (server w)),
                       alter_replica_full n (snd (begin_txn txn (S (now w)) (server w))))))
     (after_external (EvExecute (AlterTableReplicaIdentityFull n)) w)).
Proof.
  intros Hq Hs Hf. rewrite (cur_execute_eq _ _ txn Hq Hs). cbv zeta.
  unfold run_stmt, alter_replica_full. rewrite Hf. reflexivity.
Qed.

Lemma conn_commit_eq (w : world) (t0 : nat) (view : store) :
  calm 1 w -> session w = InSession (Some (t0, view)) ->
  conn_commit w =
  (inr tt, set_session (InSession None) (set_server view (after_external EvCommit w))).
Proof.
  intros Hq Hs. unfold conn_commit.
  erewrite bind_inr by (apply external_calm; exact Hq).
  wnorm. rewrite Hs. reflexivity.
Qed.

Lemma conn_cursor_eq (w : world) (txn : option (nat * store)) :
  session w = InSession txn -> conn_cursor PyConn w = (inr tt, w).
Proof. intros Hs. unfold conn_cursor. rewrite Hs. reflexivity. Qed.

Lemma cur_execute_insert (tname : string) (cols : list string) (tuples : list tuple)
    (w : world) (txn : option (nat * store)) (t0 : nat) (view : store) (t : table) :
  calm 1 w -> session w = InSession txn ->
  begin_txn txn (S (now w)) (server w) = (t0, view) ->
  find_table tname view = Some t ->
  forallb (has_column (tbl_columns t)) ("id" :: cols) = true ->
  forallb (fun vals => Nat.eqb (length vals) (length cols)) tuples = true ->
  cur_execute (InsertValuesReturningId tname cols tuples) w =
  (inr (Some (map (fun r => [field "id" r])
                  (new_rows (tbl_columns t) cols tuples (tbl_serial t) t0))),
   set_session (InSession (Some (t0, put_table (insert_rows t cols tuples t0) view)))
     (after_external (EvExecute (InsertValuesReturningId tname cols tuples)) w)).
Proof.
  intros Hq Hs Hb Hf Hc Hl. rewrite (cur_execute_eq _ _ txn Hq Hs). cbv zeta.
  rewrite Hb. cbn [fst snd]. unfold run_stmt. rewrite Hf, Hc, Hl. reflexivity.
Qed.

Lemma pick_random_spec {A} (k : nat) :
  forall (l : list A) (w : world),
    exists xs j, pick_random k l w = (inr xs, set_drawn j w)
                 /\ (length xs <= k)%nat /\ incl xs l.
Proof.
  induction k as [|k IH]; intros l w.
  - exists [], (drawn w). cbn [pick_random]. unfold ret. destruct w.
    repeat split; [cbn; lia | intros x []].
  - destruct l as [|x l].
    + exists [], (drawn w). cbn [pick_random]. unfold ret. destruct w.
      repeat split; [cbn; lia | intros y []].
    + cbn [pick_random]. unfold bind at 1, randbelow at 1, bind at 1, draw, ret at 1.
      set (i := N.to_nat (entropy w (drawn w) mod N.of_nat (length (x :: l)))).
      destruct (IH (firstn i (x :: l) ++ skipn (S i) (x :: l)) (set_drawn (S (drawn w)) w))
        as (xs & j & E & Hlen & Hincl).
      exists (nth i (x :: l) x :: xs), j.
      erewrite bind_inr by exact E. unfold ret.
      repeat split; [cbn [length]; lia|].
      intros y [<-|Hy].
      * apply nth_In. apply below_length. discriminate.
      * apply Hincl in Hy. apply in_app_or in Hy. destruct Hy as [Hy|Hy].
        -- rewrite <- (firstn_skipn i (x :: l)). apply in_or_app. left. exact Hy.
        -- rewrite <- (firstn_skipn (S i) (x :: l)). apply in_or_app. right. exact Hy.
Qed.

Lemma cur_execute_select (limit : nat) (w : world) (txn : option (nat * store))
    (t0 : nat) (view : store) (tp : table) :
  calm 1 w -> session w = InSession txn ->
  begin_txn txn (S (now w)) (server w) = (t0, view) ->
  find_table "products" view = Some tp ->
  exists rs k,
    cur_execute (SelectIdOrderByRandomLimit "products" limit) w
    = (inr (Some (map (fun r => [field "id" r]) rs)),
       set_session (InSession (Some (t0, view)))
         (set_drawn k
            (after_external (EvExecute (SelectIdOrderByRandomLimit "products" limit)) w)))
    /\ (length rs <= limit)%nat /\ incl rs (tbl_rows tp).
Proof.
  intros Hq Hs Hb Hf. rewrite (cur_execute_eq _ _ txn Hq Hs). cbv zeta.
  rewrite Hb. cbn [fst snd]. unfold run_stmt. rewrite Hf.
  destruct (pick_random_spec limit (tbl_rows tp)
              (after_external (EvExecute (SelectIdOrderByRandomLimit "products" limit)) w))
    as (rs & k & E & Hlen & Hincl).
  exists rs, k. erewrite bind_inr by exact E. unfold ret.
  repeat split; assumption.
Qed.

Lemma cur_execute_select_inv (tname : string) (limit : nat) (w w' : world)
    (res : option (list tuple)) :
  cur_execute (SelectIdOrderByRandomLimit tname limit) w = (inr res, w') ->
  exists rows, res = Some rows /\ (length rows <= limit)%nat.
Proof.
  unfold cur_execute. intros H. apply bind_inr_inv in H. destruct H as ([] & w1 & _ & H).
  destruct (session w1) as [|txn|]; try discriminate.
  destruct txn as [[t0 view]|].
  - unfold run_stmt in H. destruct (find_table tname view) as [t|]; [|discriminate].
    destruct (pick_random_spec limit (tbl_rows t) w1) as (rs & k & E & Hlen & _).
    erewrite bind_inr in H by exact E. unfold ret in H. injection H as <- _.
    eexists. split; [reflexivity|]. rewrite length_map. exact Hlen.
  - unfold run_stmt in H. destruct (find_table tname (server w1)) as [t|]; [|discriminate].
    destruct (pick_random_spec limit (tbl_rows t) w1) as (rs & k & E & Hlen & _).
    erewrite bind_inr in H by exact E. unfold ret in H. injection H as <- _.
    eexists. split; [reflexivity|]. rewrite length_map. exact Hlen.
Qed.

(** A statement or a commit that the due fault hits. *)
Lemma cur_execute_struck (s : stmt) (e : exn) (w : world) :
  struck 0 e w -> cur_execute s w = (inl e, after_external (EvExecute s) w).
Proof.
  intros H. unfold cur_execute. erewrite bind_inl by (apply external_struck; exact H).
  reflexivity.
Qed.

Lemma conn_commit_struck (e : exn) (w : world) :
  struck 0 e w -> conn_commit w = (inl e, after_external EvCommit w).
Proof.
  intros H. unfold conn_commit. erewrite bind_inl by (apply external_struck; exact H).
  reflexivity.
Qed.

(** ** Schema provisioning *)

Lemma created_products (s : store) :
  exists t,
    find_table "products"
      (create_if_absent "sales" sales_columns
         (create_if_absent "products" products_columns s)) = Some t.
Proof.
  rewrite !find_create_if_absent. cbn [String.eqb Ascii.eqb Bool.eqb].
  destruct (find_table "products" s); eexists; reflexivity.
Qed.

Lemma created_sales (s : store) :
  exists t,
    find_table "sales"
      (alter_replica_full "products"
         (create_if_absent "sales" sales_columns
            (create_if_absent "products" products_columns s))) = Some t.
Proof.
  rewrite find_alter_replica_full, !find_create_if_absent.
  cbn [String.eqb Ascii.eqb Bool.eqb].
  destruct (find_table "sales" s); eexists; reflexivity.
Qed.

(** [create_tables] on an idle session, when its five calls go through. *)
Lemma create_tables_spec (w : world) :
  calm 5 w -> session w = InSession None ->
  exists w',
    create_tables PyConn w = (inr tt, w')
    /\ server w' = provisioned (server w)
    /\ session w' = InSession None
    /\ fault_script w' = skipn 5 (fault_script w)
    /\ trace w' = rev create_tables_events ++ trace w
    /\ now w' = (5 + now w)%nat
    /\ environ w' = environ w /\ faker w' = faker w /\ entropy w' = entropy w
    /\ drawn w' = drawn w /\ connect_script w' = connect_script w.
Proof.
  intros Hq Hs. unfold create_tables.
  destruct (created_products (server w)) as [tp Hp].
  destruct (created_sales (server w)) as [ts Hts].
  step (apply logger_info_eq).
  step (eapply conn_cursor_eq; exact Hs).
  step (apply cur_execute_create; [calm_tac | exact Hs]).
  step (apply logger_info_eq).
  step (apply cur_execute_create; [calm_tac | reflexivity]).
  step (apply logger_info_eq).
  step (eapply cur_execute_alter; [calm_tac | reflexivity | exact Hp]).
  step (apply logger_info_eq).
  step (eapply cur_execute_alter; [calm_tac | reflexivity | exact Hts]).
  step (apply logger_info_eq).
  step (eapply conn_commit_eq; [calm_tac | reflexivity]).
  rewrite logger_info_eq. wnorm.
  eexists. split; [reflexivity|]. wnorm.
  repeat split; try reflexivity.
  script_tac.
Qed.

(** C7.  Running [create_tables] twice in a row on a session whose store
    has no two tables of the same name: both runs succeed, the second one
    leaves the catalog exactly as the first one left it, no table name
    occurs twice, both tables are there with replica identity FULL, and a
    store that was empty holds the two tables and nothing else. *)
Theorem create_tables_idempotent (w : world) :
  quiet w -> session w = InSession None -> NoDup (table_names (server w)) ->
  exists w1 w2,
    create_tables PyConn w = (inr tt, w1)
    /\ create_tables PyConn w1 = (inr tt, w2)
    /\ server w2 = server w1
    /\ NoDup (table_names (server w2))
    /\ (exists tp ts,
          find_table "products" (server w2) = Some tp /\ tbl_replica_full tp = true
          /\ find_table "sales" (server w2) = Some ts /\ tbl_replica_full ts = true)
    /\ (server w = empty_store -> table_names (server w2) = ["products"; "sales"]).
Proof.
  intros Hq Hs Hn.
  destruct (create_tables_spec w (quiet_calm _ w Hq) Hs) as (w1 & E1 & Hv1 & Hs1 & Hf1 & _).
  destruct (create_tables_spec w1 (quiet_calm _ w1 (quiet_skipn _ w w1 Hf1 Hq)) Hs1)
    as (w2 & E2 & Hv2 & _).
  exists w1, w2. split; [exact E1|]. split; [exact E2|].
  assert (Hsame : server w2 = server w1).
  { rewrite Hv2, Hv1. apply provisioned_idempotent. }
  split; [exact Hsame|]. rewrite Hsame, Hv1.
  split; [apply provisioned_names, Hn|].
  split; [apply provisioned_tables|].
  intros ->. apply provisioned_empty.
Qed.

Lemma create_tables_idempotent_witness :
  exists w1 w2,
    create_tables PyConn (set_session (InSession None) (demo_world [] [])) = (inr tt, w1)
    /\ create_tables PyConn w1 = (inr tt, w2)
    /\ table_names (server w2) = ["products"; "sales"].
Proof.
  destruct (create_tables_idempotent (set_session (InSession None) (demo_world [] []))
              (Forall_nil _) eq_refl (NoDup_nil _))
    as (w1 & w2 & H1 & H2 & _ & _ & _ & Hn).
  exists w1, w2. split; [exact H1|]. split; [exact H2 | exact (Hn eq_refl)].
Defined.

(** ** The batch writers *)

(** A batch of 1 to 100 rows is one page, hence one statement. *)
Lemma paginate_from_single {A} (page_size : nat) (l : list A) :
  forall (cur : list A) (room : nat),
    (length l <= room)%nat -> (l <> [] \/ cur <> []) ->
    paginate_from page_size cur room l = [rev cur ++ l].
Proof.
  induction l as [|x l IH]; intros cur room Hlen Hne.
  - cbn [paginate_from]. destruct cur; [destruct Hne; congruence|].
    rewrite app_nil_r. reflexivity.
  - cbn [paginate_from length] in *. destruct room as [|[|room]]; [lia| |].
    + destruct l; [|cbn [length] in Hlen; lia]. cbn [paginate_from rev].
      reflexivity.
    + rewrite IH; [|lia|right; discriminate]. cbn [rev]. rewrite <- app_assoc. reflexivity.
Qed.

Lemma paginate_single {A} (l : list A) :
  (1 <= length l <= 100)%nat -> paginate l 100 = [l].
Proof.
  intros H. unfold paginate. rewrite paginate_from_single; [reflexivity | lia |].
  left. destruct l; [cbn in H; lia | discriminate].
Qed.

Lemma execute_values_single (mk : list tuple -> stmt) (args : list tuple) (w : world) :
  (1 <= length args <= 100)%nat ->
  execute_values mk args w = cur_execute (mk args) w.
Proof.
  intros H. unfold execute_values. rewrite paginate_single by exact H.
  cbn [execute_pages]. unfold bind, ret. destruct (cur_execute (mk args) w) as [[e|r] w']; reflexivity.
Qed.

Lemma next_ids_length (n : nat) : forall last, length (next_ids last n) = n.
Proof. induction n as [|n IH]; intros last; cbn [next_ids length]; [|rewrite IH]; reflexivity. Qed.

Lemma param_not_in (c : string) (cols : list string) :
  ~ In c cols -> forall vals, param c cols vals = None.
Proof.
  induction cols as [|c' cols IH]; intros Hn vals; [destruct vals; reflexivity|].
  destruct vals as [|v vals]; [reflexivity|]. cbn [param].
  destruct (String.eqb_spec c' c) as [E|E]; [exfalso; apply Hn; left; exact E|].
  apply IH. intros H. apply Hn. right. exact H.
Qed.

(** [replicateM] of a generator that only draws. *)
Lemma replicateM_draws {A} (gen : M A) (P : A -> Prop) :
  (forall w, exists a k, gen w = (inr a, set_drawn k w) /\ P a) ->
  forall count w,
    exists l k, replicateM count gen w = (inr l, set_drawn k w)
                /\ length l = count /\ Forall P l.
Proof.
  intros Hgen. induction count as [|n IH]; intros w.
  - exists [], (drawn w). cbn [replicateM]. unfold ret. destruct w; repeat split; constructor.
  - destruct (Hgen w) as (a & k & E & Ha).
    destruct (IH (set_drawn k w)) as (l & k' & E' & Hl & HP).
    exists (a :: l), k'. cbn [replicateM].
    erewrite bind_inr by exact E. erewrite bind_inr by exact E'.
    repeat split; [cbn [length]; congruence | constructor; assumption].
Qed.

(** The rows of an INSERT take the next values of the sequence, in order. *)
Lemma new_rows_ids (columns : list column) (cols : list string) (t0 : nat) :
  (forall vals id, field "id" (new_row columns cols vals id t0) = VInt id) ->
  forall tuples last,
    map row0 (map (fun r => [field "id" r]) (new_rows columns cols tuples last t0))
    = next_ids last (length tuples).
Proof.
  intros H. induction tuples as [|vals tuples IH]; intros last; [reflexivity|].
  cbn [new_rows map length next_ids]. rewrite H, IH. reflexivity.
Qed.

Lemma new_rows_length (columns : list column) (cols : list string) (t0 : nat)
    (tuples : list tuple) :
  forall last, length (new_rows columns cols tuples last t0) = length tuples.
Proof.
  induction tuples as [|vals tuples IH]; intros last; cbn [new_rows length];
    [|rewrite IH]; reflexivity.
Qed.

Lemma products_new_row_id (vals : tuple) (id : Z) (t0 : nat) :
  field "id" (new_row products_columns products_params vals id t0) = VInt id.
Proof.
  unfold new_row, products_columns.
  cbn [map mk_column col_name col_type col_default_now field String.eqb Ascii.eqb Bool.eqb].
  rewrite param_not_in; [reflexivity|].
  cbn [In products_params]. intuition discriminate.
Qed.

Lemma products_new_row_created_at (vals : tuple) (id : Z) (t0 : nat) :
  field "created_at" (new_row products_columns products_params vals id t0) = VTime t0.
Proof.
  unfold new_row, products_columns.
  cbn [map mk_column col_name col_type col_default_now field String.eqb Ascii.eqb Bool.eqb].
  rewrite param_not_in; [reflexivity|].
  cbn [In products_params]. intuition discriminate.
Qed.

Lemma sales_new_row_id (vals : tuple) (id : Z) (t0 : nat) :
  field "id" (new_row sales_columns sales_params vals id t0) = VInt id.
Proof.
  unfold new_row, sales_columns.
  cbn [map mk_column col_name col_type col_default_now field String.eqb Ascii.eqb Bool.eqb].
  rewrite param_not_in; [reflexivity|].
  cbn [In sales_params]. intuition discriminate.
Qed.

Lemma sales_new_row_sale_date (vals : tuple) (id : Z) (t0 : nat) :
  field "sale_date" (new_row sales_columns sales_params vals id t0) = VTime t0.
Proof.
  unfold new_row, sales_columns.
  cbn [map mk_column col_name col_type col_default_now field String.eqb Ascii.eqb Bool.eqb].
  rewrite param_not_in; [reflexivity|].
  cbn [In sales_params]. intuition discriminate.
Qed.

Lemma sales_new_row_product_id (s : sale) (id : Z) (t0 : nat) :
  field "product_id" (new_row sales_columns sales_params (sale_tuple s) id t0)
  = value_of_id (product_id s).
Proof. reflexivity. Qed.

Lemma forallb_map_true {A B} (f : B -> bool) (g : A -> B) (l : list A) :
  (forall a, f (g a) = true) -> forallb f (map g l) = true.
Proof.
  intros H. induction l as [|a l IH]; [reflexivity|].
  cbn [map forallb]. rewrite H, IH. reflexivity.
Qed.

Lemma generate_product_draws (w : world) :
  exists p k, generate_product w = (inr p, set_drawn k w) /\ True.
Proof. rewrite generate_product_eq. eexists. eexists. split; [reflexivity | exact I]. Qed.

Lemma generate_sale_draws (ids : list Z) (w : world) :
  exists s k, generate_sale ids w = (inr s, set_drawn k w) /\ refers_to ids s.
Proof.
  rewrite generate_sale_eq. cbv zeta. destruct ids as [|i ids].
  - eexists. eexists. split; [reflexivity | reflexivity].
  - eexists. eexists. split; [reflexivity|]. unfold refers_to. cbn [product_id].
    apply (@nth_In Z (N.to_nat (entropy w (2 + drawn w) mod N.of_nat (length (i :: ids))))
             (i :: ids) i).
    apply below_length. discriminate.
Qed.

(** [insert_products] on a session that has changed nothing since its last
    commit, when the statement and the commit go through. *)
Lemma insert_products_spec (count : nat) (w : world) (txn : option (nat * store))
    (t0 : nat) (tp : table) :
  (1 <= count <= 100)%nat ->
  calm 2 w -> session w = InSession txn ->
  begin_txn txn (S (now w)) (server w) = (t0, server w) ->
  find_table "products" (server w) = Some tp -> tbl_columns tp = products_columns ->
  exists ps k w',
    replicateM count generate_product w = (inr ps, set_drawn k w)
    /\ length ps = count
    /\ insert_products PyConn count w = (inr (next_ids (tbl_serial tp) count), w')
    /\ server w' = put_table (insert_rows tp products_params (map product_tuple ps) t0)
                     (server w)
    /\ session w' = InSession None
    /\ fault_script w' = skipn 2 (fault_script w)
    /\ now w' = (2 + now w)%nat
    /\ trace w' = EvCommit :: EvExecute (insert_products_sql (map product_tuple ps))
                  :: trace w
    /\ environ w' = environ w /\ faker w' = faker w /\ entropy w' = entropy w
    /\ connect_script w' = connect_script w.
Proof.
  intros Hc Hq Hs Hb Hf Hcols.
  destruct (replicateM_draws generate_product (fun _ => True) generate_product_draws count w)
    as (ps & k & Egen & Hlen & _).
  exists ps, k. eexists. split; [exact Egen|]. split; [exact Hlen|].
  unfold insert_products.
  step (exact Egen).
  step (eapply conn_cursor_eq; exact Hs).
  step (rewrite execute_values_single by (rewrite length_map; lia);
        eapply (cur_execute_insert "products" products_params (map product_tuple ps)
                  _ txn t0 (server w) tp);
        [calm_tac | exact Hs | exact Hb | exact Hf | rewrite Hcols; reflexivity
        | apply forallb_map_true; reflexivity]).
  cbn [cur_fetchall].
  step (reflexivity).
  step (eapply conn_commit_eq; [calm_tac | reflexivity]).
  step (apply logger_debug_eq).
  unfold ret.
  rewrite Hcols, (new_rows_ids _ _ _ (fun vals id => products_new_row_id vals id t0)).
  rewrite length_map, Hlen.
  split; [reflexivity|]. wnorm.
  repeat split; try reflexivity.
  script_tac.
Qed.

(** [insert_sales], likewise. *)
Lemma insert_sales_spec (ids : list Z) (count : nat) (w : world)
    (txn : option (nat * store)) (t0 : nat) (ts : table) :
  (1 <= count <= 100)%nat ->
  calm 2 w -> session w = InSession txn ->
  begin_txn txn (S (now w)) (server w) = (t0, server w) ->
  find_table "sales" (server w) = Some ts -> tbl_columns ts = sales_columns ->
  exists ss k w',
    replicateM count (generate_sale ids) w = (inr ss, set_drawn k w)
    /\ length ss = count /\ Forall (refers_to ids) ss
    /\ insert_sales PyConn ids count w = (inr None, w')
    /\ server w' = put_table (insert_rows ts sales_params (map sale_tuple ss) t0) (server w)
    /\ session w' = InSession None
    /\ fault_script w' = skipn 2 (fault_script w)
    /\ now w' = (2 + now w)%nat
    /\ trace w' = EvCommit :: EvExecute (insert_sales_sql (map sale_tuple ss)) :: trace w
    /\ environ w' = environ w /\ faker w' = faker w /\ entropy w' = entropy w
    /\ connect_script w' = connect_script w.
Proof.
  intros Hc Hq Hs Hb Hf Hcols.
  destruct (replicateM_draws (generate_sale ids) (refers_to ids) (generate_sale_draws ids)
              count w) as (ss & k & Egen & Hlen & Hrefs).
  exists ss, k. eexists. split; [exact Egen|]. split; [exact Hlen|]. split; [exact Hrefs|].
  unfold insert_sales.
  step (exact Egen).
  step (eapply conn_cursor_eq; exact Hs).
  step (rewrite execute_values_single by (rewrite length_map; lia);
        eapply (cur_execute_insert "sales" sales_params (map sale_tuple ss)
                  _ txn t0 (server w) ts);
        [calm_tac | exact Hs | exact Hb | exact Hf | rewrite Hcols; reflexivity
        | apply forallb_map_true; reflexivity]).
  cbn [cur_fetchall].
  step (reflexivity).
  step (eapply conn_commit_eq; [calm_tac | reflexivity]).
  step (apply logger_debug_eq).
  unfold ret.
  split; [reflexivity|]. wnorm.
  repeat split; try reflexivity.
  script_tac.
Qed.

(** [insert_products] and [insert_sales] when the due fault hits the
    statement or the commit: the fault goes up, nothing is committed. *)
Lemma insert_products_struck (count j : nat) (e : exn) (w : world)
    (txn : option (nat * store)) (t0 : nat) (tp : table) :
  (1 <= count <= 100)%nat ->
  struck j e w -> (j < 2)%nat -> session w = InSession txn ->
  begin_txn txn (S (now w)) (server w) = (t0, server w) ->
  find_table "products" (server w) = Some tp -> tbl_columns tp = products_columns ->
  exists w', insert_products PyConn count w = (inl e, w') /\ server w' = server w.
Proof.
  intros Hc Hk Hj Hs Hb Hf Hcols.
  destruct (replicateM_draws generate_product (fun _ => True) generate_product_draws count w)
    as (ps & k & Egen & Hlen & _).
  unfold insert_products.
  step (exact Egen).
  step (eapply conn_cursor_eq; exact Hs).
  destruct j as [|[|j]]; [| |lia].
  - erewrite bind_inl
      by (rewrite execute_values_single by (rewrite length_map; lia);
          apply cur_execute_struck; exact Hk).
    eexists. split; reflexivity.
  - step (rewrite execute_values_single by (rewrite length_map; lia);
          eapply (cur_execute_insert "products" products_params (map product_tuple ps)
                    _ txn t0 (server w) tp);
          [exact (struck_calm 1 1 e w Hk ltac:(lia)) | exact Hs | exact Hb | exact Hf
          | rewrite Hcols; reflexivity | apply forallb_map_true; reflexivity]).
    cbn [cur_fetchall].
    step (reflexivity).
    erewrite bind_inl
      by (apply conn_commit_struck;
          apply (fun Hfs => struck_skipn 1 1 e w _ Hfs ltac:(lia) Hk); script_tac).
    eexists. split; reflexivity.
Qed.

Lemma insert_sales_struck (ids : list Z) (count j : nat) (e : exn) (w : world)
    (txn : option (nat * store)) (t0 : nat) (ts : table) :
  (1 <= count <= 100)%nat ->
  struck j e w -> (j < 2)%nat -> session w = InSession txn ->
  begin_txn txn (S (now w)) (server w) = (t0, server w) ->
  find_table "sales" (server w) = Some ts -> tbl_columns ts = sales_columns ->
  exists w', insert_sales PyConn ids count w = (inl e, w') /\ server w' = server w.
Proof.
  intros Hc Hk Hj Hs Hb Hf Hcols.
  destruct (replicateM_draws (generate_sale ids) (refers_to ids) (generate_sale_draws ids)
              count w) as (ss & k & Egen & Hlen & _).
  unfold insert_sales.
  step (exact Egen).
  step (eapply conn_cursor_eq; exact Hs).
  destruct j as [|[|j]]; [| |lia].
  - erewrite bind_inl
      by (rewrite execute_values_single by (rewrite length_map; lia);
          apply cur_execute_struck; exact Hk).
    eexists. split; reflexivity.
  - step (rewrite execute_values_single by (rewrite length_map; lia);
          eapply (cur_execute_insert "sales" sales_params (map sale_tuple ss)
                    _ txn t0 (server w) ts);
          [exact (struck_calm 1 1 e w Hk ltac:(lia)) | exact Hs | exact Hb | exact Hf
          | rewrite Hcols; reflexivity | apply forallb_map_true; reflexivity]).
    cbn [cur_fetchall].
    step (reflexivity).
    erewrite bind_inl
      by (apply conn_commit_struck;
          apply (fun Hfs => struck_skipn 1 1 e w _ Hfs ltac:(lia) Hk); script_tac).
    eexists. split; reflexivity.
Qed.

Lemma new_rows_id_fields (columns : list column) (cols : list string) (t0 : nat) :
  (forall vals id, field "id" (new_row columns cols vals id t0) = VInt id) ->
  forall tuples last,
    map (field "id") (new_rows columns cols tuples last t0)
    = map VInt (next_ids last (length tuples)).
Proof.
  intros H. induction tuples as [|vals tuples IH]; intros last; [reflexivity|].
  cbn [new_rows map length next_ids]. rewrite H, IH. reflexivity.
Qed.

(** C1, as amended.  On an idle session, when the statement and the commit
    go through, and for a batch of 1 to 100 records: [insert_products]
    returns the identifiers the store assigned to the rows of the batch,
    one per record and in the order of the records, which are the next
    values of the sequence;
    [insert_sales] inserts its batch in the same way, the store assigning
    the next values of the sequence in the order of the records, and
    returns [None]. *)
Theorem batch_insert_ids (count : nat) (w : world) :
  (1 <= count <= 100)%nat -> calm 2 w -> session w = InSession None ->
  (forall tp,
     find_table "products" (server w) = Some tp -> tbl_columns tp = products_columns ->
     exists ps w0 ids w' new,
       replicateM count generate_product w = (inr ps, w0)
       /\ insert_products PyConn count w = (inr ids, w')
       /\ length ids = count
       /\ ids = next_ids (tbl_serial tp) count
       /\ rows_of "products" (server w') = tbl_rows tp ++ new
       /\ new = new_rows products_columns products_params (map product_tuple ps)
                  (tbl_serial tp) (S (now w))
       /\ map (field "id") new = map VInt ids)
  /\ (forall pool ts,
        find_table "sales" (server w) = Some ts -> tbl_columns ts = sales_columns ->
        exists ss w0 w' new,
          replicateM count (generate_sale pool) w = (inr ss, w0)
          /\ insert_sales PyConn pool count w = (inr None, w')
          /\ rows_of "sales" (server w') = tbl_rows ts ++ new
          /\ new = new_rows sales_columns sales_params (map sale_tuple ss)
                     (tbl_serial ts) (S (now w))
          /\ map (field "id") new = map VInt (next_ids (tbl_serial ts) count)).
Proof.
  intros Hc Hq Hs. split.
  - intros tp Hf Hcols.
    destruct (insert_products_spec count w None (S (now w)) tp Hc Hq Hs eq_refl Hf Hcols)
      as (ps & k & w' & Egen & Hlen & E & Hsrv & _).
    exists ps, (set_drawn k w), (next_ids (tbl_serial tp) count), w'. eexists.
    split; [exact Egen|]. split; [exact E|].
    split; [apply next_ids_length|]. split; [reflexivity|].
    rewrite Hsrv, (rows_of_put _ tp) by (assumption || apply (find_table_name _ _ _ Hf)).
    cbn [insert_rows tbl_rows]. rewrite Hcols.
    split; [reflexivity|]. split; [reflexivity|].
    rewrite (new_rows_id_fields _ _ _ (fun vals id => products_new_row_id vals id _)).
    rewrite length_map, Hlen. reflexivity.
  - intros pool ts Hf Hcols.
    destruct (insert_sales_spec pool count w None (S (now w)) ts Hc Hq Hs eq_refl Hf Hcols)
      as (ss & k & w' & Egen & Hlen & _ & E & Hsrv & _).
    exists ss, (set_drawn k w), w'. eexists.
    split; [exact Egen|]. split; [exact E|].
    rewrite Hsrv, (rows_of_put _ ts) by (assumption || apply (find_table_name _ _ _ Hf)).
    cbn [insert_rows tbl_rows]. rewrite Hcols.
    split; [reflexivity|]. split; [reflexivity|].
    rewrite (new_rows_id_fields _ _ _ (fun vals id => sales_new_row_id vals id _)).
    rewrite length_map, Hlen. reflexivity.
Qed.

Lemma batch_insert_ids_witness :
  (exists w', insert_products PyConn 2 provisioned_world = (inr [1; 2]%Z, w'))
  /\ (exists w', insert_sales PyConn [] 2 provisioned_world = (inr None, w')).
Proof.
  destruct (batch_insert_ids 2 provisioned_world ltac:(lia) (Forall_nil _) eq_refl)
    as [Hp Hs].
  split.
  - destruct (Hp _ eq_refl eq_refl) as (ps & w0 & ids & w' & new & _ & E & _ & Hids & _).
    exists w'. rewrite E, Hids. reflexivity.
  - destruct (Hs [] _ eq_refl eq_refl) as (ss & w0 & w' & new & _ & E & _).
    exists w'. exact E.
Defined.

Lemma batch_insert_ids_counterexample :
  ~ (exists ids w',
       insert_sales PyConn [] 1 provisioned_world = (inr (Some ids), w')
       /\ length ids = 1%nat)
  /\ ~ (exists ids w',
          insert_products PyConn 101 provisioned_world = (inr ids, w')
          /\ length ids = 101%nat).
Proof.
  split.
  - intros (ids & w' & H & _). vm_compute in H. discriminate H.
  - intros (ids & w' & H & Hlen). vm_compute in H. injection H as <- _.
    discriminate Hlen.
Qed.

(** ** The generation loop *)

Lemma random_randint_eq (a b : Z) (w : world) :
  random_randint a b w
  = (inr (a + Z.of_N (entropy w (drawn w) mod Z.to_N (b - a + 1)))%Z,
     set_drawn (S (drawn w)) w).
Proof. reflexivity. Qed.

Lemma one_or_two (d : N) :
  let c := Z.to_nat (1 + Z.of_N (d mod Z.to_N (2 - 1 + 1))) in
  (1 <= c <= 2)%nat /\ (1 + Z.of_N (d mod Z.to_N (2 - 1 + 1)))%Z = Z.of_nat c.
Proof.
  cbv zeta. change (Z.to_N (2 - 1 + 1)) with 2%N.
  pose proof (N.mod_upper_bound d 2 ltac:(discriminate)) as H.
  remember (d mod 2)%N as x eqn:E. clear E. lia.
Qed.

Lemma product_row_ok_mono (t0 t1 : nat) (p : row) :
  (t0 <= t1)%nat -> product_row_ok t0 p -> product_row_ok t1 p.
Proof. intros H (i & t & Hi & Ht & Hlt). exists i, t. repeat split; [assumption..|lia]. Qed.

Lemma sale_row_ok_mono (products more : list row) (s : row) :
  sale_row_ok products s -> sale_row_ok (products ++ more) s.
Proof.
  intros H i Hi. destruct (H i Hi) as (p & c & sd & Hp & R). exists p, c, sd.
  split; [apply in_or_app; left; exact Hp | exact R].
Qed.

Lemma pool_ok_mono (products more : list row) (ids : list Z) :
  pool_ok products ids -> pool_ok (products ++ more) ids.
Proof.
  intros H i Hi. destruct (H i Hi) as (p & Hp & R). exists p.
  split; [apply in_or_app; left; exact Hp | exact R].
Qed.

Lemma new_products_ok (tuples : list tuple) (t0 t1 : nat) :
  (t0 < t1)%nat ->
  forall last,
    Forall (product_row_ok t1) (new_rows products_columns products_params tuples last t0).
Proof.
  intros Hlt. induction tuples as [|vals tuples IH]; intros last; cbn [new_rows];
    constructor; [|apply IH].
  exists (last + 1)%Z, t0.
  split; [apply products_new_row_id|]. split; [apply products_new_row_created_at | exact Hlt].
Qed.

Lemma new_products_pool (tuples : list tuple) (t0 : nat) (last : Z) :
  pool_ok (new_rows products_columns products_params tuples last t0)
    (next_ids last (length tuples)).
Proof.
  intros i Hi. apply (in_map VInt) in Hi.
  rewrite <- (new_rows_id_fields products_columns products_params t0
                (fun vals id => products_new_row_id vals id t0)) in Hi.
  apply in_map_iff in Hi. destruct Hi as (p & Hp & Hin). exists p. split; assumption.
Qed.

Lemma pool_ok_app (products : list row) (ids ids' : list Z) :
  pool_ok products ids -> pool_ok products ids' -> pool_ok products (ids ++ ids').
Proof. intros H H' i Hi. apply in_app_or in Hi. destruct Hi; [apply H | apply H']; assumption. Qed.

Lemma pool_ok_more (products more : list row) (ids : list Z) :
  pool_ok more ids -> pool_ok (products ++ more) ids.
Proof.
  intros H i Hi. destruct (H i Hi) as (p & Hp & R). exists p.
  split; [apply in_or_app; right; exact Hp | exact R].
Qed.

(** The four parts of a turn of the loop, each from the state the one
    before leaves. *)
Lemma insert_step_spec (np ns : nat) (l : locals) (w : world) :
  steady np ns l w -> calm 2 w ->
  exists c l' w',
    insert_step PyConn (l, w) = (inr tt, (l', w'))
    /\ (1 <= c <= 2)%nat /\ steady (np + c) ns l' w'
    /\ fault_script w' = skipn 2 (fault_script w)
    /\ iteration l' = iteration l.
Proof.
  intros (Hs & Hb & Ht0 & tp & ts & Hfp & Hcp & Hfs & Hcs & Hnp & Hns & Htp & Hts
          & Hrows & Hpool & Hsales) Hq.
  unfold insert_step.
  step (apply lift_inr, random_randint_eq).
  destruct (one_or_two (entropy w (drawn w))) as [Hc Hpc].
  set (pc := (1 + Z.of_N (entropy w (drawn w) mod Z.to_N (2 - 1 + 1)))%Z) in *.
  set (c := Z.to_nat pc) in *.
  destruct (insert_products_spec c (set_drawn (S (drawn w)) w) None (S (now w)) tp
              ltac:(lia) Hq Hs eq_refl Hfp Hcp)
    as (ps & k & w' & Egen & Hlen & E & Hsrv & Hs' & Hq' & Hnow & _).
  step (apply lift_inr; exact E).
  step (reflexivity).
  exists c. eexists. exists w'. split; [reflexivity|]. split; [exact Hc|].
  split; [|split; [exact Hq' | reflexivity]].
  clearbody c. clearbody pc. wnorm_in Hnow. wnorm_in Hsrv.
  pose proof (find_table_name _ _ _ Hfp) as Hname.
  split; [exact Hs'|]. split; [reflexivity|]. split; [lia|].
  exists (insert_rows tp products_params (map product_tuple ps) (S (now w))), ts.
  rewrite Hsrv. wnorm.
  split; [apply (find_put_same _ _ tp); [exact Hfp | exact Hname]|].
  split; [exact Hcp|].
  split; [rewrite find_put_other; [exact Hfs | cbn [insert_rows tbl_name];
                                               rewrite Hname; discriminate]|].
  split; [exact Hcs|].
  cbn [insert_rows tbl_rows]. rewrite Hcp.
  split; [rewrite length_app, new_rows_length, length_map; lia|].
  split; [exact Hns|].
  cbn [total_products total_sales product_ids set_total_products set_product_ids].
  split; [lia|]. split; [exact Hts|].
  split.
  { apply Forall_app. split.
    - eapply Forall_impl; [|exact Hrows]. intros p. apply product_row_ok_mono. lia.
    - apply new_products_ok. lia. }
  split.
  { apply pool_ok_app; [apply pool_ok_mono; exact Hpool|].
    apply pool_ok_more.
    replace c with (length (map product_tuple ps)) by (rewrite length_map; exact Hlen).
    apply new_products_pool. }
  eapply Forall_impl; [|exact Hsales]. intros s. apply sale_row_ok_mono.
Qed.

Lemma get_random_product_ids_spec (limit : nat) (w : world) (tp : table) :
  calm 1 w -> session w = InSession None ->
  find_table "products" (server w) = Some tp ->
  exists rs w',
    get_random_product_ids PyConn limit w
    = (inr (map row0 (map (fun r => [field "id" r]) rs)), w')
    /\ (length rs <= limit)%nat /\ incl rs (tbl_rows tp)
    /\ session w' = InSession (Some (S (now w), server w))
    /\ server w' = server w /\ fault_script w' = skipn 1 (fault_script w)
    /\ now w' = S (now w)
    /\ trace w' = EvExecute (SelectIdOrderByRandomLimit "products" limit) :: trace w
    /\ environ w' = environ w /\ faker w' = faker w /\ entropy w' = entropy w
    /\ connect_script w' = connect_script w.
Proof.
  intros Hq Hs Hf.
  destruct (cur_execute_select limit w None (S (now w)) (server w) tp Hq Hs eq_refl Hf)
    as (rs & k & E & Hlen & Hincl).
  exists rs. eexists. unfold get_random_product_ids.
  step (eapply conn_cursor_eq; exact Hs).
  step (exact E).
  cbn [cur_fetchall]. step (reflexivity). unfold ret.
  split; [reflexivity|]. wnorm. repeat split; try assumption; try reflexivity.
Qed.

Lemma sampled_pool_ok (t0 : nat) (rows rs : list row) :
  Forall (product_row_ok t0) rows -> incl rs rows ->
  pool_ok rows (map row0 (map (fun r => [field "id" r]) rs)).
Proof.
  intros Hrows Hincl i Hi. rewrite map_map in Hi. apply in_map_iff in Hi.
  destruct Hi as (r & Hr & Hin). apply Hincl in Hin. exists r. split; [exact Hin|].
  rewrite Forall_forall in Hrows. destruct (Hrows r Hin) as (j & t & Hj & _).
  rewrite Hj in Hr |- *. cbn [row0] in Hr. congruence.
Qed.

Lemma refresh_check_spec (np ns : nat) (l : locals) (w : world) :
  steady np ns l w -> calm 1 w ->
  exists txn t0 n l' w',
    refresh_check PyConn (l, w) = (inr tt, (l', w'))
    /\ inv txn t0 np ns l' w'
    /\ (n <= 1)%nat /\ fault_script w' = skipn n (fault_script w)
    /\ (length (product_ids l') <= 100)%nat
    /\ iteration l' = iteration l.
Proof.
  intros (Hs & Hb & Ht0 & tp & ts & Hfp & Hcp & Hfs & Hcs & Hnp & Hns & Htp & Hts
          & Hrows & Hpool & Hsales) Hq.
  unfold refresh_check. step (reflexivity).
  destruct (Nat.ltb 100 (length (product_ids l))) eqn:Hlt.
  - destruct (get_random_product_ids_spec 100 w tp Hq Hs Hfp)
      as (rs & w' & E & Hlen & Hincl & Hs' & Hsrv & Hq' & Hnow & _).
    step (apply lift_inr; exact E).
    exists (Some (S (now w), server w)), (S (now w)), 1%nat. eexists. exists w'.
    split; [reflexivity|].
    split; [|split; [lia|split; [exact Hq'|split;
              [cbn [set_product_ids product_ids]; rewrite !length_map; exact Hlen
              | reflexivity]]]].
    split; [exact Hs'|].
    split; [cbn [begin_txn]; rewrite Hsrv; reflexivity|]. split; [lia|].
    exists tp, ts. rewrite Hsrv.
    repeat (split; [assumption|]).
    split; [|exact Hsales].
    cbn [set_product_ids product_ids]. eapply sampled_pool_ok; eassumption.
  - exists None, (S (now w)), 0%nat, l, w. split; [reflexivity|].
    apply Nat.ltb_ge in Hlt.
    split; [|split; [lia|split; [reflexivity|split; [exact Hlt | reflexivity]]]].
    split; [exact Hs|]. split; [reflexivity|]. split; [lia|].
    exists tp, ts. repeat (split; [assumption|]). exact Hsales.
Qed.

Lemma value_of_id_int (o : option Z) (i : Z) : value_of_id o = VInt i -> o = Some i.
Proof. destruct o; cbn [value_of_id]; [intros [= ->]; reflexivity | discriminate]. Qed.

Lemma new_sales_ok (products : list row) (ids : list Z) (t0 : nat) (ss : list sale) :
  Forall (refers_to ids) ss -> pool_ok products ids ->
  Forall (product_row_ok t0) products ->
  forall last,
    Forall (sale_row_ok products)
      (new_rows sales_columns sales_params (map sale_tuple ss) last t0).
Proof.
  intros Hrefs Hpool Hrows. induction Hrefs as [|s ss Hs _ IH]; intros last;
    cbn [map new_rows]; constructor; [|apply IH].
  intros i Hi. rewrite sales_new_row_product_id in Hi. apply value_of_id_int in Hi.
  unfold refers_to in Hs. rewrite Hi in Hs.
  destruct (Hpool i Hs) as (p & Hp & Hid).
  rewrite Forall_forall in Hrows. destruct (Hrows p Hp) as (j & t & _ & Ht & Hlt).
  exists p, t, t0.
  split; [exact Hp|]. split; [exact Hid|]. split; [exact Ht|].
  split; [apply sales_new_row_sale_date | lia].
Qed.

Lemma sales_step_spec (txn : option (nat * store)) (t0 np ns : nat) (l : locals)
    (w : world) :
  inv txn t0 np ns l w -> calm 2 w ->
  exists c l' w',
    sales_step PyConn (l, w) = (inr tt, (l', w'))
    /\ (1 <= c <= 2)%nat /\ steady np (ns + c) l' w'
    /\ fault_script w' = skipn 2 (fault_script w)
    /\ iteration l' = iteration l /\ product_ids l' = product_ids l.
Proof.
  intros (Hs & Hb & Ht0 & tp & ts & Hfp & Hcp & Hfs & Hcs & Hnp & Hns & Htp & Hts
          & Hrows & Hpool & Hsales) Hq.
  unfold sales_step.
  step (apply lift_inr, random_randint_eq).
  step (reflexivity).
  destruct (one_or_two (entropy w (drawn w))) as [Hc Hsc].
  set (sc := (1 + Z.of_N (entropy w (drawn w) mod Z.to_N (2 - 1 + 1)))%Z) in *.
  set (c := Z.to_nat sc) in *.
  destruct (insert_sales_spec (product_ids l) c (set_drawn (S (drawn w)) w) txn t0 ts
              ltac:(lia) Hq Hs Hb Hfs Hcs)
    as (ss & k & w' & Egen & Hlen & Hrefs & E & Hsrv & Hs' & Hq' & Hnow & _).
  step (apply lift_inr; exact E).
  exists c. eexists. exists w'. split; [reflexivity|]. split; [exact Hc|].
  split; [|split; [exact Hq' | split; reflexivity]].
  clearbody c. clearbody sc. wnorm_in Hnow. wnorm_in Hsrv.
  pose proof (find_table_name _ _ _ Hfs) as Hname.
  split; [exact Hs'|]. split; [reflexivity|].
  split; [apply Nat.le_refl|].
  exists tp, (insert_rows ts sales_params (map sale_tuple ss) t0).
  rewrite Hsrv.
  split; [rewrite find_put_other; [exact Hfp | cbn [insert_rows tbl_name];
                                               rewrite Hname; discriminate]|].
  split; [exact Hcp|].
  split; [apply (find_put_same _ _ ts); [exact Hfs | exact Hname]|].
  split; [exact Hcs|].
  cbn [insert_rows tbl_rows]. rewrite Hcs.
  split; [exact Hnp|].
  split; [rewrite length_app, new_rows_length, length_map; lia|].
  cbn [total_products total_sales product_ids set_total_sales fst snd].
  split; [exact Htp|]. split; [lia|].
  split.
  { eapply Forall_impl; [|exact Hrows]. intros p. apply product_row_ok_mono. lia. }
  split; [exact Hpool|].
  apply Forall_app. split; [exact Hsales|].
  eapply new_sales_ok; eassumption.
Qed.

Lemma steady_later (np ns : nat) (l l' : locals) (w w' : world) :
  steady np ns l w ->
  session w' = InSession None -> server w' = server w ->
  (now w <= now w')%nat ->
  product_ids l' = product_ids l -> total_products l' = total_products l ->
  total_sales l' = total_sales l ->
  steady np ns l' w'.
Proof.
  intros (Hs & Hb & Ht0 & tp & ts & Hfp & Hcp & Hfs & Hcs & Hnp & Hns & Htp & Hts
          & Hrows & Hpool & Hsales) Hs' Hsrv Hnow Hids Htot Htot'.
  split; [exact Hs'|]. split; [reflexivity|].
  split; [apply Nat.le_refl|].
  exists tp, ts. rewrite Hsrv, Hids, Htot, Htot'.
  repeat (split; [assumption|]).
  split; [|split; assumption].
  eapply Forall_impl; [|exact Hrows]. intros p. apply product_row_ok_mono. lia.
Qed.

Lemma report_step_spec (np ns : nat) (l : locals) (w : world) :
  steady np ns l w -> calm 1 w ->
  exists w',
    report_step (l, w) = (inr tt, (l, w')) /\ steady np ns l w'
    /\ fault_script w' = skipn 1 (fault_script w).
Proof.
  intros H Hq. pose proof H as (Hs & _).
  unfold report_step. step (reflexivity). unfold id.
  destruct (Z.eqb (iteration l mod 10) 0).
  - step (apply lift_inr, logger_info_eq).
    erewrite lift_inr by (apply time_sleep_calm; calm_tac).
    eexists. split; [reflexivity|]. split; [|script_tac].
    eapply steady_later; [exact H | exact Hs | reflexivity | wnorm; lia | reflexivity..].
  - step (reflexivity).
    erewrite lift_inr by (apply time_sleep_calm; calm_tac).
    eexists. split; [reflexivity|]. split; [|script_tac].
    eapply steady_later; [exact H | exact Hs | reflexivity | wnorm; lia | reflexivity..].
Qed.

(** A turn of the loop keeps the steady state and adds one or two rows to
    each table. *)
Lemma loop_body_spec (np ns : nat) (l : locals) (w : world) :
  steady np ns l w -> calm 6 w ->
  exists c1 c2 n l' w',
    loop_body PyConn (l, w) = (inr tt, (l', w'))
    /\ (1 <= c1 <= 2)%nat /\ (1 <= c2 <= 2)%nat
    /\ steady (np + c1) (ns + c2) l' w'
    /\ (5 <= n <= 6)%nat /\ fault_script w' = skipn n (fault_script w)
    /\ (length (product_ids l') <= 100)%nat
    /\ iteration l' = (iteration l + 1)%Z.
Proof.
  intros H Hq. unfold loop_body, upto_refresh_check.
  assert (H0 : steady np ns (set_iteration (iteration l + 1) l) w).
  { eapply steady_later; [exact H | apply H | reflexivity | lia | reflexivity..]. }
  destruct (insert_step_spec _ _ _ _ H0 (calm_le 2 6 w ltac:(lia) Hq))
    as (c1 & l1 & w1 & E1 & Hc1 & H1 & Hf1 & Hi1).
  destruct (refresh_check_spec _ _ _ _ H1 (calm_skipn 1 2 w w1 Hf1 (calm_le 3 6 w ltac:(lia) Hq)))
    as (txn & t0 & n & l2 & w2 & E2 & H2 & Hn & Hf2 & Hlen & Hi2).
  assert (Hf2' : fault_script w2 = skipn (n + 2) (fault_script w)).
  { rewrite Hf2, Hf1, skipn_skipn. reflexivity. }
  destruct (sales_step_spec _ _ _ _ _ _ H2
              (calm_skipn 2 (n + 2) w w2 Hf2' (calm_le (n + 2 + 2) 6 w ltac:(lia) Hq)))
    as (c2 & l3 & w3 & E3 & Hc2 & H3 & Hf3 & Hi3 & Hp3).
  assert (Hf3' : fault_script w3 = skipn (n + 4) (fault_script w)).
  { rewrite Hf3, Hf2', skipn_skipn. f_equal. lia. }
  destruct (report_step_spec _ _ _ _ H3
              (calm_skipn 1 (n + 4) w w3 Hf3' (calm_le (n + 4 + 1) 6 w ltac:(lia) Hq)))
    as (w4 & E4 & H4 & Hf4).
  exists c1, c2, (n + 5)%nat, l3, w4.
  split.
  { erewrite bind_inr; [|erewrite bind_inr by reflexivity;
                          erewrite bind_inr by exact E1; exact E2].
    erewrite bind_inr by exact E3. exact E4. }
  split; [exact Hc1|]. split; [exact Hc2|]. split; [exact H4|].
  split; [lia|].
  split; [rewrite Hf4, Hf3', skipn_skipn; f_equal; lia|].
  split; [rewrite Hp3; exact Hlen|].
  rewrite Hi3, Hi2, Hi1. reflexivity.
Qed.

Lemma while_true_spec (n : nat) :
  forall np ns l w,
    steady np ns l w -> quiet w ->
    exists np' ns' l' w',
      while_true n (loop_body PyConn) (l, w) = (inr tt, (l', w'))
      /\ (np + n <= np' <= np + 2 * n)%nat /\ (ns + n <= ns' <= ns + 2 * n)%nat
      /\ steady np' ns' l' w' /\ quiet w'
      /\ iteration l' = (iteration l + Z.of_nat n)%Z.
Proof.
  induction n as [|n IH]; intros np ns l w H Hq.
  - exists np, ns, l, w. cbn [while_true]. unfold ret.
    split; [reflexivity|]. split; [lia|]. split; [lia|]. split; [exact H|].
    split; [exact Hq | lia].
  - destruct (loop_body_spec _ _ _ _ H (quiet_calm 6 w Hq))
      as (c1 & c2 & k & l1 & w1 & E1 & Hc1 & Hc2 & H1 & _ & Hf1 & _ & Hi1).
    destruct (IH _ _ _ _ H1 (quiet_skipn k w w1 Hf1 Hq))
      as (np' & ns' & l' & w' & E' & Hnp & Hns & H' & Hq' & Hi').
    exists np', ns', l', w'. cbn [while_true].
    erewrite bind_inr by exact E1.
    split; [exact E'|]. split; [lia|]. split; [lia|]. split; [exact H'|].
    split; [exact Hq' | lia].
Qed.

(** Connecting, provisioning and seeding an empty store leads to the steady
    state with 20 catalog rows and no sale; the sleeps of the refused
    attempts, the five calls of [create_tables] and the two calls of the
    seeding have to go through. *)
Lemma main_prologue_spec (w : world) (ms : list string) (cs : list (option exn)) :
  server w = empty_store -> calm (length ms + 7) w ->
  connect_script w = map refuse ms ++ cs -> (length ms < max_retries)%nat ->
  hd None cs = None ->
  exists l w',
    main_prologue w = (inr (PyConn, l), w')
    /\ steady 20 0 l w' /\ iteration l = 0%Z
    /\ fault_script w' = skipn (length ms + 7) (fault_script w).
Proof.
  intros Hsrv Hq Hcs Hlen Hhd. unfold main_prologue.
  step (apply logger_info_eq).
  destruct (get_db_connection_accepted
              (set_trace (EvLog INFO "🚀 Starting Debezium data generator..." :: trace w) w)
              ms cs (calm_le (length ms) (length ms + 7) w ltac:(lia) Hq) Hcs Hlen Hhd)
    as (w1 & E1 & Hs1 & Hf1 & Hv1).
  step (exact E1).
  wnorm_in Hf1.
  destruct (create_tables_spec w1
              (calm_skipn 5 (length ms) w w1 Hf1
                 (calm_le (length ms + 5) (length ms + 7) w ltac:(lia) Hq)) Hs1)
    as (w2 & E2 & Hv2 & Hs2 & Hf2 & _).
  step (exact E2).
  step (apply logger_info_eq).
  wnorm_in Hv1. rewrite Hv1, Hsrv in Hv2.
  assert (Hf2' : fault_script w2 = skipn (length ms + 5) (fault_script w)).
  { rewrite Hf2, Hf1, skipn_skipn. f_equal. lia. }
  set (tp0 := new_table "products" products_columns).
  assert (Hfp : find_table "products" (server w2) = Some (set_replica_full tp0))
    by (rewrite Hv2; reflexivity).
  destruct (insert_products_spec 20
              (set_trace (EvLog INFO "🌱 Seeding initial products..." :: trace w2) w2)
              None (S (now w2)) (set_replica_full tp0) ltac:(lia)
              (calm_skipn 2 (length ms + 5) w w2 Hf2'
                 (calm_le (length ms + 5 + 2) (length ms + 7) w ltac:(lia) Hq)) Hs2 eq_refl Hfp eq_refl)
    as (ps & k & w3 & Egen & Hlps & E3 & Hv3 & Hs3 & Hf3 & Hnow3 & _).
  step (exact E3).
  step (apply logger_info_eq).
  step (apply logger_info_eq).
  step (apply logger_info_eq).
  unfold ret. eexists. eexists. split; [reflexivity|].
  wnorm_in Hv3. wnorm_in Hnow3. wnorm_in Hf3.
  split; [|split; [reflexivity|]].
  2:{ wnorm. rewrite Hf3, Hf2', skipn_skipn. f_equal. lia. }
  split; [exact Hs3|]. split; [reflexivity|].
  split; [apply Nat.le_refl|].
  exists (insert_rows (set_replica_full tp0) products_params (map product_tuple ps)
            (S (now w2))),
         (set_replica_full (new_table "sales" sales_columns)).
  wnorm. rewrite Hv3, Hv2.
  split; [reflexivity|]. split; [reflexivity|]. split; [reflexivity|].
  split; [reflexivity|].
  cbn [insert_rows tbl_rows set_replica_full tp0 new_table tbl_columns tbl_serial app
       length total_products total_sales product_ids].
  rewrite new_rows_length, length_map, next_ids_length.
  split; [exact Hlps|]. split; [reflexivity|]. split; [reflexivity|].
  split; [reflexivity|].
  split; [apply new_products_ok; lia|].
  split; [|constructor].
  replace 20%nat with (length (map product_tuple ps)) by (rewrite length_map; exact Hlps).
  apply new_products_pool.
Qed.

(** C3.  From an empty store, when the store accepts a connection within
    the five attempts and nothing fails: after seeding and [n] turns of
    the loop, [main] is still running, the catalog holds between [20 + n]
    and [20 + 2 * n] items and the sales table between [n] and [2 * n]
    rows (so exactly 20 and none for [n = 0]), the two counters of [main]
    are these numbers, and every sale that refers to a product refers to
    the identifier of a catalog row created no later than the sale. *)
Theorem end_to_end_counts (n : nat) (w : world) (ms : list string)
    (cs : list (option exn)) :
  server w = empty_store -> quiet w ->
  connect_script w = map refuse ms ++ cs -> (length ms < max_retries)%nat ->
  hd None cs = None ->
  exists l w',
    main n w = (Running l, w')
    /\ (20 + n <= length (rows_of "products" (server w')) <= 20 + 2 * n)%nat
    /\ (n <= length (rows_of "sales" (server w')) <= 2 * n)%nat
    /\ total_products l = Z.of_nat (length (rows_of "products" (server w')))
    /\ total_sales l = Z.of_nat (length (rows_of "sales" (server w')))
    /\ Forall (sale_row_ok (rows_of "products" (server w'))) (rows_of "sales" (server w')).
Proof.
  intros Hsrv Hq Hcs Hlen Hhd.
  destruct (main_prologue_spec w ms cs Hsrv (quiet_calm _ w Hq) Hcs Hlen Hhd)
    as (l0 & w0 & E0 & H0 & _ & Hf0).
  destruct (while_true_spec n _ _ _ _ H0 (quiet_skipn _ w w0 Hf0 Hq))
    as (np & ns & l & w' & E & Hnp & Hns & H & _).
  exists l, w'. unfold main. rewrite E0, E.
  destruct H as (_ & _ & _ & tp & ts & Hfp & _ & Hfs & _ & Hlp & Hls & Htp & Hts
                 & _ & _ & Hsales).
  unfold rows_of. rewrite Hfp, Hfs, Hlp, Hls.
  split; [reflexivity|]. split; [lia|]. split; [lia|].
  split; [exact Htp|]. split; [exact Hts | exact Hsales].
Qed.

Lemma end_to_end_counts_witness :
  exists l w',
    main 3 (demo_world [] []) = (Running l, w')
    /\ (23 <= length (rows_of "products" (server w')) <= 26)%nat
    /\ (3 <= length (rows_of "sales" (server w')) <= 6)%nat.
Proof.
  destruct (end_to_end_counts 3 (demo_world [] []) [] [] eq_refl (Forall_nil _) eq_refl
              ltac:(unfold max_retries; cbn; lia) eq_refl)
    as (l & w' & H & Hp & Hs & _).
  exists l, w'. split; [exact H|]. split; [exact Hp | exact Hs].
Defined.

Lemma get_random_product_ids_length (conn : pyconn) (limit : nat) (w w' : world)
    (ids : list Z) :
  get_random_product_ids conn limit w = (inr ids, w') -> (length ids <= limit)%nat.
Proof.
  unfold get_random_product_ids. intros H.
  apply bind_inr_inv in H. destruct H as ([] & w1 & _ & H).
  apply bind_inr_inv in H. destruct H as (res & w2 & Hex & H).
  apply cur_execute_select_inv in Hex. destruct Hex as (rows & -> & Hlen).
  cbn [cur_fetchall] in H. unfold bind, ret in H. injection H as <- _.
  rewrite length_map. exact Hlen.
Qed.

(** A refresh check that returns leaves at most 100 identifiers. *)
Lemma refresh_check_length (conn : pyconn) (l l' : locals) (w w' : world) :
  refresh_check conn (l, w) = (inr tt, (l', w')) ->
  (length (product_ids l') <= 100)%nat.
Proof.
  unfold refresh_check. intros H.
  apply bind_inr_inv in H. destruct H as (ids & s1 & Hl & H).
  unfold local in Hl. injection Hl as <- <-. cbn [fst] in H.
  destruct (Nat.ltb 100 (length (product_ids l))) eqn:Hlt.
  - apply bind_inr_inv in H. destruct H as (fresh & [l1 w1] & Hg & H).
    apply lift_inr_inv in Hg. destruct Hg as [Hg ->].
    apply get_random_product_ids_length in Hg.
    unfold assign in H. cbn [fst snd] in H. injection H as <- _.
    cbn [product_ids set_product_ids]. exact Hg.
  - unfold ret in H. injection H as <- _. apply Nat.ltb_ge. exact Hlt.
Qed.

(** From a steady state and with no fault to come, every turn does get
    past its refresh check. *)
Lemma refresh_check_reached (n np ns : nat) (l : locals) (w : world) :
  steady np ns l w -> quiet w ->
  exists l' w',
    (while_true n (loop_body PyConn) ;; upto_refresh_check PyConn) (l, w)
    = (inr tt, (l', w')).
Proof.
  intros H Hq.
  destruct (while_true_spec n _ _ _ _ H Hq) as (np1 & ns1 & l1 & w1 & E1 & _ & _ & H1 & Hq1 & _).
  assert (H0 : steady np1 ns1 (set_iteration (iteration l1 + 1) l1) w1).
  { eapply steady_later; [exact H1 | apply H1 | reflexivity | lia | reflexivity..]. }
  destruct (insert_step_spec _ _ _ _ H0 (quiet_calm 2 w1 Hq1))
    as (c & l2 & w2 & E2 & _ & H2 & Hf2 & _).
  destruct (refresh_check_spec _ _ _ _ H2 (quiet_calm 1 w2 (quiet_skipn 2 w1 w2 Hf2 Hq1)))
    as (txn & t0 & k & l3 & w3 & E3 & _).
  exists l3, w3. erewrite bind_inr by exact E1. unfold upto_refresh_check.
  erewrite bind_inr by reflexivity. erewrite bind_inr by exact E2. exact E3.
Qed.

(** C4.  After any number [n] of turns of the loop, when the next turn gets
    past its refresh check, the pool holds at most 100 identifiers at that
    point; this holds from any locals and any world.  (By
    [refresh_check_reached] the turn does get there from a steady state
    when no fault is due.) *)
Theorem pool_bound (n : nat) (conn : pyconn) (l l' : locals) (w w' : world) :
  (while_true n (loop_body conn) ;; upto_refresh_check conn) (l, w) = (inr tt, (l', w')) ->
  (length (product_ids l') <= 100)%nat.
Proof.
  intros H.
  apply bind_inr_inv in H. destruct H as ([] & s1 & _ & H).
  unfold upto_refresh_check in H.
  apply bind_inr_inv in H. destruct H as ([] & s2 & _ & H).
  apply bind_inr_inv in H. destruct H as ([] & [l3 w3] & _ & H).
  exact (refresh_check_length conn l3 l' w3 w' H).
Qed.

Lemma pool_bound_witness :
  exists l' w',
    (while_true 1 (loop_body PyConn) ;; upto_refresh_check PyConn)
      (crowded_locals, seeded_world) = (inr tt, (l', w'))
    /\ (length (product_ids l') <= 100)%nat.
Proof.
  eexists. eexists. split; [vm_compute; reflexivity|].
  eapply (pool_bound 1 PyConn crowded_locals _ seeded_world).
  vm_compute. reflexivity.
Defined.

(** ** A fault during the loop

    The statements, commits and sleeps of the loop are the calls a fault
    can hit.  When the first fault of the script is due at the [k]-th call
    from a steady state, the loop runs until that call and is left by that
    fault; the counters are then the numbers of committed rows. *)













(** ** Shutdown *)

Lemma create_tables_conn (conn : pyconn) (w w' : world) :
  create_tables conn w = (inr tt, w') -> conn = PyConn.
Proof. destruct conn; [discriminate | reflexivity]. Qed.

(** What [main] gets from [get_db_connection] is a connection, not [None],
    once [create_tables] has run. *)
Lemma main_prologue_conn (w w1 : world) (conn : pyconn) (l : locals) :
  main_prologue w = (inr (conn, l), w1) -> conn = PyConn.
Proof.
  unfold main_prologue. intros H.
  apply bind_inr_inv in H. destruct H as ([] & s1 & _ & H).
  apply bind_inr_inv in H. destruct H as (conn0 & s2 & _ & H).
  apply bind_inr_inv in H. destruct H as ([] & s3 & Hc & H).
  apply create_tables_conn in Hc. subst conn0.
  apply bind_inr_inv in H. destruct H as ([] & s4 & _ & H).
  apply bind_inr_inv in H. destruct H as (ids & s5 & _ & H).
  apply bind_inr_inv in H. destruct H as ([] & s6 & _ & H).
  apply bind_inr_inv in H. destruct H as ([] & s7 & _ & H).
  apply bind_inr_inv in H. destruct H as ([] & s8 & _ & H).
  unfold ret in H. congruence.
Qed.

(** C8.  When the loop is left by [KeyboardInterrupt], [main] logs that it
    stops, closes the connection, logs the closing and the final totals,
    which are the counters at the time of the interrupt, and returns: the
    exit status is 0.  ([main_struck] gives the two hypotheses, for every
    [fuel] large enough, when the first fault of the world is a
    [KeyboardInterrupt] due during the loop, and shows that the counters
    are then the numbers of committed rows.) *)
Theorem interrupt_exits_zero (fuel : nat) (w w1 w2 : world) (conn : pyconn)
    (l l2 : locals) :
  main_prologue w = (inr (conn, l), w1) ->
  while_true fuel (loop_body conn) (l, w1) = (inl KeyboardInterrupt, (l2, w2)) ->
  exists w3,
    main fuel w = (Returned, w3)
    /\ exit_status Returned = Some 0%Z
    /\ session w3 = SessionClosed
    /\ history w3 = history w2
                    ++ [EvLog INFO "⏹ Stopping data generator...";
                        EvClose;
                        EvLog INFO "✅ Database connection closed";
                        EvLog INFO (final_stats_msg l2)].
Proof.
  intros Hp Hl. pose proof (main_prologue_conn _ _ _ _ Hp) as ->.
  unfold main. rewrite Hp, Hl.
  eexists. split; [reflexivity|]. split; [reflexivity|]. split; [reflexivity|].
  apply history_app. reflexivity.
Qed.

Lemma interrupt_exits_zero_witness :
  exists w3, main 2 interrupted_world = (Returned, w3) /\ session w3 = SessionClosed.
Proof.
  edestruct (interrupt_exits_zero 2 interrupted_world) as (w3 & H & _ & Hs & _);
    [vm_compute; reflexivity | vm_compute; reflexivity |].
  exists w3. split; [exact H | exact Hs].
Defined.

(** C9.  When the loop is left by an [Exception] [e], [main] logs it, closes
    the connection, logs the closing and the final totals, and lets [e]
    itself go up: nothing is sent to the store again, and the exit status
    is 1.  ([main_struck] gives the first two hypotheses when the first
    fault of the world is [e], due during the loop.) *)
Theorem error_exits_nonzero (fuel : nat) (w w1 w2 : world) (conn : pyconn)
    (l l2 : locals) (e : exn) :
  main_prologue w = (inr (conn, l), w1) ->
  while_true fuel (loop_body conn) (l, w1) = (inl e, (l2, w2)) ->
  is_Exception e = true ->
  exists w3,
    main fuel w = (Uncaught e, w3)
    /\ exit_status (Uncaught e) = Some 1%Z
    /\ session w3 = SessionClosed
    /\ history w3 = history w2
                    ++ [EvLog ERROR ("💥 Error occurred: " ++ exn_str e);
                        EvClose;
                        EvLog INFO "✅ Database connection closed";
                        EvLog INFO (final_stats_msg l2)].
Proof.
  intros Hp Hl He. pose proof (main_prologue_conn _ _ _ _ Hp) as ->.
  unfold main. rewrite Hp, Hl.
  destruct e; try discriminate;
    (eexists; split; [reflexivity|]; split; [reflexivity|];
     split; [reflexivity | apply history_app; reflexivity]).
Qed.

Lemma error_exits_nonzero_witness :
  exists w3,
    main 2 failing_world = (Uncaught (IntegrityError "violates check constraint"), w3)
    /\ session w3 = SessionClosed.
Proof.
  edestruct (error_exits_nonzero 2 failing_world) as (w3 & H & _ & Hs & _);
    [vm_compute; reflexivity | vm_compute; reflexivity | reflexivity |].
  exists w3. split; [exact H | exact Hs].
Defined.

(** ** More on the connection manager *)

Lemma connection_attempts_returns (n : nat) :
  forall (attempt : nat) (w w' : world) (conn : pyconn),
    (attempt + n = max_retries)%nat -> (1 <= n)%nat ->
    connection_attempts (seq attempt n) w = (inr conn, w') ->
    conn = PyConn /\ session w' = InSession None.
Proof.
  induction n as [|n IH]; intros attempt w w' conn Hsum Hn H; [lia|].
  cbn [seq connection_attempts] in H. unfold try_except in H.
  erewrite bind_inr in H by apply logger_info_eq.
  destruct (connect_script w) as [|[e|] cs] eqn:Hcs.
  - erewrite bind_inr in H
      by (apply connect_accepted_hd; wnorm; rewrite Hcs; reflexivity).
    unfold reading in H. erewrite bind_inr in H by apply logger_info_eq.
    unfold ret in H. injection H as <- <-. split; reflexivity.
  - erewrite bind_inl in H by (apply connect_refused; wnorm; exact Hcs).
    destruct (is_OperationalError e); [|discriminate].
    erewrite bind_inr in H by apply logger_error_eq.
    destruct (Nat.ltb attempt (max_retries - 1)) eqn:Hlt.
    + erewrite bind_inr in H by apply logger_info_eq.
      apply bind_inr_inv in H. destruct H as ([] & w1 & _ & H).
      apply Nat.ltb_lt in Hlt.
      apply (IH (S attempt) w1 w' conn); [lia | unfold max_retries in *; lia | exact H].
    + erewrite bind_inr in H by apply logger_critical_eq. discriminate.
  - erewrite bind_inr in H by (apply connect_accepted; wnorm; exact Hcs).
    unfold reading in H. erewrite bind_inr in H by apply logger_info_eq.
    unfold ret in H. injection H as <- <-. split; reflexivity.
Qed.

(** X1.  Whatever the store and the environment do, a value that
    [get_db_connection] returns is a connection, never [None], and its
    session is open and idle: the [for] loop cannot run out, since its
    last turn returns or raises. *)
Theorem get_db_connection_returns_connection (w w' : world) (conn : pyconn) :
  get_db_connection w = (inr conn, w') -> conn = PyConn /\ session w' = InSession None.
Proof.
  unfold get_db_connection. intros H.
  erewrite bind_inr in H by apply logger_info_eq.
  exact (connection_attempts_returns max_retries 0 _ w' conn eq_refl
           ltac:(unfold max_retries; lia) H).
Qed.

Lemma get_db_connection_returns_connection_witness :
  exists w',
    get_db_connection (demo_world [refuse "down"; None] []) = (inr PyConn, w')
    /\ session w' = InSession None.
Proof.
  eexists. split; [vm_compute; reflexivity|].
  eapply (get_db_connection_returns_connection (demo_world [refuse "down"; None] [])).
  vm_compute. reflexivity.
Defined.

Lemma refusals_counts (ms : list string) :
  forall attempt,
    occurrences (logged_at ERROR) (refusals_events attempt ms) = length ms
    /\ seconds_slept (refusals_events attempt ms) = (retry_delay * length ms)%nat.
Proof.
  induction ms as [|m ms IH]; intros attempt; [split; reflexivity|].
  destruct (IH (S attempt)) as (He & Hs).
  cbn [refusals_events]. rewrite occurrences_app, He.
  unfold seconds_slept, retry_delay in *. rewrite map_app, list_sum_app, Hs.
  cbn [length]. split; [reflexivity|].
  unfold refusal_events. cbn [map list_sum fold_right app Nat.add].
  unfold retry_delay. lia.
Qed.

(** X2.  When the store refuses the first [k] attempts, [k] from 0 to 4,
    and accepts the next one, and no sleep is interrupted:
    [get_db_connection] returns the session at attempt [k + 1], after
    [k + 1] calls of [psycopg2.connect], [k] error lines and [k] sleeps of
    two seconds, and the line that tells the connection names the host,
    port and database of the environment. *)
Theorem get_db_connection_after_refusals (w : world) (ms : list string)
    (cs : list (option exn)) :
  calm (length ms) w ->
  connect_script w = map refuse ms ++ cs -> (length ms < max_retries)%nat ->
  hd None cs = None ->
  exists w' evs,
    get_db_connection w = (inr PyConn, w')
    /\ session w' = InSession None
    /\ connect_script w' = tl cs
    /\ server w' = server w
    /\ history w' = history w ++ evs
    /\ evs = [EvLog INFO "🔌 Attempting to connect to PostgreSQL..."]
             ++ refusals_events 0 ms
             ++ [EvLog INFO (attempt_msg (length ms)); EvConnect;
                 EvLog INFO (connected_msg w)]
    /\ occurrences is_connect evs = S (length ms)
    /\ occurrences (logged_at ERROR) evs = length ms
    /\ occurrences is_sleep evs = length ms
    /\ seconds_slept evs = (2 * length ms)%nat.
Proof.
  intros Hq Hcs Hlen Hhd. unfold get_db_connection.
  erewrite bind_inr by apply logger_info_eq.
  replace max_retries with (length ms + (max_retries - length ms))%nat by lia.
  destruct (attempts_refused ms 0 (max_retries - length ms) cs
              (set_trace (EvLog INFO "🔌 Attempting to connect to PostgreSQL..."
                          :: trace w) w))
    as (w1 & E1 & Hcs1 & Ht1 & Hf1 & Hs1 & He1 & Hv1);
    [exact Hcs | exact Hq | unfold max_retries in *; cbn; lia |].
  rewrite E1.
  destruct (max_retries - length ms)%nat as [|k] eqn:Ek; [lia|].
  cbn [seq Nat.add connection_attempts]. unfold try_except.
  erewrite bind_inr by apply logger_info_eq.
  erewrite bind_inr by (apply connect_accepted_hd; wnorm; rewrite Hcs1; exact Hhd).
  unfold reading. erewrite bind_inr by apply logger_info_eq. unfold ret.
  eexists. eexists. split; [reflexivity|]. wnorm.
  split; [reflexivity|]. split; [rewrite Hcs1; reflexivity|]. split; [exact Hv1|].
  split; [|split; [reflexivity|]].
  - apply history_app. rewrite Ht1. wnorm.
    rewrite (connected_msg_environ w) by (wnorm; rewrite He1; reflexivity).
    rewrite !rev_app_distr. cbn [rev app]. rewrite <- !app_assoc. reflexivity.
  - destruct (occurrences_refusals ms 0) as (Hc & Hsl & _).
    destruct (refusals_counts ms 0) as (Her & Hsec).
    unfold seconds_slept in *.
    rewrite !occurrences_app, !map_app, !list_sum_app, Hc, Hsl, Her, Hsec.
    cbn [length]. unfold retry_delay. cbn. repeat split; lia.
Qed.

Lemma get_db_connection_after_refusals_witness :
  exists w' evs,
    get_db_connection (demo_world [refuse "a"; refuse "b"; None] []) = (inr PyConn, w')
    /\ history w' = evs /\ seconds_slept evs = 4%nat.
Proof.
  destruct (get_db_connection_after_refusals
              (demo_world [refuse "a"; refuse "b"; None] []) ["a"; "b"] [None]
              (Forall_nil _) eq_refl ltac:(unfold max_retries; cbn; lia) eq_refl)
    as (w' & evs & H & _ & _ & _ & Hh & _ & _ & _ & _ & Hs).
  exists w', evs. split; [exact H|]. split; [exact Hh | exact Hs].
Defined.

(** A refused attempt whose sleep is hit by the due fault. *)
Lemma attempt_refused_struck (attempt : nat) (m : string) (e : exn)
    (cs : list (option exn)) (rest : list nat) (w : world) :
  connect_script w = refuse m :: cs -> struck 0 e w -> (attempt < max_retries - 1)%nat ->
  exists w',
    connection_attempts (attempt :: rest) w = (inl e, w')
    /\ connect_script w' = cs
    /\ trace w' = rev (refusal_events attempt m) ++ trace w
    /\ session w' = session w /\ server w' = server w.
Proof.
  intros Hcs Hk Hlt.
  cbn [connection_attempts]. unfold try_except.
  erewrite bind_inr by apply logger_info_eq.
  erewrite bind_inl by (apply connect_refused; wnorm; exact Hcs).
  cbn [refuse is_OperationalError].
  erewrite bind_inr by apply logger_error_eq.
  apply Nat.ltb_lt in Hlt. rewrite Hlt.
  erewrite bind_inr by apply logger_info_eq.
  erewrite bind_inl by (apply time_sleep_struck; exact Hk).
  eexists. split; [reflexivity|].
  wnorm. repeat split; reflexivity.
Qed.

(** X3.  A fault during the sleep that follows a refused attempt, Ctrl+C
    for one, ends [get_db_connection] at once with that exception: no
    further attempt is made and no fatal line is logged. *)
Theorem get_db_connection_sleep_interrupted (w : world) (ms : list string) (m : string)
    (e : exn) (cs : list (option exn)) :
  connect_script w = map refuse ms ++ refuse m :: cs ->
  struck (length ms) e w -> (length ms < max_retries - 1)%nat ->
  exists w' evs,
    get_db_connection w = (inl e, w')
    /\ connect_script w' = cs
    /\ session w' = session w
    /\ history w' = history w ++ evs
    /\ evs = [EvLog INFO "🔌 Attempting to connect to PostgreSQL..."]
             ++ refusals_events 0 ms ++ refusal_events (length ms) m
    /\ occurrences is_connect evs = S (length ms)
    /\ occurrences (logged_at CRITICAL) evs = 0%nat.
Proof.
  intros Hcs Hk Hlen. unfold get_db_connection.
  erewrite bind_inr by apply logger_info_eq.
  replace max_retries with (length ms + (max_retries - length ms))%nat
    by (unfold max_retries in *; lia).
  destruct (attempts_refused ms 0 (max_retries - length ms) (refuse m :: cs)
              (set_trace (EvLog INFO "🔌 Attempting to connect to PostgreSQL..."
                          :: trace w) w))
    as (w1 & E1 & Hcs1 & Ht1 & Hf1 & Hs1 & He1 & Hv1);
    [exact Hcs | exact (struck_calm _ _ e w Hk (Nat.le_refl _))
    | unfold max_retries in *; cbn; lia |].
  rewrite E1.
  destruct (max_retries - length ms)%nat as [|k] eqn:Ek;
    [unfold max_retries in *; lia|].
  cbn [seq Nat.add].
  assert (Hk1 : struck 0 e w1).
  { replace 0%nat with (length ms - length ms)%nat by lia.
    exact (struck_skipn (length ms) (length ms) e w w1 Hf1 (Nat.le_refl _) Hk). }
  destruct (attempt_refused_struck (length ms) m e cs (seq (S (length ms)) k) w1
              Hcs1 Hk1 Hlen) as (w2 & E2 & Hcs2 & Ht2 & Hs2 & Hv2).
  rewrite E2. exists w2. eexists.
  split; [reflexivity|]. split; [exact Hcs2|].
  split; [rewrite Hs2, Hs1; reflexivity|].
  split; [|split; [reflexivity|]].
  - apply history_app. rewrite Ht2, Ht1. wnorm.
    rewrite !rev_app_distr. cbn [rev app]. rewrite <- !app_assoc. reflexivity.
  - destruct (occurrences_refusals ms 0) as (Hc & _ & Hcr).
    rewrite !occurrences_app, Hc, Hcr. cbn. split; lia.
Qed.

Lemma get_db_connection_sleep_interrupted_witness :
  exists w',
    get_db_connection (demo_world [refuse "a"; refuse "b"; None] [None; Some KeyboardInterrupt])
    = (inl KeyboardInterrupt, w')
    /\ connect_script w' = [None].
Proof.
  destruct (get_db_connection_sleep_interrupted
              (demo_world [refuse "a"; refuse "b"; None] [None; Some KeyboardInterrupt])
              ["a"] "b" KeyboardInterrupt [None] eq_refl
              ltac:(split; [repeat constructor | reflexivity])
              ltac:(unfold max_retries; cbn; lia))
    as (w' & evs & H & Hcs & _).
  exists w'. split; [exact H | exact Hcs].
Defined.

(** ** More on schema provisioning *)

(** The world a fault leaves is reached by [n] calls that went through. *)
Ltac struck_tac n e w Hk :=
  apply (fun Hfs => struck_skipn n n e w _ Hfs (Nat.le_refl _) Hk); script_tac.

(** [create_tables] when the due fault hits one of its five calls. *)
Lemma create_tables_struck (j : nat) (e : exn) (w : world) :
  struck j e w -> (j < 5)%nat -> session w = InSession None ->
  exists w' txn,
    create_tables PyConn w = (inl e, w')
    /\ server w' = server w /\ session w' = InSession txn
    /\ occurrences is_close (trace w') = occurrences is_close (trace w).
Proof.
  intros Hk Hj Hs. pose proof (proj1 Hk) as Hc. unfold create_tables.
  destruct (created_products (server w)) as [tp Hp].
  destruct (created_sales (server w)) as [ts Hts].
  step (apply logger_info_eq).
  step (eapply conn_cursor_eq; exact Hs).
  destruct j as [|j].
  { erewrite bind_inl by (apply cur_execute_struck; exact Hk).
    eexists. eexists. wnorm. repeat split; try reflexivity. exact Hs. }
  step (apply cur_execute_create; [calm_tac | exact Hs]).
  step (apply logger_info_eq).
  destruct j as [|j].
  { erewrite bind_inl by (apply cur_execute_struck; struck_tac 1%nat e w Hk).
    eexists. eexists. wnorm. repeat split; reflexivity. }
  step (apply cur_execute_create; [calm_tac | reflexivity]).
  step (apply logger_info_eq).
  destruct j as [|j].
  { erewrite bind_inl by (apply cur_execute_struck; struck_tac 2%nat e w Hk).
    eexists. eexists. wnorm. repeat split; reflexivity. }
  step (eapply cur_execute_alter; [calm_tac | reflexivity | exact Hp]).
  step (apply logger_info_eq).
  destruct j as [|j].
  { erewrite bind_inl by (apply cur_execute_struck; struck_tac 3%nat e w Hk).
    eexists. eexists. wnorm. repeat split; reflexivity. }
  step (eapply cur_execute_alter; [calm_tac | reflexivity | exact Hts]).
  step (apply logger_info_eq).
  destruct j as [|j]; [|lia].
  erewrite bind_inl by (apply conn_commit_struck; struck_tac 4%nat e w Hk).
  eexists. eexists. wnorm. repeat split; reflexivity.
Qed.

(** X4.  [create_tables] commits once, at its end: when one of its four
    statements or its commit fails, the exception goes up, the connection
    stays open and the committed catalog is what it was, so no table is
    created and no replica identity is changed. *)
Theorem create_tables_fault_atomic (j : nat) (e : exn) (w : world) :
  struck j e w -> (j < 5)%nat -> session w = InSession None ->
  exists w' txn,
    create_tables PyConn w = (inl e, w')
    /\ server w' = server w
    /\ session w' = InSession txn.
Proof.
  intros Hk Hj Hs.
  destruct (create_tables_struck j e w Hk Hj Hs) as (w' & txn & E & Hv & Hs' & _).
  exists w', txn. split; [exact E|]. split; [exact Hv | exact Hs'].
Qed.

Lemma create_tables_fault_atomic_witness :
  exists w' txn,
    create_tables PyConn
      (set_fault_script [None; None; None; None; Some (OperationalError "lost")]
         (set_session (InSession None) (demo_world [] [])))
    = (inl (OperationalError "lost"), w')
    /\ server w' = empty_store
    /\ session w' = InSession txn.
Proof.
  apply (create_tables_fault_atomic 4 (OperationalError "lost")
           (set_fault_script [None; None; None; None; Some (OperationalError "lost")]
              (set_session (InSession None) (demo_world [] [])))).
  - split; [repeat constructor | reflexivity].
  - lia.
  - reflexivity.
Defined.

Lemma rows_of_create_if_absent (n n' : string) (cols : list column) (s : store) :
  rows_of n (create_if_absent n' cols s) = rows_of n s.
Proof.
  unfold rows_of. rewrite find_create_if_absent.
  destruct (find_table n s); [reflexivity|].
  destruct (String.eqb n' n); reflexivity.
Qed.

Lemma rows_of_alter_replica_full (n n' : string) (s : store) :
  rows_of n (alter_replica_full n' s) = rows_of n s.
Proof.
  unfold rows_of. rewrite find_alter_replica_full.
  destruct (String.eqb n' n); [|reflexivity].
  destruct (find_table n s); reflexivity.
Qed.

Lemma columns_create_if_absent (n : string) (cols : list column) (s : store) (t : table) :
  find_table n (create_if_absent n cols s) = Some t ->
  match find_table n s with
  | Some t0 => tbl_columns t = tbl_columns t0
  | None => tbl_columns t = cols
  end.
Proof.
  rewrite find_create_if_absent, String.eqb_refl.
  destruct (find_table n s); intros [= <-]; reflexivity.
Qed.

(** X5.  [create_tables] keeps the data: when its five calls go through,
    every table holds the rows it held before (a table it creates is
    empty), a [products] or [sales] table that was there keeps its own
    columns, one that was missing gets the declared columns, and tables
    of other names are as they were. *)
Theorem create_tables_keeps_rows (w : world) :
  calm 5 w -> session w = InSession None ->
  exists w',
    create_tables PyConn w = (inr tt, w')
    /\ (forall n, rows_of n (server w') = rows_of n (server w))
    /\ (forall n, n <> "products" -> n <> "sales" ->
          find_table n (server w') = find_table n (server w))
    /\ (forall n t, (n = "products" \/ n = "sales") ->
          find_table n (server w) = Some t ->
          find_table n (server w') = Some (set_replica_full t))
    /\ (find_table "products" (server w) = None ->
          find_table "products" (server w')
          = Some (set_replica_full (new_table "products" products_columns)))
    /\ (find_table "sales" (server w) = None ->
          find_table "sales" (server w')
          = Some (set_replica_full (new_table "sales" sales_columns))).
Proof.
  intros Hq Hs.
  destruct (create_tables_spec w Hq Hs) as (w' & E & Hv & _).
  exists w'. split; [exact E|]. rewrite Hv. unfold provisioned.
  split; [|split; [|split; [|split]]].
  - intros n. rewrite !rows_of_alter_replica_full, !rows_of_create_if_absent. reflexivity.
  - intros n Hp Hsl.
    rewrite !find_alter_replica_full, !find_create_if_absent.
    destruct (String.eqb_spec "sales" n) as [<-|_]; [congruence|].
    destruct (String.eqb_spec "products" n) as [<-|_]; [congruence|].
    destruct (find_table n (server w)); reflexivity.
  - intros n t [->| ->] Ht;
      rewrite !find_alter_replica_full, !find_create_if_absent, Ht; reflexivity.
  - intros Hn.
    rewrite !find_alter_replica_full, !find_create_if_absent, Hn. reflexivity.
  - intros Hn.
    rewrite !find_alter_replica_full, !find_create_if_absent, Hn. reflexivity.
Qed.

Lemma create_tables_keeps_rows_witness :
  exists w',
    create_tables PyConn (set_session (InSession None) seeded_world) = (inr tt, w')
    /\ length (rows_of "products" (server w')) = 20%nat.
Proof.
  destruct (create_tables_keeps_rows (set_session (InSession None) seeded_world))
    as (w' & E & Hr & _).
  - vm_compute. repeat constructor.
  - reflexivity.
  - exists w'. split; [exact E|]. rewrite Hr. vm_compute. reflexivity.
Defined.

(** ** More on the batch inserts *)

(** X6.  On a connection that has been closed, [conn.cursor()] raises
    [InterfaceError]: [create_tables] logs its first line and fails,
    [insert_products] and [insert_sales] fail once their records are
    generated, [get_random_product_ids] fails at once; none of them sends
    a statement or changes the store. *)
Theorem closed_connection_rejects (w : world) :
  session w = SessionClosed ->
  create_tables PyConn w
  = (inl (InterfaceError "connection already closed"),
     set_trace (EvLog INFO "📋 Creating/verifying tables..." :: trace w) w)
  /\ (forall count, exists k,
        insert_products PyConn count w
        = (inl (InterfaceError "connection already closed"), set_drawn k w))
  /\ (forall ids count, exists k,
        insert_sales PyConn ids count w
        = (inl (InterfaceError "connection already closed"), set_drawn k w))
  /\ (forall limit,
        get_random_product_ids PyConn limit w
        = (inl (InterfaceError "connection already closed"), w)).
Proof.
  intros Hs. split; [|split; [|split]].
  - unfold create_tables. step (apply logger_info_eq).
    unfold bind, conn_cursor. wnorm. rewrite Hs. reflexivity.
  - intros count.
    destruct (replicateM_draws generate_product (fun _ => True) generate_product_draws count w)
      as (ps & k & Egen & _).
    exists k. unfold insert_products. step (exact Egen).
    unfold bind, conn_cursor. wnorm. rewrite Hs. reflexivity.
  - intros ids count.
    destruct (replicateM_draws (generate_sale ids) (refers_to ids) (generate_sale_draws ids)
                count w) as (ss & k & Egen & _).
    exists k. unfold insert_sales. step (exact Egen).
    unfold bind, conn_cursor. wnorm. rewrite Hs. reflexivity.
  - intros limit. unfold get_random_product_ids, bind, conn_cursor. rewrite Hs. reflexivity.
Qed.

Lemma closed_connection_rejects_witness :
  get_random_product_ids PyConn 100 (set_session SessionClosed seeded_world)
  = (inl (InterfaceError "connection already closed"),
     set_session SessionClosed seeded_world).
Proof.
  exact (proj2 (proj2 (proj2 (closed_connection_rejects
                                (set_session SessionClosed seeded_world) eq_refl))) 100%nat).
Defined.

(** X7.  An empty batch is an error: with [count = 0], [execute_values]
    has no page to send, the cursor holds no result and [cur.fetchall()]
    raises [ProgrammingError]; nothing is sent, drawn, committed or
    logged. *)
Theorem insert_empty_batch (w : world) (txn : option (nat * store)) :
  session w = InSession txn ->
  insert_products PyConn 0 w = (inl (ProgrammingError "no results to fetch"), w)
  /\ (forall ids,
        insert_sales PyConn ids 0 w = (inl (ProgrammingError "no results to fetch"), w)).
Proof.
  intros Hs. split; [|intros ids].
  - unfold insert_products. cbn [replicateM]. step (reflexivity).
    step (eapply conn_cursor_eq; exact Hs). reflexivity.
  - unfold insert_sales. cbn [replicateM]. step (reflexivity).
    step (eapply conn_cursor_eq; exact Hs). reflexivity.
Qed.

Lemma insert_empty_batch_witness :
  insert_products PyConn 0 seeded_world
  = (inl (ProgrammingError "no results to fetch"), seeded_world).
Proof.
  exact (proj1 (insert_empty_batch seeded_world None ltac:(vm_compute; reflexivity))).
Defined.

(** X8.  A batch is all or nothing: when the INSERT or the commit of
    [insert_products] or [insert_sales] fails, the exception goes up and
    the committed tables are what they were, whatever the size of the
    batch from 1 to 100. *)
Theorem insert_fault_atomic (count j : nat) (e : exn) (w : world) (tp ts : table) :
  (1 <= count <= 100)%nat ->
  struck j e w -> (j < 2)%nat -> session w = InSession None ->
  find_table "products" (server w) = Some tp -> tbl_columns tp = products_columns ->
  find_table "sales" (server w) = Some ts -> tbl_columns ts = sales_columns ->
  (exists w', insert_products PyConn count w = (inl e, w') /\ server w' = server w)
  /\ (forall ids,
        exists w', insert_sales PyConn ids count w = (inl e, w') /\ server w' = server w).
Proof.
  intros Hc Hk Hj Hs Hfp Hcp Hfs Hcs. split; [|intros ids].
  - exact (insert_products_struck count j e w None (S (now w)) tp Hc Hk Hj Hs eq_refl Hfp Hcp).
  - exact (insert_sales_struck ids count j e w None (S (now w)) ts Hc Hk Hj Hs eq_refl
             Hfs Hcs).
Qed.

Lemma insert_fault_atomic_witness :
  exists w',
    insert_products PyConn 2
      (set_fault_script [None; Some (OperationalError "server closed the connection")]
         seeded_world)
    = (inl (OperationalError "server closed the connection"), w')
    /\ length (rows_of "products" (server w')) = 20%nat.
Proof.
  edestruct (insert_fault_atomic 2 1 (OperationalError "server closed the connection")
               (set_fault_script [None; Some (OperationalError "server closed the connection")]
                  seeded_world))
    as [(w' & E & Hv) _];
    [lia | split; [repeat constructor | reflexivity] | lia
    | vm_compute; reflexivity | vm_compute; reflexivity | vm_compute; reflexivity
    | vm_compute; reflexivity | vm_compute; reflexivity |].
  exists w'. split; [exact E|]. rewrite Hv. vm_compute. reflexivity.
Defined.

Lemma new_rows_products (t0 : nat) (ps : list product) :
  forall last,
    new_rows products_columns products_params (map product_tuple ps) last t0
    = zip_with (product_row t0) ps (next_ids last (length ps)).
Proof.
  unfold zip_with.
  induction ps as [|p ps IH]; intros last; [reflexivity|].
  cbn [map new_rows length next_ids combine fst snd]. rewrite IH. reflexivity.
Qed.


(** X9.  What [insert_products] stores is what [generate_product] made:
    for a batch of 1 to 100, the table gains one row per record, in
    order, with the name, category, price and stock of the record, the
    returned identifier, and the time of the statement as [created_at];
    the rows that were there are untouched, and so is the other
    table. *)
Theorem insert_products_stores_records (count : nat) (w : world) (tp : table) :
  (1 <= count <= 100)%nat -> calm 2 w -> session w = InSession None ->
  find_table "products" (server w) = Some tp -> tbl_columns tp = products_columns ->
  exists ps w0 ids w',
    replicateM count generate_product w = (inr ps, w0)
    /\ insert_products PyConn count w = (inr ids, w')
    /\ length ps = count /\ length ids = count
    /\ rows_of "products" (server w')
       = rows_of "products" (server w) ++ zip_with (product_row (S (now w))) ps ids
    /\ rows_of "sales" (server w') = rows_of "sales" (server w).
Proof.
  intros Hc Hq Hs Hf Hcols.
  destruct (insert_products_spec count w None (S (now w)) tp Hc Hq Hs eq_refl Hf Hcols)
    as (ps & k & w' & Egen & Hlen & E & Hv & _).
  exists ps, (set_drawn k w), (next_ids (tbl_serial tp) count), w'.
  split; [exact Egen|]. split; [exact E|]. split; [exact Hlen|].
  split; [apply next_ids_length|].
  pose proof (find_table_name _ _ _ Hf) as Hname.
  rewrite Hv. split.
  - rewrite (rows_of_put "products" tp) by (assumption || exact Hname).
    cbn [insert_rows tbl_rows]. rewrite Hcols, new_rows_products, Hlen.
    unfold rows_of at 1. rewrite Hf. reflexivity.
  - unfold rows_of. rewrite find_put_other; [reflexivity|].
    cbn [insert_rows tbl_name]. rewrite Hname. discriminate.
Qed.

Lemma insert_products_stores_records_witness :
  exists ids w',
    insert_products PyConn 2 seeded_world = (inr ids, w')
    /\ length (rows_of "products" (server w')) = 22%nat.
Proof.
  edestruct (insert_products_stores_records 2 seeded_world)
    as (ps & w0 & ids & w' & _ & E & Hp & Hi & Hr & _);
    [lia | vm_compute; repeat constructor | vm_compute; reflexivity
    | vm_compute; reflexivity | vm_compute; reflexivity |].
  exists ids, w'. split; [exact E|].
  rewrite Hr, length_app. unfold zip_with. rewrite length_map, length_combine, Hp, Hi.
  vm_compute. reflexivity.
Defined.



(** ** More on the pool query *)

Lemma nth_middle_split {A} (d : A) (l : list A) :
  forall i, (i < length l)%nat -> l = firstn i l ++ nth i l d :: skipn (S i) l.
Proof.
  induction l as [|x l IH]; intros i Hi; [cbn in Hi; lia|].
  destruct i as [|i]; [reflexivity|].
  cbn [firstn nth skipn app]. f_equal. apply IH. cbn [length] in Hi. lia.
Qed.

(** [ORDER BY RANDOM() LIMIT k] returns [k] of the rows, or all of them
    when there are fewer, each row at most once. *)
Lemma pick_random_sample {A} (k : nat) :
  forall (l : list A) (w : world),
    exists xs rest j,
      pick_random k l w = (inr xs, set_drawn j w)
      /\ length xs = Nat.min k (length l) /\ Permutation (xs ++ rest) l.
Proof.
  induction k as [|k IH]; intros l w.
  - exists [], l, (drawn w). cbn [pick_random]. unfold ret. destruct w.
    repeat split. apply Permutation_refl.
  - destruct l as [|x l].
    + exists [], [], (drawn w). cbn [pick_random]. unfold ret. destruct w.
      repeat split. apply Permutation_refl.
    + cbn [pick_random]. unfold bind at 1, randbelow at 1, bind at 1, draw, ret at 1.
      set (i := N.to_nat (entropy w (drawn w) mod N.of_nat (length (x :: l)))).
      assert (Hi : (i < length (x :: l))%nat) by (apply below_length; discriminate).
      destruct (IH (firstn i (x :: l) ++ skipn (S i) (x :: l)) (set_drawn (S (drawn w)) w))
        as (xs & rest & j & E & Hlen & Hperm).
      exists (nth i (x :: l) x :: xs), rest, j.
      erewrite bind_inr by exact E. unfold ret.
      split; [reflexivity|]. split.
      * cbn [length]. rewrite Hlen, length_app, length_firstn, length_skipn.
        cbn [length] in *. lia.
      * rewrite (nth_middle_split x (x :: l) i Hi) at 2.
        cbn [app]. apply Permutation_cons_app. exact Hperm.
Qed.

Lemma cur_execute_select_sample (limit : nat) (w : world) (tp : table) :
  calm 1 w -> session w = InSession None ->
  find_table "products" (server w) = Some tp ->
  exists rs rest k,
    cur_execute (SelectIdOrderByRandomLimit "products" limit) w
    = (inr (Some (map (fun r => [field "id" r]) rs)),
       set_session (InSession (Some (S (now w), server w)))
         (set_drawn k
            (after_external (EvExecute (SelectIdOrderByRandomLimit "products" limit)) w)))
    /\ length rs = Nat.min limit (length (tbl_rows tp))
    /\ Permutation (rs ++ rest) (tbl_rows tp).
Proof.
  intros Hq Hs Hf. rewrite (cur_execute_eq _ _ None Hq Hs). cbv zeta.
  cbn [begin_txn fst snd]. unfold run_stmt. rewrite Hf.
  destruct (pick_random_sample limit (tbl_rows tp)
              (after_external (EvExecute (SelectIdOrderByRandomLimit "products" limit)) w))
    as (rs & rest & k & E & Hlen & Hperm).
  exists rs, rest, k. erewrite bind_inr by exact E. unfold ret.
  repeat split; assumption.
Qed.

(** X11.  [get_random_product_ids] returns the identifiers of [limit]
    rows of [products], or of all of them when there are fewer, no row
    twice; the store is not changed, and the transaction that the query
    opened stays open, since the function does not commit. *)
Theorem get_random_product_ids_sample (limit : nat) (w : world) (tp : table) :
  calm 1 w -> session w = InSession None ->
  find_table "products" (server w) = Some tp ->
  exists rs rest w',
    get_random_product_ids PyConn limit w = (inr (map id_of rs), w')
    /\ length rs = Nat.min limit (length (tbl_rows tp))
    /\ Permutation (rs ++ rest) (tbl_rows tp)
    /\ server w' = server w
    /\ session w' = InSession (Some (S (now w), server w))
    /\ history w' = history w ++ [EvExecute (SelectIdOrderByRandomLimit "products" limit)].
Proof.
  intros Hq Hs Hf.
  destruct (cur_execute_select_sample limit w tp Hq Hs Hf)
    as (rs & rest & k & E & Hlen & Hperm).
  exists rs, rest. eexists. unfold get_random_product_ids.
  step (eapply conn_cursor_eq; exact Hs).
  step (exact E).
  cbn [cur_fetchall]. step (reflexivity). unfold ret.
  split; [rewrite map_map; reflexivity|].
  split; [exact Hlen|]. split; [exact Hperm|]. wnorm.
  split; [reflexivity|]. split; [reflexivity|].
  apply history_app. reflexivity.
Qed.

Lemma get_random_product_ids_sample_witness :
  exists ids w',
    get_random_product_ids PyConn 5 seeded_world = (inr ids, w')
    /\ length ids = 5%nat.
Proof.
  edestruct (get_random_product_ids_sample 5 seeded_world)
    as (rs & rest & w' & E & Hl & _);
    [vm_compute; repeat constructor | vm_compute; reflexivity | vm_compute; reflexivity |].
  exists (map id_of rs), w'. split; [exact E|].
  rewrite length_map, Hl. vm_compute. reflexivity.
Defined.

(** ** What the database functions leave in the history *)

Lemma only_statements_refl (w : world) : only_statements w w.
Proof. split; reflexivity. Qed.

Lemma only_statements_trans (w1 w2 w3 : world) :
  only_statements w1 w2 -> only_statements w2 w3 -> only_statements w1 w3.
Proof. intros [H1 H2] [H3 H4]. split; congruence. Qed.

Lemma sos_ret {A} (a : A) : sends_only_statements (ret a).
Proof. intros w. apply only_statements_refl. Qed.

Lemma sos_raise {A} (e : exn) : sends_only_statements (@raise world A e).
Proof. intros w. apply only_statements_refl. Qed.

Lemma sos_bind {A B} (c : M A) (k : A -> M B) :
  sends_only_statements c -> (forall a, sends_only_statements (k a)) ->
  sends_only_statements (bind c k).
Proof.
  intros Hc Hk w. unfold bind. pose proof (Hc w) as H.
  destruct (c w) as [[e|a] w1]; cbn [snd] in *; [exact H|].
  exact (only_statements_trans _ _ _ H (Hk a w1)).
Qed.

Lemma sos_reading {A B} (f : world -> A) (k : A -> M B) :
  (forall a, sends_only_statements (k a)) -> sends_only_statements (reading f k).
Proof. intros Hk w. exact (Hk (f w) w). Qed.

Lemma sos_draw : sends_only_statements draw.
Proof. intros w. split; reflexivity. Qed.

Lemma sos_external (ev : event) :
  is_statement ev = true -> sends_only_statements (external ev).
Proof.
  intros Hev w. unfold external, bind, record, tick, fault. cbn [fst snd].
  wnorm. destruct (fault_script w) as [|[e|] fs];
    (split; [unfold other_events; cbn [snd trace set_fault_script set_now set_trace filter];
             rewrite Hev; reflexivity | reflexivity]).
Qed.

Lemma sos_logger_debug (msg : string) : sends_only_statements (logger_debug msg).
Proof. intros w. apply only_statements_refl. Qed.

Lemma sos_randbelow (n : N) : sends_only_statements (randbelow n).
Proof. apply sos_bind; [apply sos_draw | intros; apply sos_ret]. Qed.

Lemma sos_random_uniform (a b : Q) : sends_only_statements (random_uniform a b).
Proof.
  apply sos_bind; [|intros; apply sos_ret].
  apply sos_bind; [apply sos_randbelow | intros; apply sos_ret].
Qed.

Lemma sos_random_randint (a b : Z) : sends_only_statements (random_randint a b).
Proof. apply sos_bind; [apply sos_randbelow | intros; apply sos_ret]. Qed.

Lemma sos_random_choice {A} (l : list A) : sends_only_statements (random_choice l).
Proof.
  destruct l as [|x l]; [apply sos_raise|].
  apply sos_bind; [apply sos_randbelow | intros; apply sos_ret].
Qed.

Lemma sos_fake_call (provider : Faker -> N -> string) :
  sends_only_statements (fake_call provider).
Proof.
  apply sos_bind; [apply sos_draw|]. intros d. apply sos_reading. intros f. apply sos_ret.
Qed.

Lemma sos_generate_product : sends_only_statements generate_product.
Proof.
  apply sos_bind; [apply sos_fake_call | intros].
  apply sos_bind; [apply sos_random_choice | intros].
  apply sos_bind; [apply sos_random_uniform | intros].
  apply sos_bind; [apply sos_random_randint | intros]. apply sos_ret.
Qed.

Lemma sos_generate_sale (ids : list Z) : sends_only_statements (generate_sale ids).
Proof.
  apply sos_bind; [apply sos_random_randint | intros].
  apply sos_bind; [apply sos_random_uniform | intros]. cbv zeta.
  apply sos_bind.
  { destruct ids; [apply sos_ret|].
    apply sos_bind; [apply sos_random_choice | intros; apply sos_ret]. }
  intros. apply sos_bind; [apply sos_fake_call | intros].
  apply sos_bind; [apply sos_fake_call | intros]. apply sos_ret.
Qed.

Lemma sos_replicateM {A} (count : nat) (c : M A) :
  sends_only_statements c -> sends_only_statements (replicateM count c).
Proof.
  intros Hc. induction count as [|n IH]; cbn [replicateM]; [apply sos_ret|].
  apply sos_bind; [exact Hc | intros].
  apply sos_bind; [exact IH | intros]. apply sos_ret.
Qed.

Lemma sos_pick_random {A} (k : nat) :
  forall l : list A, sends_only_statements (pick_random k l).
Proof.
  induction k as [|k IH]; intros l; cbn [pick_random]; [apply sos_ret|].
  destruct l as [|x l]; [apply sos_ret|].
  apply sos_bind; [apply sos_randbelow | intros]. cbv zeta.
  apply sos_bind; [apply IH | intros]. apply sos_ret.
Qed.

Lemma sos_run_stmt (s : stmt) (t0 : nat) (view : store) :
  sends_only_statements (run_stmt s t0 view).
Proof.
  destruct s as [tname cols|tname|tname cols tuples|tname limit]; cbn [run_stmt];
    destruct (find_table tname view) as [t|]; try apply sos_ret; try apply sos_raise.
  - destruct (forallb (has_column (tbl_columns t)) ("id" :: cols)
              && forallb (fun vals => Nat.eqb (length vals) (length cols)) tuples);
      [apply sos_ret | apply sos_raise].
  - apply sos_bind; [apply sos_pick_random | intros; apply sos_ret].
Qed.

Lemma sos_conn_cursor (conn : pyconn) : sends_only_statements (conn_cursor conn).
Proof.
  destruct conn; [apply sos_raise|]. intros w. cbn [conn_cursor].
  destruct (session w); apply only_statements_refl.
Qed.

Lemma only_statements_txn (w w' : world) (txn txn' : option (nat * store)) :
  session w = InSession txn -> only_statements w w' ->
  only_statements w (set_session (InSession txn') w').
Proof.
  intros Hs [H1 H2]. split; [exact H1|]. cbn [session set_session is_open].
  rewrite Hs. reflexivity.
Qed.

Lemma sos_cur_execute (s : stmt) : sends_only_statements (cur_execute s).
Proof.
  unfold cur_execute. apply sos_bind; [apply sos_external; reflexivity|].
  intros [] w. destruct (session w) as [|txn|] eqn:Hs; try apply only_statements_refl.
  pose proof (sos_run_stmt s) as Hr.
  destruct txn as [[t0 view]|].
  - specialize (Hr t0 view w).
    destruct (run_stmt s t0 view w) as [[e|[view' res]] w1]; cbn [snd] in *;
      exact (only_statements_txn _ _ _ _ Hs Hr).
  - specialize (Hr (now w) (server w) w).
    destruct (run_stmt s (now w) (server w) w) as [[e|[view' res]] w1]; cbn [snd] in *;
      exact (only_statements_txn _ _ _ _ Hs Hr).
Qed.

Lemma sos_conn_commit : sends_only_statements conn_commit.
Proof.
  unfold conn_commit. apply sos_bind; [apply sos_external; reflexivity|].
  intros [] w. destruct (session w) as [|[[t0 view]|]|] eqn:Hs;
    try apply only_statements_refl.
  split; [reflexivity|]. cbn [snd session set_session set_server is_open].
  rewrite Hs. reflexivity.
Qed.

Lemma sos_cur_fetchall (res : option (list tuple)) : sends_only_statements (cur_fetchall res).
Proof. destruct res; [apply sos_ret | apply sos_raise]. Qed.

Lemma sos_execute_pages (mk : list tuple -> stmt) (pages : list (list tuple)) :
  forall res, sends_only_statements (execute_pages mk pages res).
Proof.
  induction pages as [|page pages IH]; intros res; cbn [execute_pages]; [apply sos_ret|].
  apply sos_bind; [apply sos_cur_execute | intros; apply IH].
Qed.

Lemma sos_insert_products (conn : pyconn) (count : nat) :
  sends_only_statements (insert_products conn count).
Proof.
  unfold insert_products.
  apply sos_bind; [apply sos_replicateM, sos_generate_product | intros].
  apply sos_bind; [apply sos_conn_cursor | intros].
  apply sos_bind; [apply sos_execute_pages | intros].
  apply sos_bind; [apply sos_cur_fetchall | intros]. cbv zeta.
  apply sos_bind; [apply sos_conn_commit | intros].
  apply sos_bind; [apply sos_logger_debug | intros]. apply sos_ret.
Qed.

Lemma sos_insert_sales (conn : pyconn) (ids : list Z) (count : nat) :
  sends_only_statements (insert_sales conn ids count).
Proof.
  unfold insert_sales.
  apply sos_bind; [apply sos_replicateM, sos_generate_sale | intros].
  apply sos_bind; [apply sos_conn_cursor | intros].
  apply sos_bind; [apply sos_execute_pages | intros].
  apply sos_bind; [apply sos_cur_fetchall | intros]. cbv zeta.
  apply sos_bind; [apply sos_conn_commit | intros].
  apply sos_bind; [apply sos_logger_debug | intros]. apply sos_ret.
Qed.

Lemma sos_get_random_product_ids (conn : pyconn) (limit : nat) :
  sends_only_statements (get_random_product_ids conn limit).
Proof.
  unfold get_random_product_ids.
  apply sos_bind; [apply sos_conn_cursor | intros].
  apply sos_bind; [apply sos_cur_execute | intros].
  apply sos_bind; [apply sos_cur_fetchall | intros]. apply sos_ret.
Qed.

(** X12.  Whatever they return or raise, and on any connection,
    [insert_products], [insert_sales] and [get_random_product_ids] leave
    nothing in the history but statements and commits: their debug line
    is below the level of the logger and is not written, they do not
    sleep, and they neither open nor close the session. *)
Theorem database_functions_only_statements (conn : pyconn) (pool : list Z)
    (count limit : nat) (w : world) :
  only_statements w (snd (insert_products conn count w))
  /\ only_statements w (snd (insert_sales conn pool count w))
  /\ only_statements w (snd (get_random_product_ids conn limit w)).
Proof.
  split; [apply sos_insert_products|].
  split; [apply sos_insert_sales | apply sos_get_random_product_ids].
Qed.

(** ** More on [main] *)

(** Five refusals in a row. *)
Lemma get_db_connection_gives_up (w : world) (ms : list string) (m : string)
    (rest : list (option exn)) :
  calm (length ms) w ->
  connect_script w = map refuse ms ++ refuse m :: rest ->
  length ms = (max_retries - 1)%nat ->
  exists w',
    get_db_connection w = (inl (gave_up_exn (OperationalError m)), w')
    /\ session w' = session w /\ server w' = server w
    /\ trace w'
       = rev ([EvLog INFO "🔌 Attempting to connect to PostgreSQL..."]
              ++ refusals_events 0 ms
              ++ [EvLog INFO (attempt_msg (max_retries - 1)); EvConnect;
                  EvLog ERROR (failed_msg (OperationalError m));
                  EvLog CRITICAL gave_up_msg])
         ++ trace w.
Proof.
  intros Hq Hcs Hlen. unfold get_db_connection.
  erewrite bind_inr by apply logger_info_eq.
  destruct (attempts_refused ms 0 1 (refuse m :: rest)
              (set_trace (EvLog INFO "🔌 Attempting to connect to PostgreSQL..."
                          :: trace w) w))
    as (w1 & E1 & Hcs1 & Ht1 & Hf1 & Hs1 & He1 & Hv1);
    [exact Hcs | exact Hq | unfold max_retries in *; cbn; lia |].
  rewrite Hlen in E1. change (max_retries - 1 + 1)%nat with max_retries in E1.
  rewrite E1. cbn [Nat.add seq].
  destruct (last_attempt_refused m rest [] w1 Hcs1)
    as (w2 & E2 & Hcs2 & Hs2 & Ht2 & Hf2 & Hv2).
  rewrite E2. exists w2. split; [reflexivity|].
  split; [rewrite Hs2, Hs1; reflexivity|].
  split; [rewrite Hv2, Hv1; reflexivity|].
  rewrite Ht2, Ht1. wnorm.
  rewrite !rev_app_distr. cbn [rev app]. rewrite <- !app_assoc. reflexivity.
Qed.

(** X13.  When the store refuses all five connection attempts, [main]
    ends with the exception of [get_db_connection], uncaught: the exit
    status is 1, and the history holds the five attempts and nothing
    after the fatal line, so no statement was sent, nothing was closed
    and no final totals were logged. *)
Theorem main_connection_failure (fuel : nat) (w : world) (ms : list string) (m : string)
    (rest : list (option exn)) :
  calm 4 w ->
  connect_script w = map refuse ms ++ refuse m :: rest -> length ms = 4%nat ->
  exists w',
    main fuel w = (Uncaught (Exception_ ("Failed to connect after 5 attempts: " ++ m)), w')
    /\ exit_status (Uncaught (Exception_ ("Failed to connect after 5 attempts: " ++ m)))
       = Some 1%Z
    /\ session w' = session w /\ server w' = server w
    /\ history w'
       = history w
         ++ [EvLog INFO "🚀 Starting Debezium data generator...";
             EvLog INFO "🔌 Attempting to connect to PostgreSQL..."]
         ++ refusals_events 0 ms
         ++ [EvLog INFO "   Attempt 5/5..."; EvConnect;
             EvLog ERROR ("❌ Connection failed: " ++ m);
             EvLog CRITICAL "💥 Failed to connect after 5 attempts"].
Proof.
  intros Hq Hcs Hlen.
  destruct (get_db_connection_gives_up
              (set_trace (EvLog INFO "🚀 Starting Debezium data generator..." :: trace w) w)
              ms m rest) as (w' & E & Hs & Hv & Ht);
    [rewrite Hlen; exact Hq | exact Hcs | rewrite Hlen; reflexivity |].
  exists w'. unfold main, main_prologue.
  erewrite bind_inr by apply logger_info_eq. erewrite bind_inl by exact E.
  split; [reflexivity|]. split; [reflexivity|].
  split; [exact Hs|]. split; [exact Hv|].
  unfold history. rewrite Ht. wnorm.
  rewrite rev_app_distr, rev_involutive. cbn [rev app]. rewrite <- !app_assoc.
  reflexivity.
Qed.

Lemma main_connection_failure_witness :
  exists w',
    main 3 (demo_world [refuse "a"; refuse "b"; refuse "c"; refuse "d"; refuse "e"] [])
    = (Uncaught (Exception_ "Failed to connect after 5 attempts: e"), w')
    /\ session w' = NoSession.
Proof.
  destruct (main_connection_failure 3
              (demo_world [refuse "a"; refuse "b"; refuse "c"; refuse "d"; refuse "e"] [])
              ["a"; "b"; "c"; "d"] "e" [] (Forall_nil _) eq_refl eq_refl)
    as (w' & E & _ & Hs & _).
  exists w'. split; [exact E | exact Hs].
Defined.








(** ** The rhythm of the loop *)

Lemma same_turn_refl (s : locals * world) : same_turn s s.
Proof. split; [apply only_statements_refl | reflexivity]. Qed.

Lemma same_turn_trans (s1 s2 s3 : locals * world) :
  same_turn s1 s2 -> same_turn s2 s3 -> same_turn s1 s3.
Proof.
  intros [H1 H2] [H3 H4]. split; [exact (only_statements_trans _ _ _ H1 H3) | congruence].
Qed.

Lemma kt_ret {A} (a : A) : keeps_turn (ret a).
Proof. intros s. apply same_turn_refl. Qed.

Lemma kt_bind {A B} (c : F A) (k : A -> F B) :
  keeps_turn c -> (forall a, keeps_turn (k a)) -> keeps_turn (bind c k).
Proof.
  intros Hc Hk s. unfold bind. pose proof (Hc s) as H.
  destruct (c s) as [[e|a] s1]; cbn [snd] in *; [exact H|].
  exact (same_turn_trans _ _ _ H (Hk a s1)).
Qed.

Lemma kt_lift {A} (c : M A) : sends_only_statements c -> keeps_turn (lift c).
Proof.
  intros Hc [l w]. unfold lift. cbn [fst snd]. pose proof (Hc w) as H.
  destruct (c w) as [r w']. split; [exact H | reflexivity].
Qed.

Lemma kt_local {A} (f : locals -> A) : keeps_turn (local f).
Proof. intros s. apply same_turn_refl. Qed.

Lemma kt_assign (f : locals -> locals) :
  (forall l, iteration (f l) = iteration l) -> keeps_turn (assign f).
Proof. intros Hf [l w]. split; [apply only_statements_refl | apply Hf]. Qed.

Lemma kt_insert_step (conn : pyconn) : keeps_turn (insert_step conn).
Proof.
  unfold insert_step.
  apply kt_bind; [apply kt_lift, sos_random_randint | intros].
  apply kt_bind; [apply kt_lift, sos_insert_products | intros].
  apply kt_bind; [apply kt_assign; reflexivity | intros].
  apply kt_assign. reflexivity.
Qed.

Lemma kt_refresh_check (conn : pyconn) : keeps_turn (refresh_check conn).
Proof.
  unfold refresh_check. apply kt_bind; [apply kt_local | intros ids].
  destruct (Nat.ltb 100 (length ids)); [|apply kt_ret].
  apply kt_bind; [apply kt_lift, sos_get_random_product_ids | intros].
  apply kt_assign. reflexivity.
Qed.

Lemma kt_sales_step (conn : pyconn) : keeps_turn (sales_step conn).
Proof.
  unfold sales_step.
  apply kt_bind; [apply kt_lift, sos_random_randint | intros].
  apply kt_bind; [apply kt_local | intros].
  apply kt_bind; [apply kt_lift, sos_insert_sales | intros].
  apply kt_assign. reflexivity.
Qed.

Lemma time_sleep_inv (secs : nat) (w w' : world) :
  time_sleep secs w = (inr tt, w') ->
  trace w' = EvSleep secs :: trace w /\ session w' = session w.
Proof.
  unfold time_sleep, external, bind, record, tick, fault. wnorm.
  destruct (fault_script w) as [|[e|] fs]; intros [= <-]; split; reflexivity.
Qed.

(** The end of a turn: the progress line if the turn is a tenth one, and
    the pause. *)
Lemma report_step_events (l l' : locals) (w w' : world) :
  report_step (l, w) = (inr tt, (l', w')) ->
  l' = l
  /\ other_events w'
     = EvSleep 1
       :: (if Z.eqb (iteration l mod 10) 0 then [EvLog INFO (progress_msg l)] else [])
       ++ other_events w
  /\ is_open (session w') = is_open (session w).
Proof.
  unfold report_step. intros H.
  erewrite bind_inr in H by reflexivity. unfold id in H. cbn [fst snd] in H.
  destruct (Z.eqb (iteration l mod 10) 0).
  - erewrite bind_inr in H by (apply lift_inr, logger_info_eq).
    apply lift_inr_inv in H. destruct H as [H ->].
    apply time_sleep_inv in H. destruct H as [Ht Hs].
    unfold other_events. rewrite Ht, Hs. repeat split.
  - erewrite bind_inr in H by reflexivity.
    apply lift_inr_inv in H. destruct H as [H ->].
    apply time_sleep_inv in H. destruct H as [Ht Hs].
    unfold other_events. rewrite Ht, Hs. repeat split.
Qed.

Lemma loop_body_events (conn : pyconn) (l l' : locals) (w w' : world) :
  loop_body conn (l, w) = (inr tt, (l', w')) ->
  iteration l' = (iteration l + 1)%Z
  /\ other_events w'
     = EvSleep 1
       :: (if Z.eqb (iteration l' mod 10) 0 then [EvLog INFO (progress_msg l')] else [])
       ++ other_events w
  /\ is_open (session w') = is_open (session w).
Proof.
  unfold loop_body, upto_refresh_check. intros H.
  apply bind_inr_inv in H. destruct H as ([] & s2 & H12 & H).
  apply bind_inr_inv in H. destruct H as ([] & [l3 w3] & H23 & H).
  apply report_step_events in H. destruct H as (-> & Hev & Hop).
  erewrite bind_inr in H12 by reflexivity. cbn [fst snd] in H12.
  apply bind_inr_inv in H12. destruct H12 as ([] & s1 & H01 & H12).
  pose proof (kt_insert_step conn (set_iteration (iteration l + 1) l, w)) as K1.
  rewrite H01 in K1. cbn [snd] in K1.
  pose proof (kt_refresh_check conn s1) as K2. rewrite H12 in K2. cbn [snd] in K2.
  pose proof (kt_sales_step conn s2) as K3. rewrite H23 in K3. cbn [snd] in K3.
  destruct (same_turn_trans _ _ _ (same_turn_trans _ _ _ K1 K2) K3) as [[Ho Hs] Hi].
  cbn [fst snd iteration set_iteration] in Ho, Hs, Hi.
  split; [exact Hi|]. rewrite Hev, Hop, Ho, Hs. split; reflexivity.
Qed.

Lemma tenth_turn (a : Z) :
  ((a + 1) / 10 - a / 10 = if Z.eqb ((a + 1) mod 10) 0 then 1 else 0)%Z.
Proof.
  destruct (Z.eqb_spec ((a + 1) mod 10) 0) as [E|E];
    pose proof (Z.div_mod a 10 ltac:(lia));
    pose proof (Z.div_mod (a + 1) 10 ltac:(lia));
    pose proof (Z.mod_pos_bound a 10 ltac:(lia));
    pose proof (Z.mod_pos_bound (a + 1) 10 ltac:(lia)); lia.
Qed.

Lemma seconds_slept_app (l l' : list event) :
  seconds_slept (l ++ l') = (seconds_slept l + seconds_slept l')%nat.
Proof. unfold seconds_slept. rewrite map_app, list_sum_app. reflexivity. Qed.

Lemma while_true_events (conn : pyconn) (n : nat) :
  forall (l l' : locals) (w w' : world),
    while_true n (loop_body conn) (l, w) = (inr tt, (l', w')) ->
    iteration l' = (iteration l + Z.of_nat n)%Z
    /\ occurrences is_sleep (other_events w')
       = (occurrences is_sleep (other_events w) + n)%nat
    /\ seconds_slept (other_events w') = (seconds_slept (other_events w) + n)%nat
    /\ (Z.of_nat (occurrences is_log (other_events w'))
        = Z.of_nat (occurrences is_log (other_events w))
          + (iteration l' / 10 - iteration l / 10))%Z
    /\ occurrences is_connect (other_events w') = occurrences is_connect (other_events w)
    /\ occurrences is_close (other_events w') = occurrences is_close (other_events w)
    /\ is_open (session w') = is_open (session w).
Proof.
  induction n as [|n IH]; intros l l' w w' H.
  - cbn [while_true] in H. unfold ret in H. injection H as <- <-.
    repeat split; lia.
  - cbn [while_true] in H. apply bind_inr_inv in H.
    destruct H as ([] & [l1 w1] & H1 & H).
    apply loop_body_events in H1. destruct H1 as (Hi1 & He1 & Ho1).
    apply IH in H. destruct H as (Hi & Hsl & Hsec & Hlog & Hcn & Hcl & Ho).
    pose proof (tenth_turn (iteration l)) as Ht. rewrite <- Hi1 in Ht.
    rewrite He1 in Hsl, Hsec, Hlog, Hcn, Hcl.
    change (EvSleep 1 :: ?x ++ ?y) with ([EvSleep 1] ++ x ++ y) in Hsl, Hsec, Hlog, Hcn, Hcl.
    rewrite !occurrences_app in Hsl, Hlog, Hcn, Hcl.
    rewrite !seconds_slept_app in Hsec.
    split; [lia|].
    unfold occurrences, seconds_slept, list_sum in *.
    destruct (Z.eqb (iteration l1 mod 10) 0);
      cbn [filter is_sleep is_log is_connect is_close length map fold_right app]
        in Hsl, Hsec, Hlog, Hcn, Hcl;
      (split; [lia|]); (split; [lia|]); (split; [lia|]); (split; [lia|]);
      (split; [lia | congruence]).
Qed.

Lemma occurrences_history (f : event -> bool) (w : world) :
  occurrences f (history w) = occurrences f (trace w).
Proof.
  unfold occurrences, history. induction (trace w) as [|ev t IH]; [reflexivity|].
  cbn [rev]. rewrite filter_app, length_app, IH. cbn [filter].
  destruct (f ev); cbn [length]; lia.
Qed.

Lemma occurrences_other (f : event -> bool) (w : world) :
  (forall ev, f ev = true -> is_statement ev = false) ->
  occurrences f (other_events w) = occurrences f (trace w).
Proof.
  intros Hf. unfold occurrences, other_events.
  induction (trace w) as [|ev t IH]; [reflexivity|]. cbn [filter].
  destruct (is_statement ev) eqn:Es; cbn [negb filter].
  - destruct (f ev) eqn:Ef; [rewrite (Hf ev Ef) in Es; discriminate | exact IH].
  - destruct (f ev); cbn [length]; rewrite IH; reflexivity.
Qed.

Lemma seconds_slept_history (w : world) :
  seconds_slept (history w) = seconds_slept (other_events w).
Proof.
  unfold history, other_events. induction (trace w) as [|ev t IH]; [reflexivity|].
  cbn [rev filter]. rewrite seconds_slept_app, IH.
  destruct ev; cbn [is_statement negb]; unfold seconds_slept, list_sum;
    cbn [map fold_right]; lia.
Qed.

(** X16.  The rhythm of the loop.  After [n] completed turns, on any
    connection and from any state: the turn counter has advanced by [n];
    the loop has slept [n] times, one second each; it has written one
    log line for every turn whose number is a multiple of 10 and no
    other; and it has neither opened nor closed a connection. *)
Theorem loop_rhythm (n : nat) (conn : pyconn) (l l' : locals) (w w' : world) :
  while_true n (loop_body conn) (l, w) = (inr tt, (l', w')) ->
  iteration l' = (iteration l + Z.of_nat n)%Z
  /\ occurrences is_sleep (history w') = (occurrences is_sleep (history w) + n)%nat
  /\ seconds_slept (history w') = (seconds_slept (history w) + n)%nat
  /\ (Z.of_nat (occurrences is_log (history w'))
      = Z.of_nat (occurrences is_log (history w))
        + (iteration l' / 10 - iteration l / 10))%Z
  /\ occurrences is_connect (history w') = occurrences is_connect (history w)
  /\ occurrences is_close (history w') = occurrences is_close (history w).
Proof.
  intros H. apply while_true_events in H.
  destruct H as (Hi & Hsl & Hsec & Hlog & Hcn & Hcl & _).
  rewrite !occurrences_history, !seconds_slept_history.
  rewrite <- !(occurrences_other is_sleep) by (intros [] ?; (discriminate || reflexivity)).
  rewrite <- !(occurrences_other is_log) by (intros [] ?; (discriminate || reflexivity)).
  rewrite <- !(occurrences_other is_connect) by (intros [] ?; (discriminate || reflexivity)).
  rewrite <- !(occurrences_other is_close) by (intros [] ?; (discriminate || reflexivity)).
  repeat split; assumption.
Qed.

Lemma loop_rhythm_witness :
  exists l' w',
    while_true 2 (loop_body PyConn) (crowded_locals, seeded_world) = (inr tt, (l', w'))
    /\ iteration l' = 2%Z.
Proof.
  eexists. eexists. split; [vm_compute; reflexivity|].
  eapply (loop_rhythm 2 PyConn crowded_locals _ seeded_world).
  vm_compute. reflexivity.
Defined.

(** ** The logger *)

Lemma find_put_logger (name n : string) (lg : Logger) (d : list (string * Logger)) :
  find_logger n (put_logger name lg d)
  = if String.eqb name n then Some lg else find_logger n d.
Proof.
  induction d as [|[n' lg'] d IH]; cbn [put_logger find_logger].
  - destruct (String.eqb name n); reflexivity.
  - destruct (String.eqb_spec n' name) as [->|Hne]; cbn [find_logger].
    + destruct (String.eqb name n); reflexivity.
    + destruct (String.eqb_spec n' n) as [->|Hne'].
      * destruct (String.eqb_spec name n) as [->|_]; [congruence | reflexivity].
      * exact IH.
Qed.

Lemma put_put_logger (name : string) (lg lg' : Logger) (d : list (string * Logger)) :
  put_logger name lg' (put_logger name lg d) = put_logger name lg' d.
Proof.
  induction d as [|[n' l'] d IH]; cbn [put_logger].
  - rewrite String.eqb_refl. reflexivity.
  - destruct (String.eqb_spec n' name) as [->|Hne]; cbn [put_logger].
    + rewrite String.eqb_refl. reflexivity.
    + destruct (String.eqb_spec n' name); [congruence|]. rewrite IH. reflexivity.
Qed.

Lemma the_update_logger (r : logger_ref) (f : Logger -> Logger) (st : logging_state) :
  the_logger r (update_logger r f st) = f (the_logger r st).
Proof.
  destruct r as [|name]; [reflexivity|].
  cbn [the_logger update_logger set_loggerDict loggerDict].
  rewrite find_put_logger, String.eqb_refl. reflexivity.
Qed.

Lemma the_update_other (r r' : logger_ref) (f : Logger -> Logger) (st : logging_state) :
  r' <> r -> the_logger r' (update_logger r f st) = the_logger r' st.
Proof.
  intros Hne. destruct r as [|name], r' as [|name']; try reflexivity; [congruence|].
  cbn [the_logger update_logger set_loggerDict loggerDict].
  rewrite find_put_logger.
  destruct (String.eqb_spec name name') as [->|_]; [congruence | reflexivity].
Qed.

Lemma the_getLogger_other (name : string) (r' : logger_ref) (st : logging_state) :
  r' <> fst (getLogger name st) ->
  the_logger r' (snd (getLogger name st)) = the_logger r' st.
Proof.
  unfold getLogger.
  destruct (String.eqb name EmptyString || String.eqb name "root"); [reflexivity|].
  destruct (find_logger name (loggerDict st)) eqn:E; [reflexivity|].
  cbn [fst snd]. intros Hne. destruct r' as [|name']; [reflexivity|].
  cbn [the_logger set_loggerDict loggerDict]. rewrite find_put_logger.
  destruct (String.eqb_spec name name') as [->|_]; [congruence | reflexivity].
Qed.

(** Asking again for a logger gives the same logger and creates
    nothing. *)
Lemma getLogger_again (name : string) (st : logging_state) :
  getLogger name (snd (getLogger name st)) = getLogger name st.
Proof.
  unfold getLogger.
  destruct (String.eqb name EmptyString || String.eqb name "root") eqn:E;
    cbn [snd]; [reflexivity|].
  destruct (find_logger name (loggerDict st)) eqn:F; cbn [snd].
  - rewrite F. reflexivity.
  - cbn [set_loggerDict loggerDict].
    rewrite find_put_logger, String.eqb_refl. reflexivity.
Qed.

(** After an update of the logger it returned, [getLogger] still returns
    it and creates nothing. *)
Lemma getLogger_update (name : string) (f : Logger -> Logger) (st : logging_state) :
  getLogger name (update_logger (fst (getLogger name st)) f (snd (getLogger name st)))
  = (fst (getLogger name st),
     update_logger (fst (getLogger name st)) f (snd (getLogger name st))).
Proof.
  unfold getLogger.
  destruct (String.eqb name EmptyString || String.eqb name "root") eqn:E;
    cbn [fst snd update_logger root loggerDict]; [reflexivity|].
  destruct (find_logger name (loggerDict st)) eqn:F;
    cbn [fst snd update_logger set_loggerDict loggerDict the_logger];
    rewrite ?find_put_logger, ?String.eqb_refl; reflexivity.
Qed.

Lemma getLogger_streams (name : string) (st : logging_state) :
  getLogger name (reconfigure_streams st)
  = (fst (getLogger name st), reconfigure_streams (snd (getLogger name st))).
Proof.
  unfold getLogger.
  destruct (String.eqb name EmptyString || String.eqb name "root"); [reflexivity|].
  cbn [reconfigure_streams loggerDict].
  destruct (find_logger name (loggerDict st)); reflexivity.
Qed.

Lemma the_logger_streams (r : logger_ref) (st : logging_state) :
  the_logger r (reconfigure_streams st) = the_logger r st.
Proof. destruct r; reflexivity. Qed.

Lemma update_logger_streams (r : logger_ref) (f : Logger -> Logger) (st : logging_state) :
  update_logger r f (reconfigure_streams st) = reconfigure_streams (update_logger r f st).
Proof. destruct r; reflexivity. Qed.

(** What [get_logger] does to a logger that has no handler yet. *)
Lemma get_logger_fresh (name : string) (st : logging_state) :
  lg_handlers (the_logger (fst (getLogger name st)) (snd (getLogger name st))) = [] ->
  get_logger name st
  = (fst (getLogger name st),
     reconfigure_streams
       (update_logger (fst (getLogger name st))
          (fun _ => {| lg_level := levelno INFO; lg_handlers := [console_handler] |})
          (snd (getLogger name st)))).
Proof.
  intros Hh. unfold get_logger.
  destruct (getLogger name st) as [r st1]. cbn [fst snd] in *. rewrite Hh.
  rewrite update_logger_streams. f_equal. f_equal.
  destruct r as [|n]; cbn [update_logger the_logger root loggerDict set_loggerDict].
  - cbn [the_logger] in Hh. unfold addHandler, setLevel. cbn [lg_handlers lg_level].
    rewrite Hh. reflexivity.
  - rewrite find_put_logger, String.eqb_refl, put_put_logger.
    cbn [the_logger] in Hh. unfold addHandler, setLevel. cbn [lg_handlers lg_level].
    destruct (find_logger n (loggerDict st1)) as [lg|]; cbn [lg_handlers] in *;
      rewrite ?Hh; reflexivity.
Qed.

Lemma get_logger_configured (name : string) (st : logging_state) :
  lg_handlers (the_logger (fst (getLogger name st)) (snd (getLogger name st))) <> [] ->
  get_logger name st = getLogger name st.
Proof.
  intros Hh. unfold get_logger.
  destruct (getLogger name st) as [r st1]. cbn [fst snd] in *.
  destruct (lg_handlers (the_logger r st1)); [congruence | reflexivity].
Qed.

(** X17.  [get_logger] configures a logger once: a second call with the
    same name returns the same logger and changes nothing, so that a
    logger which had no handler has exactly one afterwards, however often
    [get_logger] is called. *)
Theorem get_logger_idempotent (name : string) (st : logging_state) (calls : nat) :
  get_logger name (snd (get_logger name st)) = get_logger name st
  /\ snd (Nat.iter (S calls) (fun rs => get_logger name (snd rs)) (RootLogger, st))
     = snd (get_logger name st).
Proof.
  assert (Hagain : get_logger name (snd (get_logger name st)) = get_logger name st).
  { destruct (lg_handlers (the_logger (fst (getLogger name st)) (snd (getLogger name st))))
      as [|h hs] eqn:Hh.
    - rewrite (get_logger_fresh name st Hh). cbn [snd].
      rewrite get_logger_configured.
      + rewrite getLogger_streams, getLogger_update. reflexivity.
      + rewrite getLogger_streams, getLogger_update. cbn [fst snd].
        rewrite the_logger_streams, the_update_logger. discriminate.
    - assert (Hne : lg_handlers (the_logger (fst (getLogger name st))
                                   (snd (getLogger name st))) <> [])
        by (rewrite Hh; discriminate).
      rewrite (get_logger_configured name st Hne).
      rewrite get_logger_configured; rewrite getLogger_again; [reflexivity | exact Hne]. }
  split; [exact Hagain|].
  induction calls as [|k IH]; [reflexivity|].
  change (Nat.iter (S (S k)) ?f ?x) with (f (Nat.iter (S k) f x)).
  cbv beta. rewrite IH, Hagain. reflexivity.
Qed.

(** X18.  On a logger that has no handler yet, new or not, [get_logger]
    sets the level to INFO and installs one handler: to standard output,
    at level INFO, with the line format of the module; it makes the
    standard streams line-buffered where they can be reconfigured; and it
    leaves every other logger as it was. *)
Theorem get_logger_configures (name : string) (st : logging_state) :
  lg_handlers (the_logger (fst (getLogger name st)) (snd (getLogger name st))) = [] ->
  let r := fst (get_logger name st) in
  let st' := snd (get_logger name st) in
  r = fst (getLogger name st)
  /\ the_logger r st'
     = {| lg_level := levelno logger_level;
          lg_handlers := [{| hdlr_stream := Stdout; hdlr_level := levelno INFO;
                             hdlr_formatter :=
                               Some {| fmt := "[%(asctime)s] %(levelname)s - %(message)s";
                                       datefmt := "%Y-%m-%dT%H:%M:%S" |} |}] |}
  /\ (forall r', r' <> r -> the_logger r' st' = the_logger r' st)
  /\ sys_stdout st' = reconfigure_if_possible (sys_stdout st)
  /\ sys_stderr st' = reconfigure_if_possible (sys_stderr st).
Proof.
  intros Hh. cbv zeta. rewrite (get_logger_fresh name st Hh). cbn [fst snd].
  split; [reflexivity|].
  split; [rewrite the_logger_streams, the_update_logger; reflexivity|].
  split.
  - intros r' Hne. rewrite the_logger_streams, the_update_other by exact Hne.
    apply the_getLogger_other. exact Hne.
  - unfold getLogger.
    destruct (String.eqb name EmptyString || String.eqb name "root");
      [split; reflexivity|].
    destruct (find_logger name (loggerDict st)); split; reflexivity.
Qed.

Lemma get_logger_configures_witness :
  the_logger (fst (get_logger "data-generator"
                     (initial_logging {| has_reconfigure := true; line_buffering := false |}
                                      {| has_reconfigure := true; line_buffering := false |})))
             (snd (get_logger "data-generator"
                     (initial_logging {| has_reconfigure := true; line_buffering := false |}
                                      {| has_reconfigure := true; line_buffering := false |})))
  = {| lg_level := 20; lg_handlers := [console_handler] |}.
Proof.
  exact (proj1 (proj2 (get_logger_configures "data-generator"
                         (initial_logging
                            {| has_reconfigure := true; line_buffering := false |}
                            {| has_reconfigure := true; line_buffering := false |})
                         eq_refl))).
Defined.

(** X19.  A logger that already has a handler is returned as it is:
    [get_logger] does not set its level, adds no handler and does not
    touch the streams. *)
Theorem get_logger_keeps_configured (name : string) (st : logging_state) (lg : Logger) :
  find_logger name (loggerDict st) = Some lg -> lg_handlers lg <> [] ->
  String.eqb name EmptyString || String.eqb name "root" = false ->
  get_logger name st = (NamedLogger name, st).
Proof.
  intros Hf Hh Hn.
  assert (G : getLogger name st = (NamedLogger name, st))
    by (unfold getLogger; rewrite Hn, Hf; reflexivity).
  rewrite get_logger_configured; [exact G|].
  rewrite G. cbn [fst snd the_logger]. rewrite Hf. exact Hh.
Qed.

Lemma get_logger_keeps_configured_witness :
  get_logger "app"
    {| root := {| lg_level := 30; lg_handlers := [] |};
       loggerDict := [("app", {| lg_level := 10; lg_handlers := [StreamHandler Stderr] |})];
       sys_stdout := {| has_reconfigure := true; line_buffering := false |};
       sys_stderr := {| has_reconfigure := true; line_buffering := false |} |}
  = (NamedLogger "app",
     {| root := {| lg_level := 30; lg_handlers := [] |};
        loggerDict := [("app", {| lg_level := 10; lg_handlers := [StreamHandler Stderr] |})];
        sys_stdout := {| has_reconfigure := true; line_buffering := false |};
        sys_stderr := {| has_reconfigure := true; line_buffering := false |} |}).
Proof.
  apply (get_logger_keeps_configured "app" _
           {| lg_level := 10; lg_handlers := [StreamHandler Stderr] |});
    [reflexivity | discriminate | reflexivity].
Defined.

(** ** Batches of more than a page *)

Lemma paginate_from_full {A} (page_size : nat) (l : list A) :
  forall (cur : list A) (room : nat),
    (1 <= room <= length l)%nat ->
    paginate_from page_size cur room l
    = (rev cur ++ firstn room l) :: paginate_from page_size [] page_size (skipn room l).
Proof.
  induction l as [|x l IH]; intros cur room Hr; [cbn [length] in Hr; lia|].
  cbn [paginate_from]. destruct room as [|[|room]]; [lia| |].
  - cbn [firstn skipn rev]. reflexivity.
  - rewrite IH by (cbn [length] in Hr; lia).
    cbn [rev firstn skipn]. rewrite <- app_assoc. reflexivity.
Qed.

(** A batch of [100 * q + r] rows, [r] from 1 to 100, makes [q] full pages
    and a last page of [r] rows. *)
Lemma paginate_pages {A} (q : nat) :
  forall (l : list A) (r : nat),
    length l = (100 * q + r)%nat -> (1 <= r <= 100)%nat ->
    exists front lastp,
      paginate l 100 = front ++ [lastp]
      /\ length front = q /\ concat front ++ lastp = l
      /\ length (concat front) = (100 * q)%nat /\ length lastp = r.
Proof.
  induction q as [|q IH]; intros l r Hl Hr.
  - exists [], l. rewrite paginate_single by lia. repeat split. lia.
  - unfold paginate. rewrite paginate_from_full by lia. cbn [rev app].
    destruct (IH (skipn 100 l) r) as (front & lastp & E & Hf & Hc & Hcl & Hlp);
      [rewrite length_skipn; lia | exact Hr |].
    exists (firstn 100 l :: front), lastp. unfold paginate in E. rewrite E.
    split; [reflexivity|]. split; [cbn [length]; lia|].
    cbn [concat]. rewrite <- app_assoc, Hc, firstn_skipn.
    split; [reflexivity|]. split; [|exact Hlp].
    rewrite length_app, length_firstn, Hcl. lia.
Qed.

Lemma new_rows_app (columns : list column) (cols : list string) (t0 : nat)
    (a b : list tuple) :
  forall last,
    new_rows columns cols (a ++ b) last t0
    = new_rows columns cols a last t0
      ++ new_rows columns cols b (last + Z.of_nat (length a)) t0.
Proof.
  induction a as [|x a IH]; intros last.
  - cbn [app new_rows length]. rewrite Z.add_0_r. reflexivity.
  - cbn [app new_rows length]. rewrite IH. do 3 f_equal. lia.
Qed.

Lemma insert_rows_app (t : table) (cols : list string) (a b : list tuple) (t0 : nat) :
  insert_rows (insert_rows t cols a t0) cols b t0 = insert_rows t cols (a ++ b) t0.
Proof.
  unfold insert_rows. cbn [tbl_name tbl_columns tbl_replica_full tbl_serial tbl_rows].
  rewrite new_rows_app, <- app_assoc, length_app, Nat2Z.inj_add, Z.add_assoc. reflexivity.
Qed.

Lemma put_put_table (t1 t2 : table) (s : store) :
  tbl_name t2 = tbl_name t1 -> put_table t2 (put_table t1 s) = put_table t2 s.
Proof.
  intros Hn. induction s as [|t s IH]; [reflexivity|]. cbn [put_table]. rewrite Hn.
  destruct (String.eqb (tbl_name t) (tbl_name t1)) eqn:E; cbn [put_table]; rewrite Hn.
  - rewrite String.eqb_refl. reflexivity.
  - rewrite E, IH. reflexivity.
Qed.

(** The pages of an INSERT, one statement each, in one transaction: all
    the rows are inserted, and the cursor is left with the identifiers of
    the last page. *)
Lemma execute_pages_insert (tname : string) (cols : list string) (t0 : nat)
    (front : list (list tuple)) :
  forall (lastp : list tuple) (w : world) (txn : option (nat * store)) (view : store)
         (t : table) (res : option (list tuple)),
    calm (S (length front)) w -> session w = InSession txn ->
    begin_txn txn (S (now w)) (server w) = (t0, view) ->
    find_table tname view = Some t ->
    forallb (has_column (tbl_columns t)) ("id" :: cols) = true ->
    (forall page, In page (front ++ [lastp]) ->
       forallb (fun vals => Nat.eqb (length vals) (length cols)) page = true) ->
    exists w',
      execute_pages (InsertValuesReturningId tname cols) (front ++ [lastp]) res w
      = (inr (Some (map (fun r => [field "id" r])
                        (new_rows (tbl_columns t) cols lastp
                           (tbl_serial t + Z.of_nat (length (concat front))) t0))), w')
      /\ session w'
         = InSession (Some (t0, put_table (insert_rows t cols (concat front ++ lastp) t0)
                                  view))
      /\ server w' = server w
      /\ fault_script w' = skipn (S (length front)) (fault_script w)
      /\ occurrences is_execute (trace w')
         = (S (length front) + occurrences is_execute (trace w))%nat
      /\ other_events w' = other_events w.
Proof.
  induction front as [|p front IH]; intros lastp w txn view t res Hq Hs Hb Hf Hc Hw.
  - cbn [app execute_pages length concat].
    erewrite bind_inr
      by (apply (cur_execute_insert tname cols lastp w txn t0 view t);
          [exact Hq | exact Hs | exact Hb | exact Hf | exact Hc
          | apply Hw; left; reflexivity]).
    unfold ret. eexists. split; [rewrite Z.add_0_r; reflexivity|].
    wnorm. repeat split; reflexivity.
  - cbn [app execute_pages length concat].
    erewrite bind_inr
      by (apply (cur_execute_insert tname cols p w txn t0 view t);
          [exact (calm_le 1 (S (length (p :: front))) w ltac:(lia) Hq)
          | exact Hs | exact Hb | exact Hf | exact Hc
          | apply Hw; left; reflexivity]).
    pose proof (find_table_name _ _ _ Hf) as Hname.
    set (w1 := set_session
                 (InSession (Some (t0, put_table (insert_rows t cols p t0) view)))
                 (after_external (EvExecute (InsertValuesReturningId tname cols p)) w)).
    destruct (IH lastp w1 (Some (t0, put_table (insert_rows t cols p t0) view))
                (put_table (insert_rows t cols p t0) view) (insert_rows t cols p t0)
                (Some (map (fun r => [field "id" r])
                           (new_rows (tbl_columns t) cols p (tbl_serial t) t0))))
      as (w' & E & Hs' & Hv' & Hf' & Ho' & He').
    + apply (calm_skipn (S (length front)) 1 w w1); [subst w1; script_tac | exact Hq].
    + reflexivity.
    + reflexivity.
    + apply (find_put_same tname view t); [exact Hf | exact Hname].
    + exact Hc.
    + intros page Hin. apply Hw. right. exact Hin.
    + exists w'. split.
      { rewrite E. cbn [insert_rows tbl_columns tbl_serial].
        rewrite length_app, Nat2Z.inj_add, Z.add_assoc. reflexivity. }
      split.
      { rewrite Hs', insert_rows_app, put_put_table, <- app_assoc by reflexivity.
        reflexivity. }
      split; [rewrite Hv'; reflexivity|].
      split; [rewrite Hf'; subst w1; wnorm; rewrite ?tl_skipn1, ?skipn_skipn; f_equal; lia|].
      split; [rewrite Ho'; subst w1; wnorm; unfold occurrences; cbn [filter is_execute length]; lia
             | rewrite He'; reflexivity].
Qed.

(** X20.  [insert_products] on a batch of more than 100 records, say
    [100 * q + r] with [r] from 1 to 100: [execute_values] sends [q + 1]
    statements in one transaction, every record is inserted under the
    next identifiers, in order, but the function returns the [r]
    identifiers of the last statement only; for a batch of at most 100 it
    returns them all. *)
Theorem insert_products_large_batch (q r : nat) (w : world) (tp : table) :
  (1 <= r <= 100)%nat -> calm (q + 2) w -> session w = InSession None ->
  find_table "products" (server w) = Some tp -> tbl_columns tp = products_columns ->
  exists ps w0 w',
    replicateM (100 * q + r) generate_product w = (inr ps, w0)
    /\ insert_products PyConn (100 * q + r) w
       = (inr (next_ids (tbl_serial tp + Z.of_nat (100 * q)) r), w')
    /\ rows_of "products" (server w')
       = rows_of "products" (server w)
         ++ zip_with (product_row (S (now w))) ps
              (next_ids (tbl_serial tp) (100 * q + r))
    /\ occurrences is_execute (history w')
       = (occurrences is_execute (history w) + q + 1)%nat
    /\ session w' = InSession None.
Proof.
  intros Hr Hq Hs Hf Hcols.
  destruct (replicateM_draws generate_product (fun _ => True) generate_product_draws
              (100 * q + r) w) as (ps & k & Egen & Hlen & _).
  destruct (paginate_pages q (map product_tuple ps) r) as
      (front & lastp & Ep & Hfl & Hc & Hcl & Hlp);
    [rewrite length_map; exact Hlen | exact Hr |].
  destruct (execute_pages_insert "products" products_params (S (now w)) front lastp
              (set_drawn k w) None (server w) tp None) as (w1 & E1 & Hs1 & Hv1 & Hf1 & Ho1 & He1).
  { rewrite Hfl. exact (calm_le (S q) (q + 2) w ltac:(lia) Hq). }
  { exact Hs. }
  { reflexivity. }
  { exact Hf. }
  { rewrite Hcols. reflexivity. }
  { intros page Hin. apply forallb_forall. intros vals Hv.
    assert (Hall : In vals (map product_tuple ps)).
    { rewrite <- Hc. apply in_app_or in Hin. destruct Hin as [Hin|[<-|[]]].
      - apply in_or_app. left. apply in_concat. exists page. split; assumption.
      - apply in_or_app. right. exact Hv. }
    apply in_map_iff in Hall. destruct Hall as (p & <- & _). reflexivity. }
  exists ps, (set_drawn k w). eexists. split; [exact Egen|].
  unfold insert_products.
  step (exact Egen).
  step (eapply conn_cursor_eq; exact Hs).
  unfold execute_values. rewrite Ep.
  step (exact E1).
  cbn [cur_fetchall]. step (reflexivity).
  step (eapply conn_commit_eq;
        [apply (calm_skipn 1 (S (length front)) w w1 Hf1);
         rewrite Hfl; exact (calm_le (S q + 1) (q + 2) w ltac:(lia) Hq)
        | exact Hs1]).
  step (apply logger_debug_eq).
  unfold ret. split.
  { rewrite Hcols, (new_rows_ids products_columns products_params (S (now w))
                      (fun vals id => products_new_row_id vals id (S (now w)))), Hcl, Hlp.
    reflexivity. }
  pose proof (find_table_name _ _ _ Hf) as Hname.
  wnorm. split.
  { rewrite Hc, (rows_of_put "products" tp) by (assumption || exact Hname).
    cbn [insert_rows tbl_rows]. rewrite Hcols, new_rows_products, Hlen.
    unfold rows_of at 1. rewrite Hf. reflexivity. }
  split; [|reflexivity].
  rewrite !occurrences_history. wnorm. unfold occurrences in *.
  cbn [filter is_execute]. rewrite Ho1, Hfl. wnorm. lia.
Qed.

Lemma insert_products_large_batch_witness :
  exists ids w',
    insert_products PyConn 101 provisioned_world = (inr ids, w')
    /\ length ids = 1%nat
    /\ length (rows_of "products" (server w')) = 101%nat.
Proof.
  edestruct (insert_products_large_batch 1 1 provisioned_world)
    as (ps & w0 & w' & Eg & E & Hr & _);
    [lia | repeat constructor | reflexivity | reflexivity | reflexivity |].
  eexists. exists w'. split; [exact E|]. split; [reflexivity|].
  rewrite Hr, length_app. unfold zip_with. rewrite length_map, length_combine, next_ids_length.
  change (rows_of "products" (server provisioned_world)) with (@nil row).
  cbn [length Nat.add].
  destruct (replicateM_draws generate_product (fun _ => True) generate_product_draws
              (100 * 1 + 1) provisioned_world) as (ps' & k & Egen & Hlen & _).
  rewrite Egen in Eg. injection Eg as <- _. rewrite Hlen. reflexivity.
Defined.

(** ** Sales refer to products *)

(** The pool that [main] starts its loop with is what the seeding
    returned, and [total_products] is its size. *)
Lemma main_prologue_pool (w w1 : world) (conn : pyconn) (l : locals) :
  main_prologue w = (inr (conn, l), w1) ->
  total_products l = Z.of_nat (length (product_ids l)).
Proof.
  unfold main_prologue. intros H.
  apply bind_inr_inv in H. destruct H as ([] & s1 & _ & H).
  apply bind_inr_inv in H. destruct H as (conn0 & s2 & _ & H).
  apply bind_inr_inv in H. destruct H as ([] & s3 & _ & H).
  apply bind_inr_inv in H. destruct H as ([] & s4 & _ & H).
  apply bind_inr_inv in H. destruct H as (ids & s5 & _ & H).
  apply bind_inr_inv in H. destruct H as ([] & s6 & _ & H).
  apply bind_inr_inv in H. destruct H as ([] & s7 & _ & H).
  apply bind_inr_inv in H. destruct H as ([] & s8 & _ & H).
  unfold ret in H. injection H as _ <- _. reflexivity.
Qed.

Lemma insert_step_pool (np ns : nat) (l l' : locals) (w w' : world) :
  steady np ns l w -> calm 2 w ->
  insert_step PyConn (l, w) = (inr tt, (l', w')) ->
  product_ids l' <> []
  /\ rows_of "sales" (server w') = rows_of "sales" (server w).
Proof.
  intros (Hs & Hb & Ht0 & tp & ts & Hfp & Hcp & Hfs & Hcs & _) Hq H.
  unfold insert_step in H.
  erewrite bind_inr in H by (apply lift_inr, random_randint_eq).
  destruct (one_or_two (entropy w (drawn w))) as [Hc _].
  set (c := Z.to_nat (1 + Z.of_N (entropy w (drawn w) mod Z.to_N (2 - 1 + 1)))) in *.
  destruct (insert_products_spec c (set_drawn (S (drawn w)) w) None (S (now w)) tp
              ltac:(lia) Hq Hs eq_refl Hfp Hcp)
    as (ps & k & w1 & _ & _ & E & Hsrv & _).
  erewrite bind_inr in H by (apply lift_inr; exact E).
  erewrite bind_inr in H by reflexivity.
  unfold assign in H. cbn [fst snd] in H. injection H as <- <-.
  cbn [product_ids set_total_products set_product_ids]. split.
  - destruct c as [|c]; [lia|]. cbn [next_ids]. intros Hnil.
    apply app_eq_nil in Hnil. destruct Hnil as [_ Hnil]. discriminate.
  - rewrite Hsrv. wnorm. unfold rows_of. rewrite find_put_other; [reflexivity|].
    cbn [insert_rows tbl_name]. rewrite (find_table_name _ _ _ Hfp). discriminate.
Qed.

Lemma refresh_check_pool (np ns : nat) (l l' : locals) (w w' : world) :
  steady np ns l w -> calm 1 w -> (1 <= np)%nat -> product_ids l <> [] ->
  refresh_check PyConn (l, w) = (inr tt, (l', w')) ->
  product_ids l' <> [] /\ server w' = server w.
Proof.
  intros (Hs & Hb & Ht0 & tp & ts & Hfp & Hcp & Hfs & Hcs & Hnp & _) Hq Hpos Hpool H.
  unfold refresh_check in H. erewrite bind_inr in H by reflexivity. cbn [fst snd] in H.
  destruct (Nat.ltb 100 (length (product_ids l))).
  - destruct (cur_execute_select_sample 100 w tp Hq Hs Hfp)
      as (rs & rest & k & E & Hlen & _).
    assert (Eg : get_random_product_ids PyConn 100 w
                 = (inr (map row0 (map (fun r => [field "id" r]) rs)),
                    set_session (InSession (Some (S (now w), server w)))
                      (set_drawn k
                         (after_external
                            (EvExecute (SelectIdOrderByRandomLimit "products" 100)) w)))).
    { unfold get_random_product_ids.
      step (eapply conn_cursor_eq; exact Hs).
      step (exact E). cbn [cur_fetchall]. step (reflexivity). reflexivity. }
    erewrite bind_inr in H by (apply lift_inr; exact Eg).
    unfold assign in H. cbn [fst snd] in H. injection H as <- <-.
    cbn [product_ids set_product_ids]. split; [|reflexivity].
    intros Hnil. apply (f_equal (@length Z)) in Hnil.
    rewrite !length_map, Hlen, Hnp in Hnil. cbn [length] in Hnil. lia.
  - unfold ret in H. injection H as <- <-. split; [exact Hpool | reflexivity].
Qed.

Lemma new_sales_have_product (ids : list Z) (ss : list sale) (t0 : nat) :
  ids <> [] -> Forall (refers_to ids) ss ->
  forall last,
    Forall has_product (new_rows sales_columns sales_params (map sale_tuple ss) last t0).
Proof.
  intros Hne Hrefs. induction Hrefs as [|s ss Hs _ IH]; intros last;
    cbn [map new_rows]; constructor; [|apply IH].
  unfold has_product. rewrite sales_new_row_product_id. unfold refers_to in Hs.
  destruct (product_id s) as [i|]; [exists i; reflexivity | contradiction].
Qed.

Lemma sales_step_refs (txn : option (nat * store)) (t0 np ns : nat) (l l' : locals)
    (w w' : world) :
  inv txn t0 np ns l w -> calm 2 w -> product_ids l <> [] ->
  Forall has_product (rows_of "sales" (server w)) ->
  sales_step PyConn (l, w) = (inr tt, (l', w')) ->
  product_ids l' = product_ids l /\ Forall has_product (rows_of "sales" (server w')).
Proof.
  intros (Hs & Hb & Ht0 & tp & ts & Hfp & Hcp & Hfs & Hcs & _) Hq Hpool Hold H.
  unfold sales_step in H.
  erewrite bind_inr in H by (apply lift_inr, random_randint_eq).
  erewrite bind_inr in H by reflexivity. cbn [fst snd] in H.
  destruct (one_or_two (entropy w (drawn w))) as [Hc _].
  set (c := Z.to_nat (1 + Z.of_N (entropy w (drawn w) mod Z.to_N (2 - 1 + 1)))) in *.
  destruct (insert_sales_spec (product_ids l) c (set_drawn (S (drawn w)) w) txn t0 ts
              ltac:(lia) Hq Hs Hb Hfs Hcs)
    as (ss & k & w1 & _ & _ & Hrefs & E & Hsrv & _).
  erewrite bind_inr in H by (apply lift_inr; exact E).
  unfold assign in H. cbn [fst snd] in H. injection H as <- <-.
  split; [reflexivity|].
  rewrite Hsrv. wnorm.
  rewrite (rows_of_put "sales" ts) by (assumption || exact (find_table_name _ _ _ Hfs)).
  cbn [insert_rows tbl_rows]. rewrite Hcs. apply Forall_app. split.
  - unfold rows_of in Hold. rewrite Hfs in Hold. exact Hold.
  - apply (new_sales_have_product (product_ids l)); assumption.
Qed.

Lemma report_step_server (l l' : locals) (w w' : world) :
  report_step (l, w) = (inr tt, (l', w')) -> l' = l /\ server w' = server w.
Proof.
  unfold report_step. intros H.
  erewrite bind_inr in H by reflexivity. unfold id in H. cbn [fst snd] in H.
  assert (Hsleep : forall v v', time_sleep 1 v = (inr tt, v') -> server v' = server v).
  { intros v v'. unfold time_sleep, external, bind, record, tick, fault. wnorm.
    destruct (fault_script v) as [|[e|] fs]; intros [= <-]; reflexivity. }
  destruct (Z.eqb (iteration l mod 10) 0).
  - erewrite bind_inr in H by (apply lift_inr, logger_info_eq).
    apply lift_inr_inv in H. destruct H as [H ->].
    split; [reflexivity | exact (Hsleep _ _ H)].
  - erewrite bind_inr in H by reflexivity.
    apply lift_inr_inv in H. destruct H as [H ->].
    split; [reflexivity | exact (Hsleep _ _ H)].
Qed.

(** A turn of the loop keeps the pool non-empty, so the sales it inserts
    refer to products. *)
Lemma loop_body_refs (np ns : nat) (l : locals) (w : world) :
  steady np ns l w -> calm 6 w -> (1 <= np)%nat -> product_ids l <> [] ->
  Forall has_product (rows_of "sales" (server w)) ->
  exists np' ns' n l' w',
    loop_body PyConn (l, w) = (inr tt, (l', w'))
    /\ steady np' ns' l' w' /\ (1 <= np')%nat
    /\ fault_script w' = skipn n (fault_script w)
    /\ product_ids l' <> []
    /\ Forall has_product (rows_of "sales" (server w')).
Proof.
  intros H Hq Hpos Hpool Hold.
  assert (H0 : steady np ns (set_iteration (iteration l + 1) l) w).
  { eapply steady_later; [exact H | apply H | reflexivity | lia | reflexivity..]. }
  destruct (insert_step_spec _ _ _ _ H0 (calm_le 2 6 w ltac:(lia) Hq))
    as (c1 & l1 & w1 & E1 & Hc1 & H1 & Hf1 & _).
  destruct (insert_step_pool _ _ _ _ _ _ H0 (calm_le 2 6 w ltac:(lia) Hq) E1)
    as [Hp1 Hr1].
  pose proof (calm_skipn 1 2 w w1 Hf1 (calm_le 3 6 w ltac:(lia) Hq)) as Hq1.
  destruct (refresh_check_spec _ _ _ _ H1 Hq1)
    as (txn & t0 & n & l2 & w2 & E2 & H2 & Hn & Hf2 & _).
  destruct (refresh_check_pool _ _ _ _ _ _ H1 Hq1 ltac:(lia) Hp1 E2) as [Hp2 Hv2].
  assert (Hf2' : fault_script w2 = skipn (n + 2) (fault_script w)).
  { rewrite Hf2, Hf1, skipn_skipn. reflexivity. }
  pose proof (calm_skipn 2 (n + 2) w w2 Hf2' (calm_le (n + 2 + 2) 6 w ltac:(lia) Hq))
    as Hq2.
  destruct (sales_step_spec _ _ _ _ _ _ H2 Hq2)
    as (c2 & l3 & w3 & E3 & Hc2 & H3 & Hf3 & _).
  destruct (sales_step_refs _ _ _ _ _ _ _ _ H2 Hq2 Hp2
              ltac:(rewrite Hv2, Hr1; exact Hold) E3) as [Hp3 Hr3].
  assert (Hf3' : fault_script w3 = skipn (n + 4) (fault_script w)).
  { rewrite Hf3, Hf2', skipn_skipn. f_equal. lia. }
  destruct (report_step_spec _ _ _ _ H3
              (calm_skipn 1 (n + 4) w w3 Hf3' (calm_le (n + 4 + 1) 6 w ltac:(lia) Hq)))
    as (w4 & E4 & H4 & Hf4).
  destruct (report_step_server _ _ _ _ E4) as [_ Hv4].
  exists (np + c1)%nat, (ns + c2)%nat, (n + 5)%nat, l3, w4.
  split.
  { unfold loop_body, upto_refresh_check.
    erewrite bind_inr; [|erewrite bind_inr by reflexivity;
                          erewrite bind_inr by exact E1; exact E2].
    erewrite bind_inr by exact E3. exact E4. }
  split; [exact H4|]. split; [lia|].
  split; [rewrite Hf4, Hf3', skipn_skipn; f_equal; lia|].
  split; [rewrite Hp3; exact Hp2|].
  rewrite Hv4. exact Hr3.
Qed.

Lemma while_true_refs (n : nat) :
  forall np ns l w,
    steady np ns l w -> quiet w -> (1 <= np)%nat -> product_ids l <> [] ->
    Forall has_product (rows_of "sales" (server w)) ->
    exists np' ns' l' w',
      while_true n (loop_body PyConn) (l, w) = (inr tt, (l', w'))
      /\ steady np' ns' l' w'
      /\ product_ids l' <> []
      /\ Forall has_product (rows_of "sales" (server w')).
Proof.
  induction n as [|n IH]; intros np ns l w H Hq Hpos Hpool Hold.
  - exists np, ns, l, w. cbn [while_true]. unfold ret.
    split; [reflexivity|]. split; [exact H|]. split; [exact Hpool | exact Hold].
  - destruct (loop_body_refs _ _ _ _ H (quiet_calm 6 w Hq) Hpos Hpool Hold)
      as (np1 & ns1 & k & l1 & w1 & E1 & H1 & Hpos1 & Hf1 & Hp1 & Hr1).
    destruct (IH _ _ _ _ H1 (quiet_skipn k w w1 Hf1 Hq) Hpos1 Hp1 Hr1)
      as (np' & ns' & l' & w' & E' & H' & Hp' & Hr').
    exists np', ns', l', w'. cbn [while_true].
    erewrite bind_inr by exact E1.
    split; [exact E'|]. split; [exact H'|]. split; [exact Hp' | exact Hr'].
Qed.

(** X21.  In a run of [main] no sale is without a product.  From an
    empty store, when a connection is accepted within the five attempts
    and nothing fails: after any number of turns the pool of [main] is
    not empty, and every row of [sales] has a [product_id] that is not
    NULL and is the identifier of a row of [products]. *)
Theorem sales_always_reference (n : nat) (w : world) (ms : list string)
    (cs : list (option exn)) :
  server w = empty_store -> quiet w ->
  connect_script w = map refuse ms ++ cs -> (length ms < max_retries)%nat ->
  hd None cs = None ->
  exists l w',
    main n w = (Running l, w')
    /\ product_ids l <> []
    /\ Forall (fun s => exists i p,
                 field "product_id" s = VInt i
                 /\ In p (rows_of "products" (server w')) /\ field "id" p = VInt i)
         (rows_of "sales" (server w')).
Proof.
  intros Hsrv Hq Hcs Hlen Hhd.
  destruct (main_prologue_spec w ms cs Hsrv (quiet_calm _ w Hq) Hcs Hlen Hhd)
    as (l0 & w0 & E0 & H0 & _ & Hf0).
  pose proof (main_prologue_pool _ _ _ _ E0) as Hsize.
  assert (Hpool0 : product_ids l0 <> []).
  { destruct H0 as (_ & _ & _ & tp & ts & _ & _ & _ & _ & _ & _ & Htp & _).
    rewrite Htp in Hsize. intros Hnil. rewrite Hnil in Hsize. cbn [length] in Hsize. lia. }
  assert (Hold0 : Forall has_product (rows_of "sales" (server w0))).
  { destruct H0 as (_ & _ & _ & tp & ts & _ & _ & Hfs & _ & _ & Hns & _).
    unfold rows_of. rewrite Hfs. destruct (tbl_rows ts); [constructor | discriminate]. }
  destruct (while_true_refs n _ _ _ _ H0 (quiet_skipn _ w w0 Hf0 Hq) ltac:(lia) Hpool0 Hold0)
    as (np & ns & l & w' & E & H & Hp & Hr).
  exists l, w'. unfold main. rewrite E0, E.
  split; [reflexivity|]. split; [exact Hp|].
  destruct H as (_ & _ & _ & tp & ts & Hfp & _ & Hfs & _ & _ & _ & _ & _ & _ & _ & Hsales).
  unfold rows_of in *. rewrite Hfp, Hfs in *.
  rewrite Forall_forall in *. intros s Hin.
  destruct (Hr s Hin) as [i Hi].
  destruct (Hsales s Hin i Hi) as (p & created & sold & Hp' & Hid & _).
  exists i, p. repeat split; assumption.
Qed.

Lemma sales_always_reference_witness :
  exists l w',
    main 2 (demo_world [] []) = (Running l, w') /\ product_ids l <> [].
Proof.
  destruct (sales_always_reference 2 (demo_world [] []) [] [] eq_refl (Forall_nil _) eq_refl
              ltac:(unfold max_retries; cbn; lia) eq_refl)
    as (l & w' & H & Hp & _).
  exists l, w'. split; [exact H | exact Hp].
Defined.

(** ** The bounds of the connection manager *)

Lemma time_sleep_world (secs : nat) (w : world) :
  exists r, time_sleep secs w = (r, after_external (EvSleep secs) w).
Proof.
  unfold time_sleep, external, bind, record, tick, fault, after_external. wnorm.
  destruct (fault_script w) as [|[e|] fs]; eexists; reflexivity.
Qed.

Lemma psycopg2_connect_trace (w : world) :
  trace (snd (psycopg2_connect w)) = EvConnect :: trace w.
Proof.
  unfold psycopg2_connect, bind, record, tick. wnorm.
  destruct (connect_script w) as [|[e|] cs]; reflexivity.
Qed.

Lemma connection_attempts_bounds (n : nat) :
  forall (attempt : nat) (w w' : world) (r : exn + pyconn),
    (attempt + n = max_retries)%nat ->
    connection_attempts (seq attempt n) w = (r, w') ->
    (occurrences is_connect (trace w') <= occurrences is_connect (trace w) + n)%nat
    /\ (seconds_slept (trace w') <= seconds_slept (trace w) + retry_delay * (n - 1))%nat
    /\ occurrences is_statement (trace w') = occurrences is_statement (trace w).
Proof.
  induction n as [|n IH]; intros attempt w w' r Hsum H.
  - cbn [seq connection_attempts] in H. unfold ret in H. injection H as _ <-.
    repeat split; lia.
  - cbn [seq connection_attempts] in H. unfold try_except in H.
    erewrite bind_inr in H by apply logger_info_eq.
    unfold bind at 1 in H.
    pose proof (psycopg2_connect_trace
                  (set_trace (EvLog INFO (attempt_msg attempt) :: trace w) w)) as Ht.
    destruct (psycopg2_connect (set_trace (EvLog INFO (attempt_msg attempt) :: trace w) w))
      as [[e|conn] w1].
    + cbn [snd trace set_trace] in Ht.
      destruct (is_OperationalError e).
      * erewrite bind_inr in H by apply logger_error_eq.
        destruct (Nat.ltb attempt (max_retries - 1)) eqn:Hlt.
        -- erewrite bind_inr in H by apply logger_info_eq.
           unfold bind at 1 in H.
           match type of H with
           | context [time_sleep retry_delay ?v] =>
               destruct (time_sleep_world retry_delay v) as [r0 Er]; rewrite Er in H
           end.
           apply Nat.ltb_lt in Hlt.
           destruct r0 as [e'|[]].
           ++ injection H as _ <-. unfold after_external. wnorm. rewrite Ht.
              unfold occurrences, seconds_slept, list_sum, retry_delay, max_retries in *.
              cbn [filter is_connect is_statement length map fold_right].
              repeat split; lia.
           ++ apply IH in H; [|lia]. destruct H as (Hc & Hs & Hx).
              unfold after_external in Hc, Hs, Hx. wnorm_in Hc. wnorm_in Hs. wnorm_in Hx.
              rewrite Ht in Hc, Hs, Hx.
              unfold occurrences, seconds_slept, list_sum, retry_delay, max_retries in *.
              cbn [filter is_connect is_statement length map fold_right] in Hc, Hs, Hx.
              split; [lia|]. split; [lia | exact Hx].
        -- erewrite bind_inr in H by apply logger_critical_eq.
           unfold raise in H. injection H as _ <-. wnorm.
           rewrite Ht. unfold occurrences, seconds_slept, list_sum.
           cbn [filter is_connect is_statement length map fold_right].
           repeat split; lia.
      * injection H as _ <-. rewrite Ht. unfold occurrences, seconds_slept, list_sum.
        cbn [filter is_connect is_statement length map fold_right].
        repeat split; lia.
    + cbn [snd trace set_trace] in Ht. unfold reading in H.
      erewrite bind_inr in H by apply logger_info_eq. unfold ret in H.
      injection H as _ <-. wnorm.
      rewrite Ht. unfold occurrences, seconds_slept, list_sum.
      cbn [filter is_connect is_statement length map fold_right].
      repeat split; lia.
Qed.

(** X22.  Whatever [psycopg2.connect] and the sleeps return or raise,
    [get_db_connection] calls [psycopg2.connect] at most five times,
    sleeps at most eight seconds in all, and sends no statement. *)
Theorem get_db_connection_bounds (w : world) :
  (occurrences is_connect (history (snd (get_db_connection w)))
   <= occurrences is_connect (history w) + 5)%nat
  /\ (seconds_slept (history (snd (get_db_connection w)))
      <= seconds_slept (history w) + 8)%nat
  /\ occurrences is_statement (history (snd (get_db_connection w)))
     = occurrences is_statement (history w).
Proof.
  destruct (get_db_connection w) as [r w'] eqn:E. cbn [snd].
  unfold get_db_connection in E.
  erewrite bind_inr in E by apply logger_info_eq.
  apply (connection_attempts_bounds max_retries 0) in E; [|reflexivity].
  destruct E as (Hc & Hs & Hx). cbn [trace set_trace] in Hc, Hs, Hx.
  rewrite !occurrences_history.
  assert (Hrev : forall v, seconds_slept (history v) = seconds_slept (trace v)).
  { intros v. unfold history. induction (trace v) as [|ev t IHt]; [reflexivity|].
    cbn [rev]. rewrite seconds_slept_app, IHt. unfold seconds_slept, list_sum.
    cbn [map fold_right]. lia. }
  rewrite !Hrev.
  unfold occurrences, seconds_slept, list_sum, retry_delay, max_retries in *.
  cbn [filter is_connect is_statement length map fold_right] in Hc, Hs, Hx.
  repeat split; lia.
Qed.

(** ** The records and the schema *)








